(** * GemLite: bit-packing layouts and the Triton autotune cache

    A shallow embedding of [gemlite/core.py]: the two quantized linear
    operators [GemLiteLinearCUDA] (Layout A) and [GemLiteLinearTriton]
    (Layout B), their constructors, their [pack] / [unpack] methods and
    the process-wide kernel cache consulted by [forward_auto].

    Python integers are [Z]; tensor shapes and indices are [nat]; [int32]
    tensor elements are [Z] values kept in the signed 32-bit range with the
    wrap-around written out.  Measured latencies (finite floats returned by
    [do_bench]) are embedded in [Q]. *)

From Stdlib Require Import ZArith QArith Lia.
From stdpp Require Import gmap strings list fin_maps.
Close Scope Q_scope.

(** ** Exceptions and fallible computations *)

Inductive exn :=
| NotImplementedError (msg : string)
| KeyError (key : Z)
| AttributeError (attr : string)
| AssertionError (msg : string)
| RuntimeError (msg : string)
| ZeroDivisionError
| TypeError (msg : string)
| ValueError (msg : string)
| IndexError (msg : string).

Inductive result (A : Type) :=
| Ok (a : A)
| Raise (e : exn).
Arguments Ok {A} a.
Arguments Raise {A} e.

Global Instance result_ret : MRet result := λ A a, Ok a.

Global Instance result_bind : MBind result := λ A B k m,
  match m with
  | Ok a => k a
  | Raise e => Raise e
  end.

Definition is_ok {A} (m : result A) : bool :=
  match m with Ok _ => true | Raise _ => false end.

(** Python's [a // b] on integers: floor division, [ZeroDivisionError] on 0. *)
Definition py_floordiv (a b : Z) : result Z :=
  if decide (b = 0%Z) then Raise ZeroDivisionError else Ok (a / b)%Z.

(** Python's [a % b] on integers. *)
Definition py_mod (a b : Z) : result Z :=
  if decide (b = 0%Z) then Raise ZeroDivisionError else Ok (a mod b)%Z.

(** ** [class DType(Enum)] *)

Inductive DType := FP16 | BF16 | FP32 | INT8 | INT32 | FP16D8.

Global Instance DType_eq_dec : EqDecision DType.
Proof. solve_decision. Defined.

Definition DType_value (d : DType) : string :=
  match d with
  | FP16 => "FP16" | BF16 => "BF16" | FP32 => "FP32"
  | INT8 => "INT8" | INT32 => "INT32" | FP16D8 => "FP16D8i"
  end.

(** ** 32-bit integer arithmetic of [torch.int32] tensors *)

Definition wrap32 (z : Z) : Z := ((z + 2 ^ 31) mod 2 ^ 32 - 2 ^ 31)%Z.

(** [x << s] on an int32 element: the bits shifted past bit 31 are lost and
    bit 31 is the sign. *)
Definition shl32 (s : Z) (x : Z) : Z := wrap32 (Z.shiftl x s).

(** [x >> s] on an int32 element is an arithmetic shift. *)
Definition shr32 (s : Z) (x : Z) : Z := Z.shiftr x s.

(** Storing into a [torch.uint8] tensor keeps the low 8 bits. *)
Definition to_uint8 (z : Z) : Z := (z mod 256)%Z.

(** Storing into a signed integer tensor of [bits] bits keeps the low
    [bits] bits, read in two's complement. *)
Definition to_signed (bits : Z) (z : Z) : Z :=
  ((z + 2 ^ (bits - 1)) mod 2 ^ bits - 2 ^ (bits - 1))%Z.

(** Storing an integer into a [torch.bool] tensor: [True], written 1, for
    every non-zero value. *)
Definition to_bool (z : Z) : Z := if decide (z = 0%Z) then 0%Z else 1%Z.

(** Storing an integer into a binary floating-point tensor with [p]
    significant bits: exact below [2^p], rounded to nearest, ties to even,
    beyond. A magnitude that rounds to [2^emax] or more is infinite; the
    infinities are written [2^emax] and [-2^emax] here. *)
Definition to_float (p emax : Z) (z : Z) : Z :=
  let a := Z.abs z in
  if decide (a < 2 ^ p)%Z then z
  else
    let e := (Z.log2 a - (p - 1))%Z in
    let q := (a / 2 ^ e)%Z in
    let r := (a mod 2 ^ e)%Z in
    let half := (2 ^ (e - 1))%Z in
    let q := if decide (half < r ∨ (r = half ∧ Z.odd q = true))%Z
             then (q + 1)%Z else q in
    let m := (q * 2 ^ e)%Z in
    let m := if decide (2 ^ emax ≤ m)%Z then (2 ^ emax)%Z else m in
    (Z.sgn z * m)%Z.

(** ** Two-dimensional contiguous tensors (row-major storage) *)

Record tensor := Tensor { nrows : nat; ncols : nat; data : list Z }.

Definition numel (t : tensor) : nat := length (data t).

Definition wf_tensor (t : tensor) : Prop := length (data t) = nrows t * ncols t.

(** [t[i, j]] in row-major storage. *)
Definition item (t : tensor) (i j : nat) : Z :=
  default 0%Z (data t !! (i * ncols t + j)).

(** The contiguous tensor of shape [(r, c)] whose element [(i, j)] is [f i j]. *)
Definition tabulate (r c : nat) (f : nat → nat → Z) : tensor :=
  Tensor r c ((λ p, f (p / c) (p mod c)) <$> seq 0 (r * c)).

Definition cdiv_nat (a b : nat) : nat := (a + b - 1) / b.

(** [torch.nn.functional.pad(t, pad=(0, p), value=0)]: [p] zeros appended to
    every row. *)
Definition pad_last (t : tensor) (p : nat) : tensor :=
  tabulate (nrows t) (ncols t + p)
    (λ i j, if decide (j < ncols t) then item t i j else 0%Z).

(** [t.reshape(-1, tile)] (also [t.view((-1, tile))]). *)
Definition reshape_tiles (t : tensor) (tile : nat) : result tensor :=
  if decide (tile = 0) then Raise (RuntimeError "cannot infer -1")
  else if decide (numel t mod tile = 0)
       then Ok (Tensor (numel t / tile) tile (data t))
       else Raise (RuntimeError "shape is invalid for input size").

(** [t.reshape(r, c)] (also [t.view([r, c])]). *)
Definition reshape (t : tensor) (r c : nat) : result tensor :=
  if decide (numel t = r * c)
  then Ok (Tensor r c (data t))
  else Raise (RuntimeError "shape is invalid for input size").

(** [t[i::step, :]] for a positive [step]. *)
Definition rows_step (t : tensor) (i step : nat) : tensor :=
  tabulate (cdiv_nat (nrows t - i) step) (ncols t)
    (λ r c, item t (i + r * step) c).

(** [t << s] and [t >> s], elementwise. *)
Definition lshift (t : tensor) (s : Z) : tensor :=
  Tensor (nrows t) (ncols t) (shl32 s <$> data t).

Definition rshift (t : tensor) (s : Z) : tensor :=
  Tensor (nrows t) (ncols t) (shr32 s <$> data t).

(** [t & mask], elementwise. *)
Definition and_mask (t : tensor) (mask : Z) : tensor :=
  Tensor (nrows t) (ncols t) ((λ x, Z.land x mask) <$> data t).

(** In-place [t |= u]: [u] must have the shape of [t] or broadcast to it
    (a single row against several). *)
Definition ior_ (t u : tensor) : result tensor :=
  if decide (ncols u = ncols t ∧ nrows u = nrows t)
  then Ok (Tensor (nrows t) (ncols t) (zip_with Z.lor (data t) (data u)))
  else if decide (ncols u = ncols t ∧ nrows u = 1)
  then Ok (tabulate (nrows t) (ncols t)
             (λ i j, Z.lor (item t i j) (item u 0 j)))
  else Raise (RuntimeError "output shape does not match the broadcast shape").

(** [t.t().contiguous()] *)
Definition transpose (t : tensor) : tensor :=
  tabulate (ncols t) (nrows t) (λ i j, item t j i).

(** [torch.zeros((r, c), dtype=torch.int32)] *)
Definition torch_zeros (r c : nat) : tensor := Tensor r c (replicate (r * c) 0%Z).

(** [torch.empty([r, c], ...)]: the contents are unspecified until written;
    they are modelled as zeros. *)
Definition torch_empty (r c : Z) : result tensor :=
  if decide (0 ≤ r ∧ 0 ≤ c)%Z
  then Ok (torch_zeros (Z.to_nat r) (Z.to_nat c))
  else Raise (RuntimeError "Trying to create tensor with negative dimension").

(** [t.view(shape)] for a shape computed as Python integers. *)
Definition view (t : tensor) (shape : Z * Z) : result tensor :=
  if decide (0 ≤ shape.1 ∧ 0 ≤ shape.2)%Z
  then reshape t (Z.to_nat shape.1) (Z.to_nat shape.2)
  else Raise (RuntimeError "invalid shape dimension").

(** Row [i] of a tensor, [t[i]]; [IndexError] out of range. *)
Definition row (t : tensor) (i : nat) : result (list Z) :=
  if decide (i < nrows t)
  then Ok (take (ncols t) (drop (i * ncols t) (data t)))
  else Raise (IndexError "index out of range").

(** ** Floating-point tensors (scales, zero-points, bias)

    Only their shape and layout matter to this module; the elements are
    carried along as rationals. *)

Record ftensor := FTensor { fshape : list nat; fdata : list Q }.

(** The second dimension of [t.reshape((r, c))]: [c = -1] is inferred. *)
Definition infer_dim (n r : nat) (c : Z) : result nat :=
  if decide (c = (-1)%Z) then
    if decide (r ≠ 0 ∧ n mod r = 0) then Ok (n / r)
    else Raise (RuntimeError "shape is invalid for input size")
  else if decide ((0 ≤ c)%Z ∧ n = r * Z.to_nat c) then Ok (Z.to_nat c)
  else Raise (RuntimeError "shape is invalid for input size").

(** [t.reshape((r, c)).t().contiguous()] *)
Definition freshape_t (t : ftensor) (r : nat) (c : Z) : result ftensor :=
  c ← infer_dim (length (fdata t)) r c;
  Ok (FTensor [c; r]
        ((λ p, default 0%Q (fdata t !! ((p mod r) * c + p / r)))
           <$> seq 0 (c * r))).

(** In-place [out += b] needs the shape of [b] to broadcast to the shape of
    [out]: aligned from the last dimension, every dimension of [b] is 1 or
    the dimension of [out], and [b] has no more dimensions than [out].
    Both shapes are given last dimension first. *)
Fixpoint broadcasts_rev (b out : list Z) : bool :=
  match b, out with
  | [], _ => true
  | _ :: _, [] => false
  | db :: b, dout :: out =>
      (bool_decide (db = 1%Z) || bool_decide (db = dout))
      && broadcasts_rev b out
  end.

Definition broadcasts_to (b out : list Z) : bool :=
  broadcasts_rev (rev b) (rev out).

(** A metadata argument handed to [pack] by the caller: [None], a Python
    number, or a [torch.Tensor]. *)
Inductive pyarg :=
| PNone
| PNum (q : Q)
| PTensor (t : ftensor).

Definition is_tensor (a : pyarg) : bool :=
  match a with PTensor _ => true | _ => false end.

Definition is_none (a : pyarg) : bool :=
  match a with PNone => true | _ => false end.

(** ** Python objects as attribute stores *)

Inductive cuda_kernel :=
| gemv_A16fW8iO16f | gemv_A16fW4iO16f | gemv_A16fW2iO16f
| gemv_A8iW8iO32i | gemv_A8iW4iO32i | gemv_A8iW2iO32i.

(** The element types of [torch] modelled here: the integer types, [bool]
    and the binary floating-point types. *)
Inductive torch_dtype :=
| float16 | bfloat16 | float32 | float64
| uint8 | int8 | int16 | int32 | int64 | torch_bool.

(** The values an attribute holds. Two of them record a conversion that
    [torch] carries out, without evaluating it: [VScalarTensor dtype x] is
    [torch.tensor([[x]], dtype=dtype)], the [1 x 1] tensor holding [x]
    rounded to [dtype], and [VParameter dtype t] is
    [torch.nn.Parameter(t.to(dtype=dtype))], the tensor [t] with every
    element converted to [dtype]. *)
Inductive value :=
| VNone
| VBool (b : bool)
| VInt (z : Z)
| VNum (q : Q)
| VTuple (vs : list (option Z))
| VDType (d : DType)
| VTorchDtype (d : torch_dtype)
| VKernel (k : cuda_kernel)
| VLambda (passes_scales : bool)
| VTensor (t : tensor)
| VFTensor (t : ftensor)
| VScalarTensor (dtype : torch_dtype) (x : Q)
| VParameter (dtype : option torch_dtype) (t : ftensor)
| VDevice.

Definition opt_int (o : option Z) : value :=
  match o with Some z => VInt z | None => VNone end.

(** A method body: it may update [self] and then return or raise; the
    attributes assigned before an exception stay assigned. *)
Definition method (A : Type) : Type :=
  gmap string value → gmap string value * result A.

Global Instance method_ret : MRet method := λ A a self, (self, Ok a).

Global Instance method_bind : MBind method := λ A B k m self,
  match m self with
  | (self', Ok a) => k a self'
  | (self', Raise e) => (self', Raise e)
  end.

Definition raise {A} (e : exn) : method A := λ self, (self, Raise e).

Definition lift {A} (r : result A) : method A := λ self, (self, r).

Definition setattr (name : string) (v : value) : method unit :=
  λ self, (<[name := v]> self, Ok tt).

Definition as_int (v : value) : result Z :=
  match v with
  | VInt z => Ok z
  | _ => Raise (TypeError "unsupported operand type(s)")
  end.

(** The truth value of [v] in [if v:]. *)
Definition as_bool (v : value) : result bool :=
  match v with
  | VBool b => Ok b
  | VNone => Ok false
  | VInt z => Ok (negb (bool_decide (z = 0%Z)))
  | _ => Ok true
  end.

(** [v == b] for a Python value and a [bool]. *)
Definition eq_bool (v : value) (b : bool) : bool :=
  match v with
  | VBool b' => eqb b' b
  | VInt z => bool_decide (z = if b then 1%Z else 0%Z)
  | _ => false
  end.

Definition as_tensor (v : value) : result tensor :=
  match v with
  | VTensor t => Ok t
  | _ => Raise (AttributeError "shape")
  end.

(** ** CUDA backend *)

Definition GEMLITE_GEMV_FP16_INPUT_FP16_OUTPUT : gmap Z cuda_kernel :=
  {[ 8%Z := gemv_A16fW8iO16f; 4%Z := gemv_A16fW4iO16f; 2%Z := gemv_A16fW2iO16f ]}.

Definition GEMLITE_GEMV_INT8_INPUT_INT32_OUTPUT : gmap Z cuda_kernel :=
  {[ 8%Z := gemv_A8iW8iO32i; 4%Z := gemv_A8iW4iO32i; 2%Z := gemv_A8iW2iO32i ]}.

(** [table[key]], [KeyError] when absent. *)
Definition subscript (table : gmap Z cuda_kernel) (key : Z) : result cuda_kernel :=
  match table !! key with
  | Some k => Ok k
  | None => Raise (KeyError key)
  end.

Module GemLiteLinearCUDA.

(** Class attributes. *)
Definition warp_size : Z := 32.
Definition warps_per_block : Z := 32.
Definition cols_per_warp : Z := 1.
Definition threads_per_group : Z := (warp_size / cols_per_warp)%Z.

Definition class_attrs : gmap string value :=
  {[ "warp_size" := VInt warp_size;
     "warps_per_block" := VInt warps_per_block;
     "cols_per_warp" := VInt cols_per_warp;
     "threads_per_group" := VInt threads_per_group ]}.

(** [self.name]: the instance attributes (with the parameters and
    buffers [torch.nn.Module] keeps), then the class attributes. *)
Definition getattr (name : string) : method value := λ self,
  match self !! name with
  | Some v => (self, Ok v)
  | None =>
      match class_attrs !! name with
      | Some v => (self, Ok v)
      | None => (self, Raise (AttributeError name))
      end
  end.

Definition __init__ (W_nbits : Z) (group_size : option Z)
    (in_features out_features : Z) (input_dtype output_dtype : DType)
    (acc_dtype : option DType) : method unit :=
  setattr "in_features" (VInt in_features);;
  setattr "out_features" (VInt out_features);;
  setattr "orig_shape" (VTuple [Some out_features; Some in_features]);;
  setattr "W_nbits" (VInt W_nbits);;
  setattr "group_size" (VInt (default in_features group_size));;
  setattr "input_dtype" (VDType input_dtype);;
  setattr "output_dtype" (VDType output_dtype);;
  setattr "signature"
    (VTuple [Some in_features; Some out_features; Some W_nbits;
             group_size]);;
  setattr "compute_dtype" (VTorchDtype float16);;
  setattr "forward_raw" VNone;;
  (if decide (input_dtype = FP16 ∧ output_dtype = FP16) then
     n ← (v ← getattr "W_nbits"; lift (as_int v));
     k ← lift (subscript GEMLITE_GEMV_FP16_INPUT_FP16_OUTPUT n);
     setattr "kernel_fct" (VKernel k);;
     i ← (v ← getattr "in_features"; lift (as_int v));
     o ← (v ← getattr "out_features"; lift (as_int v));
     g ← lift (as_int (opt_int group_size));
     m ← lift (py_mod (i * o) g);
     if decide (m = 0%Z) then
       setattr "zero_is_tensor" (VBool true);;
       setattr "has_scales" (VBool true);;
       setattr "forward_raw" (VLambda true)
     else mret tt
   else mret tt);;
  (if decide (input_dtype = INT8 ∧ output_dtype = INT32) then
     n ← (v ← getattr "W_nbits"; lift (as_int v));
     k ← lift (subscript GEMLITE_GEMV_INT8_INPUT_INT32_OUTPUT n);
     setattr "kernel_fct" (VKernel k);;
     i ← (v ← getattr "in_features"; lift (as_int v));
     o ← (v ← getattr "out_features"; lift (as_int v));
     if decide (group_size = Some (i * o)%Z) then
       setattr "zero_is_tensor" (VBool false);;
       setattr "has_scales" (VBool false);;
       setattr "forward_raw" (VLambda false)
     else mret tt
   else mret tt);;
  f ← getattr "forward_raw";
  match f with
  | VNone => raise (NotImplementedError "Unsupport configuration: ")
  | _ => setattr "acc_dtype" VNone
  end.

(** [GemLiteLinearCUDA(...)]: the object when [__init__] returns, the
    exception otherwise. *)
Definition new (W_nbits : Z) (group_size : option Z)
    (in_features out_features : Z) (input_dtype output_dtype : DType)
    (acc_dtype : option DType) : result (gmap string value) :=
  match __init__ W_nbits group_size in_features out_features
          input_dtype output_dtype acc_dtype ∅ with
  | (self, Ok _) => Ok self
  | (_, Raise e) => Raise e
  end.

(** The loop [for i in range(1, step)] of [pack]; [is_] is the remaining
    range. *)
Fixpoint pack_loop (W_nbits : Z) (W_q : tensor) (step : nat)
    (is_ : list nat) (shift : Z) (W_q_packed : tensor) : result tensor :=
  match is_ with
  | [] => Ok W_q_packed
  | i :: is_ =>
      let shift := (shift - W_nbits)%Z in
      W_q_packed ← ior_ W_q_packed (lshift (rows_step W_q i step) shift);
      pack_loop W_nbits W_q step is_ shift W_q_packed
  end.

(** [int(step * np.ceil(c / step) - c)] *)
Definition pad_amount (c : nat) (step : Z) : result Z :=
  if decide (step = 0%Z) then Raise ZeroDivisionError
  else Ok (step * (- ((- Z.of_nat c) / step)) - Z.of_nat c)%Z.

(** A slice step must be positive. *)
Definition slice_step (step : Z) : result nat :=
  if decide (0 < step)%Z then Ok (Z.to_nat step)
  else Raise (ValueError "step must be greater than zero").

(** The weight part of [pack]: from the codes [W_q] to the tensor stored
    in [self.W_q]. *)
Definition pack_W_q (tile_size W_nbits : Z) (W_q : tensor) : result tensor :=
  step ← py_floordiv 32 W_nbits;
  pad ← pad_amount (ncols W_q) step;
  let W_q := if decide (0 < pad)%Z then pad_last W_q (Z.to_nat pad) else W_q in
  let W_shape := (nrows W_q, ncols W_q) in
  W_q ← reshape_tiles W_q (Z.to_nat tile_size);
  let shift := 32%Z in
  let shift := (shift - W_nbits)%Z in
  stepn ← slice_step step;
  let W_q_packed := lshift (rows_step W_q 0 stepn) shift in
  W_q_packed ← pack_loop W_nbits W_q stepn (seq 1 (stepn - 1)) shift W_q_packed;
  reshape W_q_packed W_shape.1 (W_shape.2 / stepn).

(** [x if isinstance(x, torch.Tensor) else
    torch.tensor([[x]], dtype=torch.float16, ...)]: a tensor is kept as
    it is; a number becomes a [1 x 1] float16 tensor, written
    [VScalarTensor float16 x] without carrying out the conversion. *)
Definition tensor_or_wrap (x : pyarg) : result value :=
  match x with
  | PTensor t => Ok (VFTensor t)
  | PNum q => Ok (VScalarTensor float16 q)
  | PNone => Raise (TypeError "must be real number, not NoneType")
  end.

Definition assert_ (b : bool) (msg : string) : method unit :=
  if b then mret tt else raise (AssertionError msg).

Definition value_of_pyarg (x : pyarg) : value :=
  match x with
  | PNone => VNone
  | PNum q => VNum q
  | PTensor t => VFTensor t
  end.

(** [None if (bias is None) else
    torch.nn.Parameter(bias.to(device=self.W_q.device,
    dtype=self.compute_dtype))]: the parameter holds the bias converted
    to the compute dtype, written [VParameter dtype t] without carrying
    out the conversion ([dtype=None] converts nothing). *)
Definition bias_parameter (bias : pyarg) : method value :=
  match bias with
  | PNone => mret VNone
  | PNum _ => raise (AttributeError "to")
  | PTensor t =>
      _ ← getattr "W_q";
      d ← getattr "compute_dtype";
      match d with
      | VTorchDtype d => mret (VParameter (Some d) t)
      | VNone => mret (VParameter None t)
      | _ => raise (TypeError "to() received an invalid combination of arguments")
      end
  end.

(** The second half of [pack]: scales, zero-points, bias and device. *)
Definition pack_metadata (scales zeros bias : pyarg) : method unit :=
  has_scales ← getattr "has_scales";
  assert_ (eq_bool has_scales (negb (is_none scales)))
    "existence of scales did not match expectation";;
  zero_is_tensor ← (v ← getattr "zero_is_tensor"; lift (as_bool v));
  (if negb (is_none scales) then
     if (zero_is_tensor : bool) then
       v ← lift (tensor_or_wrap scales); setattr "scales" v
     else
       assert_ (negb (is_tensor scales)) "";;
       setattr "scales" (value_of_pyarg scales)
   else setattr "scales" VNone);;
  (if (zero_is_tensor : bool) then
     v ← lift (tensor_or_wrap zeros); setattr "zeros" v
   else
     assert_ (negb (is_tensor zeros)) "";;
     setattr "zeros" (value_of_pyarg zeros));;
  b ← bias_parameter bias;
  setattr "bias" b;;
  setattr "device" VDevice.

Definition pack (W_q : tensor) (scales zeros bias : pyarg) : method unit :=
  tile_size ← (v ← getattr "threads_per_group"; lift (as_int v));
  n ← (v ← getattr "W_nbits"; lift (as_int v));
  W_q_packed ← lift (pack_W_q tile_size n W_q);
  setattr "W_q" (VTensor W_q_packed);;
  pack_metadata scales zeros bias.

(** [W_r[i::step, :] = src], stored with the element type of [W_r]. *)
Definition set_rows_step (cast : Z → Z) (W_r : tensor) (i step : nat)
    (src : tensor) : result tensor :=
  if decide (ncols src = ncols W_r
             ∧ nrows src = cdiv_nat (nrows W_r - i) step)
  then Ok (tabulate (nrows W_r) (ncols W_r)
             (λ r c, if decide (i ≤ r ∧ (r - i) mod step = 0)
                     then cast (item src ((r - i) / step) c)
                     else item W_r r c))
  else Raise (RuntimeError "shape mismatch").

(** Storing an int32 element into a tensor of element type [dtype]. *)
Definition cast_to (dtype : torch_dtype) : Z → Z :=
  match dtype with
  | uint8 => to_uint8
  | int8 => to_signed 8
  | int16 => to_signed 16
  | int32 | int64 => id
  | torch_bool => to_bool
  | float16 => to_float 11 16
  | bfloat16 => to_float 8 128
  | float32 => to_float 24 128
  | float64 => to_float 53 1024
  end.

(** The loop [for i in range(0, step)] of [unpack]. *)
Fixpoint unpack_loop (W_nbits mask : Z) (dtype : torch_dtype)
    (W_q_packed : tensor) (step : nat) (is_ : list nat) (shift : Z)
    (W_r : tensor) : result tensor :=
  match is_ with
  | [] => Ok W_r
  | i :: is_ =>
      let shift := (shift - W_nbits)%Z in
      W_r ← set_rows_step (cast_to dtype) W_r i step
              (and_mask (rshift W_q_packed shift) mask);
      unpack_loop W_nbits mask dtype W_q_packed step is_ shift W_r
  end.

(** The body of [unpack] once [self.W_q_packed] has been read. *)
Definition unpack_W_q (tile_size W_nbits : Z) (step : Z)
    (self_W_q_packed : tensor) (dtype : torch_dtype) : result tensor :=
  let W_shape := (Z.of_nat (nrows self_W_q_packed),
                  Z.of_nat (ncols self_W_q_packed) * step)%Z in
  W_q_packed ← reshape_tiles self_W_q_packed (Z.to_nat tile_size);
  W_r ← torch_empty
          (step * Z.of_nat (numel self_W_q_packed) / tile_size) tile_size;
  let mask := (2 ^ W_nbits - 1)%Z in
  let shift := 32%Z in
  W_r ← unpack_loop W_nbits mask dtype W_q_packed (Z.to_nat step)
          (seq 0 (Z.to_nat step)) shift W_r;
  view W_r W_shape.

(** [unpack(self, W_q_packed, dtype)]: the parameter [W_q_packed] is
    rebound from [self.W_q_packed] before it is ever read. *)
Definition unpack (W_q_packed : tensor) (dtype : torch_dtype) : method tensor :=
  tile_size ← (v ← getattr "threads_per_group"; lift (as_int v));
  n ← (v ← getattr "W_nbits"; lift (as_int v));
  step ← lift (py_floordiv 32 n);
  self_W_q_packed ← (v ← getattr "W_q_packed"; lift (as_tensor v));
  lift (unpack_W_q tile_size n step self_W_q_packed dtype).

End GemLiteLinearCUDA.

(** ** Triton backend *)

Inductive triton_kernel :=
| gemm_A16fWnO16f_int32packing
| gemv_A16fWnO16f_int32packing.

Global Instance triton_kernel_eq_dec : EqDecision triton_kernel.
Proof. solve_decision. Defined.

Inductive matmul := GEMM | GEMV.

Global Instance matmul_eq_dec : EqDecision matmul.
Proof. solve_decision. Defined.

(** Modelled from the spec: the [matmul_type] attribute of the two kernel
    classes of [triton_kernels], which is not part of the sources at hand.
    The spec calls them the GEMM- and GEMV-oriented implementations, and
    [GEMLITE_TRITON_MAPPING] files them under these two names. *)
Definition matmul_type (k : triton_kernel) : matmul :=
  match k with
  | gemm_A16fWnO16f_int32packing => GEMM
  | gemv_A16fWnO16f_int32packing => GEMV
  end.

Inductive tl_dtype := tl_float16 | tl_float32.

(** What an observer sees of a run: buffers allocated, kernels timed by
    [do_bench], kernels invoked on an input viewed as [(rows, cols)]. *)
Inductive event :=
| EvAlloc (name : string) (shape : nat * nat)
| EvBench (k : triton_kernel)
| EvInvoke (k : triton_kernel) (rows cols : nat).

(** A buffer registered on the meta device has a shape and no storage. *)
Inductive buffer (A : Type) :=
| Meta (shape : nat * nat)
| Real (t : A).
Arguments Meta {A} shape.
Arguments Real {A} t.

(** [(a + b - 1) // b] *)
Definition cdiv (a b : Z) : result Z := py_floordiv (a + b - 1) b.

(** The key of the cache: [(x.shape[0],) + self.signature]. *)
Definition signature_t : Type := Z * Z * Z * option Z.
Definition cache_key : Type := Z * signature_t.

(** The dictionary stored under a key. *)
Record cache_entry := CacheEntry { forward : triton_kernel; time : Q }.

(** [argmin] of a non-empty list: the index of the first occurrence of the
    minimum. [best] is the minimum so far, found at [best_i]; [i] is the
    index of the head of [l]. *)
Fixpoint argmin_from (best_i : nat) (best : Q) (i : nat) (l : list Q) : nat :=
  match l with
  | [] => best_i
  | x :: l =>
      if Qle_bool best x then argmin_from best_i best (S i) l
      else argmin_from i x (S i) l
  end.

(** [np.argmin(t)] *)
Definition argmin (t : list Q) : result nat :=
  match t with
  | [] => Raise (ValueError "attempt to get argmin of an empty sequence")
  | x :: l => Ok (argmin_from 0 x 1 l)
  end.

Module GemLiteLinearTriton.

(** The attributes of an instance. [__init__] assigns all of them but
    [bias] and [device], which [pack] assigns: [None] there is an
    attribute not yet set. *)
Record t := Self {
  _SUPPORTED_BITS_TRITON : list Z;
  in_features : Z;
  out_features : Z;
  orig_shape : Z * Z;
  W_nbits : Z;
  group_size : Z;
  unpack_mask : Z;
  elements_per_sample : Z;
  signature : signature_t;
  input_dtype : DType;
  output_dtype : DType;
  compute_dtype : torch_dtype;
  kernels : list triton_kernel;
  acc_dtype : tl_dtype;
  W_q : buffer tensor;
  scales : buffer ftensor;
  zeros : buffer ftensor;
  bias : option (option (torch_dtype * ftensor));
  device : option unit
}.

(** A constructor run: the buffers allocated so far and the outcome. *)
Definition ctor (A : Type) : Type := list event * result A.

Global Instance ctor_ret : MRet ctor := λ A a, ([], Ok a).

Global Instance ctor_bind : MBind ctor := λ A B k m,
  match m with
  | (log, Ok a) => let '(log', r) := k a in (log ++ log', r)
  | (log, Raise e) => (log, Raise e)
  end.

Definition fail {A} (e : exn) : ctor A := ([], Raise e).

Definition pure_ {A} (r : result A) : ctor A := ([], r).

(** [self.register_buffer(name, torch.zeros((r, c), ...))] under
    [torch.device("meta")]. *)
Definition register_buffer {A} (name : string) (r c : Z) : ctor (buffer A) :=
  if decide (0 ≤ r ∧ 0 ≤ c)%Z
  then ([EvAlloc name (Z.to_nat r, Z.to_nat c)],
        Ok (Meta (Z.to_nat r, Z.to_nat c)))
  else fail (RuntimeError "Trying to create tensor with negative dimension").

Definition __init__ (W_nbits : Z) (group_size : option Z)
    (in_features out_features : Z) (input_dtype output_dtype : DType)
    (acc_dtype : option DType) : ctor t :=
  let _SUPPORTED_BITS_TRITON := [1; 2; 4; 8]%Z in
  if negb (bool_decide (W_nbits ∈ _SUPPORTED_BITS_TRITON)) then
    fail (NotImplementedError "Only 2,4,8 W_nbits are supported.")
  else if negb (bool_decide (in_features mod 128 = 0)%Z)
          || negb (bool_decide (out_features mod 128 = 0)%Z) then
    fail (NotImplementedError "Invalid input shapes")
  else
    let self_group_size := default in_features group_size in
    let unpack_mask := (2 ^ W_nbits - 1)%Z in
    let elements_per_sample := (32 / W_nbits)%Z in
    let signature := (in_features, out_features, W_nbits, group_size) in
    let compute_dtype := None in
    let kernels := [] in
    let '(kernels, compute_dtype) :=
      if decide (input_dtype = FP16 ∧ output_dtype = FP16)
      then ([gemm_A16fWnO16f_int32packing; gemv_A16fWnO16f_int32packing],
            Some float16)
      else (kernels, compute_dtype) in
    let '(kernels, compute_dtype) :=
      if decide (input_dtype = BF16 ∧ output_dtype = BF16)
      then ([gemm_A16fWnO16f_int32packing], Some bfloat16)
      else (kernels, compute_dtype) in
    match compute_dtype with
    | None => fail (NotImplementedError "Unsupport settings: ")
    | Some compute_dtype =>
        let acc_dtype :=
          match acc_dtype with
          | None =>
              match compute_dtype with float16 => FP16 | _ => FP32 end
          | Some d => d
          end in
        let self_acc_dtype :=
          match acc_dtype with FP16 => tl_float16 | _ => tl_float32 end in
        num_groups ← pure_ (cdiv in_features self_group_size);
        W_q ← register_buffer "W_q"
                (in_features / 32 * W_nbits) out_features;
        scales ← register_buffer "scales" num_groups out_features;
        zeros ← register_buffer "zeros" num_groups out_features;
        mret (Self _SUPPORTED_BITS_TRITON in_features out_features
                (out_features, in_features) W_nbits self_group_size
                unpack_mask elements_per_sample signature input_dtype
                output_dtype compute_dtype kernels self_acc_dtype
                W_q scales zeros None None)
    end.

Definition set_W_q (self : t) (v : buffer tensor) : t :=
  Self (_SUPPORTED_BITS_TRITON self) (in_features self) (out_features self)
    (orig_shape self) (W_nbits self) (group_size self) (unpack_mask self)
    (elements_per_sample self) (signature self) (input_dtype self)
    (output_dtype self) (compute_dtype self) (kernels self) (acc_dtype self)
    v (scales self) (zeros self) (bias self) (device self).

Definition set_scales (self : t) (v : buffer ftensor) : t :=
  Self (_SUPPORTED_BITS_TRITON self) (in_features self) (out_features self)
    (orig_shape self) (W_nbits self) (group_size self) (unpack_mask self)
    (elements_per_sample self) (signature self) (input_dtype self)
    (output_dtype self) (compute_dtype self) (kernels self) (acc_dtype self)
    (W_q self) v (zeros self) (bias self) (device self).

Definition set_zeros (self : t) (v : buffer ftensor) : t :=
  Self (_SUPPORTED_BITS_TRITON self) (in_features self) (out_features self)
    (orig_shape self) (W_nbits self) (group_size self) (unpack_mask self)
    (elements_per_sample self) (signature self) (input_dtype self)
    (output_dtype self) (compute_dtype self) (kernels self) (acc_dtype self)
    (W_q self) (scales self) v (bias self) (device self).

Definition set_bias (self : t) (v : option (torch_dtype * ftensor)) : t :=
  Self (_SUPPORTED_BITS_TRITON self) (in_features self) (out_features self)
    (orig_shape self) (W_nbits self) (group_size self) (unpack_mask self)
    (elements_per_sample self) (signature self) (input_dtype self)
    (output_dtype self) (compute_dtype self) (kernels self) (acc_dtype self)
    (W_q self) (scales self) (zeros self) (Some v) (device self).

Definition set_device (self : t) : t :=
  Self (_SUPPORTED_BITS_TRITON self) (in_features self) (out_features self)
    (orig_shape self) (W_nbits self) (group_size self) (unpack_mask self)
    (elements_per_sample self) (signature self) (input_dtype self)
    (output_dtype self) (compute_dtype self) (kernels self) (acc_dtype self)
    (W_q self) (scales self) (zeros self) (bias self) (Some tt).

(** [dst[r] |= v] *)
Definition ior_row (dst : tensor) (r : nat) (v : list Z) : result tensor :=
  if decide (r < nrows dst) then
    if decide (length v = ncols dst) then
      Ok (tabulate (nrows dst) (ncols dst)
            (λ i j, if decide (i = r)
                    then Z.lor (item dst i j) (default 0%Z (v !! j))
                    else item dst i j))
    else Raise (RuntimeError "shape mismatch")
  else Raise (IndexError "index out of range").

(** The loop [for j in range(i, i + step)] of [pack]; [js] is the
    remaining range. *)
Fixpoint pack_row (W_nbits : Z) (W_q : tensor) (js : list nat) (row_ : nat)
    (shift : Z) (self_W_q : tensor) : result tensor :=
  match js with
  | [] => Ok self_W_q
  | j :: js =>
      src ← row W_q j;
      self_W_q ← ior_row self_W_q row_ (shl32 shift <$> src);
      pack_row W_nbits W_q js row_ (shift + W_nbits)%Z self_W_q
  end.

(** The loop [while row < self.W_q.shape[0]] of [pack]. Every iteration
    increments [row], so [nrows self_W_q - row] iterations of fuel reach
    the exit test. *)
Fixpoint pack_rows (fuel : nat) (W_nbits : Z) (step : nat) (W_q : tensor)
    (i row_ : nat) (self_W_q : tensor) : result tensor :=
  if decide (row_ < nrows self_W_q) then
    match fuel with
    | 0 => Raise (RuntimeError "out of fuel")
    | S fuel =>
        let shift := 0%Z in
        self_W_q ← pack_row W_nbits W_q (seq i step) row_ shift self_W_q;
        pack_rows fuel W_nbits step W_q (i + step) (row_ + 1) self_W_q
    end
  else Ok self_W_q.

(** The weight part of [pack]: from the codes [W_q] to [self.W_q]. *)
Definition pack_W_q (self : t) (W_q : tensor) : result tensor :=
  let '(o, i) := orig_shape self in
  W_q ← (if decide (0 ≤ o ∧ 0 ≤ i)%Z
         then reshape W_q (Z.to_nat o) (Z.to_nat i)
         else Raise (RuntimeError "invalid shape dimension"));
  let W_q := transpose W_q in
  let r := (Z.of_nat (nrows W_q) / 32 * W_nbits self)%Z in
  self_W_q ← (if decide (0 ≤ r)%Z
              then Ok (torch_zeros (Z.to_nat r) (ncols W_q))
              else Raise (RuntimeError
                            "Trying to create tensor with negative dimension"));
  step ← py_floordiv 32 (W_nbits self);
  pack_rows (nrows self_W_q) (W_nbits self) (Z.to_nat step) W_q 0 0 self_W_q.

(** [m.reshape((self.out_features, num_groups)).t().contiguous()] *)
Definition pack_meta (self : t) (num_groups : Z) (m : pyarg) : result ftensor :=
  match m with
  | PTensor m =>
      if decide (0 ≤ out_features self)%Z
      then freshape_t m (Z.to_nat (out_features self)) num_groups
      else Raise (RuntimeError "invalid shape dimension")
  | _ => Raise (AttributeError "reshape")
  end.

(** [None if (bias is None) else
    torch.nn.Parameter(bias.to(device=self.W_q.device,
    dtype=self.compute_dtype))]: the parameter holds the bias converted
    to the compute dtype, written as the pair of that dtype and the
    bias, without carrying out the conversion. *)
Definition bias_parameter (self : t) (bias : pyarg)
    : result (option (torch_dtype * ftensor)) :=
  match bias with
  | PNone => Ok None
  | PTensor b => Ok (Some (compute_dtype self, b))
  | PNum _ => Raise (AttributeError "to")
  end.

(** [pack]: the updated [self] and whether the call returned. *)
Definition pack (self : t) (W_q : tensor) (scales zeros bias : pyarg)
    : t * result unit :=
  match pack_W_q self W_q with
  | Raise e => (self, Raise e)
  | Ok W_q_packed =>
      let self := set_W_q self (Real W_q_packed) in
      match py_floordiv (in_features self) (group_size self) with
      | Raise e => (self, Raise e)
      | Ok num_groups =>
          match pack_meta self num_groups scales with
          | Raise e => (self, Raise e)
          | Ok s =>
              let self := set_scales self (Real s) in
              match pack_meta self num_groups zeros with
              | Raise e => (self, Raise e)
              | Ok z =>
                  let self := set_zeros self (Real z) in
                  match bias_parameter self bias with
                  | Raise e => (self, Raise e)
                  | Ok b => (set_device (set_bias self b), Ok tt)
                  end
              end
          end
      end
  end.

(** The loop [for _kernel in self.kernels] of [warmup]: the timings [t]
    appended so far, and the benchmark runs observed. *)
Fixpoint warmup_loop (batch : Z) (measure : triton_kernel → Q)
    (ks : list triton_kernel) (t : list Q) (log : list event)
    : list Q * list event :=
  match ks with
  | [] => (t, log)
  | _kernel :: ks =>
      if bool_decide (8 < batch)%Z && bool_decide (matmul_type _kernel = GEMV)
      then warmup_loop batch measure ks t log
      else warmup_loop batch measure ks
             (t ++ [measure _kernel]) (log ++ [EvBench _kernel])
  end.

(** [warmup(self, signature, args)]. [measure k] is what
    [eval_time(k.forward, args)] returns during this call. *)
Definition warmup (self : t) (sig : cache_key) (measure : triton_kernel → Q)
    (GEMLITE_TRITON_CACHE : gmap cache_key cache_entry)
    : gmap cache_key cache_entry * list event * result unit :=
  let '(t, log) := warmup_loop sig.1 measure (kernels self) [] [] in
  match argmin t with
  | Raise e => (GEMLITE_TRITON_CACHE, log, Raise e)
  | Ok indx =>
      match kernels self !! indx, t !! indx with
      | Some k, Some ti =>
          (<[sig := CacheEntry k ti]> GEMLITE_TRITON_CACHE, log, Ok tt)
      | _, _ =>
          (GEMLITE_TRITON_CACHE, log,
           Raise (IndexError "list index out of range"))
      end
  end.

(** [x.view(-1, x.shape[-1])] for an input of shape [x_shape]: the shape
    of the view. *)
Definition view_2d (x_shape : list nat) : result (nat * nat) :=
  match last x_shape with
  | None => Raise (IndexError "tuple index out of range")
  | Some d =>
      if decide (d = 0) then Raise (RuntimeError "cannot infer -1")
      else Ok (foldr Nat.mul 1 x_shape / d, d)
  end.

(** [(x.shape[0],) + self.signature] *)
Definition _signature (self : t) (x_shape : list nat) : cache_key :=
  (Z.of_nat (default 0 (head x_shape)), signature self).

(** [x.shape[:-1] + (self.out_features,)] *)
Definition out_shape (self : t) (x_shape : list nat) : list nat :=
  removelast x_shape ++ [Z.to_nat (out_features self)].

(** [if self.bias is not None: out += self.bias], then [return out]:
    reading [self.bias] fails on an operator that was never packed, and
    the in-place addition fails when the bias does not broadcast to the
    shape of [out]. *)
Definition add_bias (self : t) (out : list nat) : result (list nat) :=
  match bias self with
  | None => Raise (AttributeError "bias")
  | Some None => Ok out
  | Some (Some (_, b)) =>
      if broadcasts_to (Z.of_nat <$> fshape b) (Z.of_nat <$> out)
      then Ok out
      else Raise (RuntimeError "the bias does not broadcast to the output")
  end.

(** [forward_auto(self, x)] for an input of shape [x_shape]: the cache
    afterwards, what was benchmarked and invoked, and the shape of the
    output. *)
Definition forward_auto (self : t) (measure : triton_kernel → Q)
    (x_shape : list nat)
    (GEMLITE_TRITON_CACHE : gmap cache_key cache_entry)
    : gmap cache_key cache_entry * list event * result (list nat) :=
  let out_shape := out_shape self x_shape in
  match view_2d x_shape with
  | Raise e => (GEMLITE_TRITON_CACHE, [], Raise e)
  | Ok (rows, cols) =>
      let _signature := _signature self x_shape in
      let '(GEMLITE_TRITON_CACHE, log, r) :=
        match GEMLITE_TRITON_CACHE !! _signature with
        | None => warmup self _signature measure GEMLITE_TRITON_CACHE
        | Some _ => (GEMLITE_TRITON_CACHE, [], Ok tt)
        end in
      match r with
      | Raise e => (GEMLITE_TRITON_CACHE, log, Raise e)
      | Ok _ =>
          match GEMLITE_TRITON_CACHE !! _signature with
          | None => (GEMLITE_TRITON_CACHE, log, Raise (KeyError _signature.1))
          | Some entry =>
              (GEMLITE_TRITON_CACHE,
               log ++ [EvInvoke (forward entry) rows cols],
               add_bias self out_shape)
          end
      end
  end.

(** [GemLiteLinearTriton(...)] *)
Definition new (W_nbits : Z) (group_size : option Z)
    (in_features out_features : Z) (input_dtype output_dtype : DType)
    (acc_dtype : option DType) : result t :=
  (__init__ W_nbits group_size in_features out_features
     input_dtype output_dtype acc_dtype).2.

End GemLiteLinearTriton.



(** ** Vocabulary of the specification *)

(** The error taxonomy of the spec, as the constructor raises it. *)
Definition UnsupportedBitWidth : exn :=
  NotImplementedError "Only 2,4,8 W_nbits are supported.".

Definition InvalidShape : exn := NotImplementedError "Invalid input shapes".

Definition UnsupportedConfiguration : exn :=
  NotImplementedError "Unsupport configuration: ".

(** The operators a program can hold: built by the constructor, then
    packed any number of times (whether [pack] returned or raised). *)
Inductive triton_instance : GemLiteLinearTriton.t → Prop :=
| triton_new W_nbits group_size in_features out_features idt odt acc self :
    GemLiteLinearTriton.new W_nbits group_size in_features out_features
      idt odt acc = Ok self →
    triton_instance self
| triton_packed self W_q scales zeros bias :
    triton_instance self →
    triton_instance (GemLiteLinearTriton.pack self W_q scales zeros bias).1.

Inductive cuda_instance : gmap string value → Prop :=
| cuda_new W_nbits group_size in_features out_features idt odt acc self :
    GemLiteLinearCUDA.new W_nbits group_size in_features out_features
      idt odt acc = Ok self →
    cuda_instance self
| cuda_packed self W_q scales zeros bias :
    cuda_instance self →
    cuda_instance (GemLiteLinearCUDA.pack W_q scales zeros bias self).1.

(** One [forward] call of a process: the operator, the input's shape, and
    the latencies [do_bench] would report during that call. *)
Record call := Call {
  call_self : GemLiteLinearTriton.t;
  call_measure : triton_kernel → Q;
  call_x : list nat
}.

Definition do_call (c : call) (cache : gmap cache_key cache_entry)
    : gmap cache_key cache_entry * list event * result (list nat) :=
  GemLiteLinearTriton.forward_auto (call_self c) (call_measure c) (call_x c) cache.

(** The cache after a sequence of [forward] calls; a call that raises
    leaves the cache as it was when the exception escaped. *)
Definition run (cs : list call) (cache : gmap cache_key cache_entry)
    : gmap cache_key cache_entry :=
  foldl (λ cache c, (do_call c cache).1.1) cache cs.

(** The kernels [warmup] times for a batch component: all of them, minus
    the GEMV ones once the batch component exceeds 8. *)
Definition candidates (batch : Z) (ks : list triton_kernel) : list triton_kernel :=
  filter (λ k, ¬ ((8 < batch)%Z ∧ matmul_type k = GEMV)) ks.

(** The 32-bit word holding the [k] codes [f 0 .. f (k-1)], code [i] shifted
    left by [s i] bits, combined by bitwise OR. *)
Definition or_fields (s : nat → Z) (f : nat → Z) (k : nat) : Z :=
  foldl (λ acc i, Z.lor acc (shl32 (s i) (f i))) 0%Z (seq 0 k).

(** Element [p] of the row-major storage. *)
Definition flat (t : tensor) (p : nat) : Z := default 0%Z (data t !! p).

(** The row length after padding to a multiple of [k]. *)
Definition padded_cols (k c : nat) : nat := k * cdiv_nat c k.

(** Element [p] of the codes [W] once every row is zero-padded on its
    trailing edge to [pc] columns. *)
Definition pad_code (W : tensor) (pc p : nat) : Z :=
  if decide (p mod pc < ncols W) then item W (p / pc) (p mod pc) else 0%Z.

(** The codes [W] zero-padded to [pc] columns, as a tensor. *)
Definition padded (W : tensor) (pc : nat) : tensor :=
  Tensor (nrows W) pc (pad_code W pc <$> seq 0 (nrows W * pc)).

(** The shift of code [i] in Layout A: most significant field first. *)
Definition shift_A (n : Z) (i : nat) : Z := (32 - n * (Z.of_nat i + 1))%Z.

(** The shift of code [i] in Layout B: least significant field first. *)
Definition shift_B (n : Z) (i : nat) : Z := (n * Z.of_nat i)%Z.

(** Layout A: code [i] of packed word [p], read from the tensor [T] of
    32-lane tiles with a row stride of [k]. *)
Definition code_A (T : tensor) (k p i : nat) : Z :=
  flat T ((i + (p / 32) * k) * 32 + p mod 32).

(** Layout A: the word stored at position [p] for the codes [W]. *)
Definition word_A (n : Z) (k : nat) (W : tensor) (p : nat) : Z :=
  or_fields (shift_A n)
    (code_A (padded W (padded_cols k (ncols W))) k p) k.

(** A method that assigns no attribute outside [names]. *)
Definition assigns_only {A} (names : list string) (m : method A) : Prop :=
  ∀ self k, k ∉ names → (m self).1 !! k = self !! k.

(** What every [GemLiteLinearCUDA] instance satisfies. *)
Definition cuda_inv (self : gmap string value) : Prop :=
  self !! "W_q_packed" = None
  ∧ self !! "threads_per_group" = None
  ∧ ∃ n, self !! "W_nbits" = Some (VInt n) ∧ (n = 2 ∨ n = 4 ∨ n = 8)%Z.

(** What every [GemLiteLinearTriton] instance satisfies. *)
Definition triton_inv (self : GemLiteLinearTriton.t) : Prop :=
  GemLiteLinearTriton.W_nbits self ∈ [1; 2; 4; 8]%Z
  ∧ (GemLiteLinearTriton.in_features self mod 128 = 0)%Z
  ∧ (GemLiteLinearTriton.out_features self mod 128 = 0)%Z
  ∧ (0 ≤ GemLiteLinearTriton.in_features self)%Z
  ∧ (0 ≤ GemLiteLinearTriton.out_features self)%Z
  ∧ GemLiteLinearTriton.group_size self ≠ 0%Z
  ∧ GemLiteLinearTriton.orig_shape self
    = (GemLiteLinearTriton.out_features self, GemLiteLinearTriton.in_features self)
  ∧ (GemLiteLinearTriton.kernels self
       = [gemm_A16fWnO16f_int32packing; gemv_A16fWnO16f_int32packing]
     ∨ GemLiteLinearTriton.kernels self = [gemm_A16fWnO16f_int32packing]).

(** Layout B: code [e] of the word at row [r], column [c] of the packed
    tensor, read from the transposed codes [Wt]. *)
Definition code_B (Wt : tensor) (k r c e : nat) : Z := item Wt (r * k + e) c.

(** Layout B: the word stored at row [r], column [c]. *)
Definition word_B (n : Z) (k : nat) (Wt : tensor) (r c : nat) : Z :=
  or_fields (shift_B n) (code_B Wt k r c) k.

(** Modelled from the spec: the inverse of Layout B packing. The class
    [GemLiteLinearTriton] has no [unpack]; the words are decoded inside the
    Triton kernels, which are not part of the sources at hand. The spec
    describes Layout B as [k] consecutive codes along the transposed
    leading axis packed into one word, least-significant code first with
    the shift growing by [n] bits per code, and requires unpacking to
    reproduce the codes in their [(out_features, in_features)] shape; the
    mask is the operator's [unpack_mask = 2**W_nbits - 1]. *)
Definition unpack_B (n : Z) (k : nat) (P : tensor) : tensor :=
  tabulate (ncols P) (nrows P * k)
    (λ o i, Z.land (shr32 (shift_B n (i mod k)) (item P (i / k) o))
              (2 ^ n - 1)).

(** ** Running examples *)

(** [GemLiteLinearCUDA(8, 128, 128, 1)] with the default FP16 dtypes. *)
Definition example_cuda : gmap string value :=
  (GemLiteLinearCUDA.__init__ 8 (Some 128%Z) 128 1 FP16 FP16 None ∅).1.

(** One row of 128 eight-bit codes, some of them with the top bit set. *)
Definition example_codes : tensor :=
  Tensor 1 128 ((λ p, Z.of_nat ((p * 37 + 200) mod 256)) <$> seq 0 128).

Definition example_meta : pyarg := PTensor (FTensor [1; 1] [1%Q]).

(** [GemLiteLinearTriton(4, 128, 128, 128)] with the default FP16 dtypes,
    written out field by field. *)
Definition example_triton : GemLiteLinearTriton.t :=
  GemLiteLinearTriton.Self [1; 2; 4; 8]%Z 128 128 (128, 128)%Z 4 128 15 8
    (128, 128, 4, Some 128)%Z FP16 FP16 float16
    [gemm_A16fWnO16f_int32packing; gemv_A16fWnO16f_int32packing] tl_float16
    (Meta (16, 128)) (Meta (1, 128)) (Meta (1, 128)) None None.

(** A [128 x 128] tensor of four-bit codes. *)
Definition example_codes4 : tensor := Tensor 128 128 (replicate (128 * 128) 5%Z).

(** Latencies under which the GEMV kernel is the faster one. *)
Definition example_measure (k : triton_kernel) : Q :=
  match k with
  | gemm_A16fWnO16f_int32packing => (1 # 2)%Q
  | gemv_A16fWnO16f_int32packing => (1 # 3)%Q
  end.

(** [GemLiteLinearTriton(4, 48, 128, 128)]: a group size that does not
    divide [in_features]. *)
Definition example_triton48 : GemLiteLinearTriton.t :=
  GemLiteLinearTriton.Self [1; 2; 4; 8]%Z 128 128 (128, 128)%Z 4 48 15 8
    (128, 128, 4, Some 48)%Z FP16 FP16 float16
    [gemm_A16fWnO16f_int32packing; gemv_A16fWnO16f_int32packing] tl_float16
    (Meta (16, 128)) (Meta (3, 128)) (Meta (3, 128)) None None.

(** Scales of the registered shape [(3, 128)]. *)
Definition example_scales48 : pyarg :=
  PTensor (FTensor [128; 3] (replicate (3 * 128) 1%Q)).

(** The 32 words into which [example_codes] packs (four codes a word). *)
Definition example_packed : tensor :=
  Tensor 1 32
    [-932706136; -309514803; 313676530; 936867607; 1560058940; -2128494239;
     -1505302906; -882177109; -258985776; 364205557; 987396634; 1610587967;
     -2077965212; -1454773879; -831648082; -208456749; 414734584; 1037925661;
     1644339778; -2027436185; -1404244852; -781119055; -157927722; 465263611;
     1088454688; 1694868805; -1976907158; -1353715825; -730590028; -107398695;
     515792638; 1138983715]%Z.

(** ** The remaining entry points *)

(** [GEMLITE_TRITON_MAPPING], keyed by [(input_dtype.value, matmul_type)]. *)
Definition GEMLITE_TRITON_MAPPING : gmap (string * string) triton_kernel :=
  {[ ("FP16", "GEMV") := gemv_A16fWnO16f_int32packing;
     ("FP16", "GEMM") := gemm_A16fWnO16f_int32packing;
     ("BF16", "GEMM") := gemm_A16fWnO16f_int32packing ]}.

(** How a call of [forward_manual] ends: the mapping has no such key, some
    other exception escapes, or the output (its shape) is returned. *)
Inductive manual_outcome :=
| ManualKeyError (key : string * string)
| ManualRaise (e : exn)
| ManualReturn (out_shape : list nat).

(** [GemLiteLinearTriton.forward_manual(self, x, matmul_type)] for an input
    of shape [x_shape]: the kernel invocations observed and the outcome.
    The subscript of the mapping is evaluated before the arguments of the
    kernel. *)
Definition forward_manual (self : GemLiteLinearTriton.t) (x_shape : list nat)
    (matmul_type : string) : list event * manual_outcome :=
  let out_shape := GemLiteLinearTriton.out_shape self x_shape in
  let key := (DType_value (GemLiteLinearTriton.input_dtype self), matmul_type) in
  match GEMLITE_TRITON_MAPPING !! key with
  | None => ([], ManualKeyError key)
  | Some k =>
      match GemLiteLinearTriton.view_2d x_shape with
      | Raise e => ([], ManualRaise e)
      | Ok (rows, cols) =>
          ([EvInvoke k rows cols],
           match GemLiteLinearTriton.add_bias self out_shape with
           | Ok out => ManualReturn out
           | Raise e => ManualRaise e
           end)
      end
  end.

(** What [GemLiteLinearCUDA.forward] hands to the kernel: the kernel, the
    shape of the input view, and whether the scales are passed. *)
Record cuda_call := CudaCall {
  call_kernel : cuda_kernel;
  call_view : nat * nat;
  call_scales : bool
}.

(** Modelled from the spec: the element type of what a kernel of
    [gemlite_lib] returns. The library is not part of the sources at hand;
    the spec describes the int8-input path as a separate fixed-kernel
    backend, and the two tables file the kernels under
    [FP16_INPUT_FP16_OUTPUT] and [INT8_INPUT_INT32_OUTPUT]. *)
Definition kernel_output (k : cuda_kernel) : torch_dtype :=
  match k with
  | gemv_A16fW8iO16f | gemv_A16fW4iO16f | gemv_A16fW2iO16f => float16
  | gemv_A8iW8iO32i | gemv_A8iW4iO32i | gemv_A8iW2iO32i => int32
  end.

Definition is_floating (d : torch_dtype) : bool :=
  match d with
  | float16 | bfloat16 | float32 | float64 => true
  | _ => false
  end.

Module CUDAForward.

(** [self.forward_raw(x, W_q, zeros, scales)]: the two lambdas of
  [__init__] call [self.kernel_fct], with or without the scales. *)
Definition forward_raw (f : value) (x : nat * nat) : method cuda_call :=
match f with
| VLambda passes_scales =>
    k ← GemLiteLinearCUDA.getattr "kernel_fct";
    match k with
    | VKernel k => mret (CudaCall k x passes_scales)
    | _ => raise (TypeError "object is not callable")
    end
| _ => raise (TypeError "object is not callable")
end.

(** In-place [out += t] for a floating-point tensor [t] of shape [shape]:
  the sum must fit the element type of [out], and [t] must broadcast to
  the shape of [out]. *)
Definition iadd_tensor (out_dtype : torch_dtype) (out_shape : list Z)
  (shape : list nat) : result unit :=
if negb (is_floating out_dtype)
then Raise (RuntimeError "result type can't be cast to the desired output type")
else if broadcasts_to (Z.of_nat <$> shape) out_shape then Ok tt
else Raise (RuntimeError "the bias does not broadcast to the output").

(** [if self.bias is not None: out += self.bias] for the value [bias] of
  [self.bias]. *)
Definition iadd_bias (out_dtype : torch_dtype) (out_shape : list Z)
  (bias : value) : result unit :=
match bias with
| VNone => Ok tt
| VParameter _ t | VFTensor t => iadd_tensor out_dtype out_shape (fshape t)
| VScalarTensor _ _ => iadd_tensor out_dtype out_shape [1; 1]
| VTensor t =>
    if broadcasts_to [Z.of_nat (nrows t); Z.of_nat (ncols t)] out_shape
    then Ok tt
    else Raise (RuntimeError "the bias does not broadcast to the output")
| VBool _ | VInt _ => Ok tt
| VNum _ =>
    if is_floating out_dtype then Ok tt
    else Raise (RuntimeError "result type can't be cast to the desired output type")
| _ => Raise (TypeError "unsupported operand type(s) for +=")
end.

(** [GemLiteLinearCUDA.forward(self, x)] for an input of shape [x_shape]:
  the kernel call made and the shape of the output. *)
Definition forward (x_shape : list nat) : method (cuda_call * list Z) :=
o ← (v ← GemLiteLinearCUDA.getattr "out_features"; lift (as_int v));
let out_shape := (Z.of_nat <$> removelast x_shape) ++ [o] in
f ← GemLiteLinearCUDA.getattr "forward_raw";
x ← lift (GemLiteLinearTriton.view_2d x_shape);
W_q ← GemLiteLinearCUDA.getattr "W_q";
zeros ← GemLiteLinearCUDA.getattr "zeros";
scales ← GemLiteLinearCUDA.getattr "scales";
out ← forward_raw f x;
bias ← GemLiteLinearCUDA.getattr "bias";
lift (iadd_bias (kernel_output (call_kernel out)) out_shape bias);;
mret (out, out_shape).

End CUDAForward.

(** [GemLiteLinearTriton(4, 128, 128, 128, DType.BF16, DType.BF16)], written
    out field by field. *)
Definition example_triton_bf16 : GemLiteLinearTriton.t :=
  GemLiteLinearTriton.Self [1; 2; 4; 8]%Z 128 128 (128, 128)%Z 4 128 15 8
    (128, 128, 4, Some 128)%Z BF16 BF16 bfloat16
    [gemm_A16fWnO16f_int32packing] tl_float32
    (Meta (16, 128)) (Meta (1, 128)) (Meta (1, 128)) None None.

(** * Constructor checks *)

Lemma supported_bits_cases (n : Z) :
  n ∈ [1; 2; 4; 8]%Z ↔ n = 1%Z ∨ n = 2%Z ∨ n = 4%Z ∨ n = 8%Z.
Proof. rewrite !elem_of_cons, elem_of_nil. tauto. Qed.


Ltac ctor_unfold :=
  unfold GemLiteLinearTriton.new, GemLiteLinearTriton.__init__,
    GemLiteLinearTriton.register_buffer, GemLiteLinearTriton.fail,
    GemLiteLinearTriton.pure_, cdiv, py_floordiv in *;
  cbn [mbind mret GemLiteLinearTriton.ctor_bind GemLiteLinearTriton.ctor_ret
       negb orb andb fst snd] in *.

Ltac ctor_cases :=
  repeat (case_decide;
          cbn [mbind mret GemLiteLinearTriton.ctor_bind
               GemLiteLinearTriton.ctor_ret fst snd app] in * ).

(** C4. For every bit-width outside {1, 2, 4, 8} (3, say) the constructor of
    the default operator, [GemLiteLinear = GemLiteLinearTriton], fails with
    the bit-width error before any buffer is registered (the allocation log
    is empty); for every bit-width inside the set the constructor does not
    raise this error, whatever else it does. *)
Theorem triton_init_bit_width W_nbits group_size in_features out_features idt odt acc :
  (W_nbits ∉ [1; 2; 4; 8]%Z →
     GemLiteLinearTriton.__init__ W_nbits group_size in_features out_features
       idt odt acc = ([], Raise UnsupportedBitWidth))
  ∧ (W_nbits ∈ [1; 2; 4; 8]%Z →
     (GemLiteLinearTriton.__init__ W_nbits group_size in_features out_features
        idt odt acc).2 ≠ Raise UnsupportedBitWidth).
Proof.
  split; intros Hn.
  - unfold GemLiteLinearTriton.__init__.
    rewrite bool_decide_eq_false_2 by done. reflexivity.
  - ctor_unfold.
    rewrite bool_decide_eq_true_2 by done. cbn [negb].
    destruct (negb _ || negb _); [discriminate|].
    ctor_cases; discriminate.
Qed.

Lemma triton_init_bit_width_witness :
  GemLiteLinearTriton.__init__ 3 (Some 128%Z) 256 256 FP16 FP16 None
    = ([], Raise UnsupportedBitWidth)
  ∧ (GemLiteLinearTriton.__init__ 4 (Some 128%Z) 256 256 FP16 FP16 None).2
    ≠ Raise UnsupportedBitWidth.
Proof.
  split.
  - apply (proj1 (triton_init_bit_width 3 (Some 128%Z) 256 256 FP16 FP16 None)).
    rewrite supported_bits_cases. lia.
  - apply (proj2 (triton_init_bit_width 4 (Some 128%Z) 256 256 FP16 FP16 None)).
    rewrite supported_bits_cases. lia.
Defined.

(** What a successful construction establishes. *)
Lemma triton_new_inv W_nbits group_size in_features out_features idt odt acc self :
  GemLiteLinearTriton.new W_nbits group_size in_features out_features idt odt acc
    = Ok self →
  W_nbits ∈ [1; 2; 4; 8]%Z
  ∧ (in_features mod 128 = 0)%Z ∧ (out_features mod 128 = 0)%Z
  ∧ (0 ≤ in_features)%Z ∧ (0 ≤ out_features)%Z
  ∧ default in_features group_size ≠ 0%Z
  ∧ GemLiteLinearTriton.W_nbits self = W_nbits
  ∧ GemLiteLinearTriton.in_features self = in_features
  ∧ GemLiteLinearTriton.out_features self = out_features
  ∧ GemLiteLinearTriton.orig_shape self = (out_features, in_features)
  ∧ GemLiteLinearTriton.group_size self = default in_features group_size
  ∧ GemLiteLinearTriton.signature self
    = (in_features, out_features, W_nbits, group_size)
  ∧ (GemLiteLinearTriton.kernels self
       = [gemm_A16fWnO16f_int32packing; gemv_A16fWnO16f_int32packing]
     ∨ GemLiteLinearTriton.kernels self = [gemm_A16fWnO16f_int32packing]).
Proof.
  ctor_unfold.
  destruct (bool_decide (W_nbits ∈ _)) eqn:Hn; cbn [negb]; [|discriminate].
  apply bool_decide_eq_true in Hn.
  destruct (bool_decide (in_features mod 128 = 0)%Z) eqn:Hi; cbn; [|discriminate].
  destruct (bool_decide (out_features mod 128 = 0)%Z) eqn:Ho; cbn; [|discriminate].
  apply bool_decide_eq_true in Hi, Ho.
  assert (Hnn : (1 ≤ W_nbits)%Z) by (apply supported_bits_cases in Hn; lia).
  ctor_cases; intros [= <-]; cbn;
    (repeat split; try done; try tauto;
     try (destruct_and?; apply Z.div_le_lower_bound in H0 || idtac));
    try (Z.div_mod_to_equations; nia).
Qed.

(** * The CUDA operator as an attribute store *)

Section frame.
Context (names : list string).

Lemma assigns_ret {A} (a : A) : assigns_only names (mret a).
Proof. by intros self k _. Qed.

Lemma assigns_raise {A} e : assigns_only names (@raise A e).
Proof. by intros self k _. Qed.

Lemma assigns_lift {A} (r : result A) : assigns_only names (lift r).
Proof. by intros self k _. Qed.

Lemma assigns_getattr name : assigns_only names (GemLiteLinearCUDA.getattr name).
Proof.
  intros self k _. unfold GemLiteLinearCUDA.getattr.
  by repeat case_match.
Qed.

Lemma assigns_assert b msg : assigns_only names (GemLiteLinearCUDA.assert_ b msg).
Proof. intros self k _. by destruct b. Qed.

Lemma assigns_setattr name v : name ∈ names → assigns_only names (setattr name v).
Proof.
  intros Hin self k Hk. cbn. apply lookup_insert_ne. by intros ->.
Qed.

Lemma assigns_bind {A B} (m : method A) (k : A → method B) :
  assigns_only names m → (∀ a, assigns_only names (k a)) →
  assigns_only names (m ≫= k).
Proof.
  intros Hm Hk self x Hx. unfold mbind, method_bind.
  specialize (Hm self x Hx). destruct (m self) as [self' [a|e]]; cbn in *.
  - by rewrite Hk.
  - done.
Qed.
End frame.

Ltac assigns_step :=
  first
    [ apply assigns_bind; [|intros ?]
    | apply assigns_ret | apply assigns_raise | apply assigns_lift
    | apply assigns_getattr | apply assigns_assert
    | apply assigns_setattr;
      rewrite ?elem_of_cons; auto 20
    | match goal with
      | |- assigns_only _ (if ?b then _ else _) => destruct b
      | |- assigns_only _ (match ?v with _ => _ end) => destruct v
      end ].

Lemma pack_metadata_assigns scales zeros bias :
  assigns_only ["scales"; "zeros"; "bias"; "device"]
    (GemLiteLinearCUDA.pack_metadata scales zeros bias).
Proof.
  unfold GemLiteLinearCUDA.pack_metadata, GemLiteLinearCUDA.bias_parameter.
  repeat assigns_step.
Qed.

Lemma assigns_only_mono {A} (names names' : list string) (m : method A) :
  names ⊆ names' → assigns_only names m → assigns_only names' m.
Proof. intros Hsub Hm self k Hk. apply Hm. intros Hin. apply Hk, Hsub, Hin. Qed.

Lemma pack_assigns W_q scales zeros bias :
  assigns_only ["W_q"; "scales"; "zeros"; "bias"; "device"]
    (GemLiteLinearCUDA.pack W_q scales zeros bias).
Proof.
  unfold GemLiteLinearCUDA.pack, GemLiteLinearCUDA.pack_metadata,
    GemLiteLinearCUDA.bias_parameter.
  repeat assigns_step.
Qed.

(** ** Running a method step by step *)

Lemma run_bind_assoc {A B C} (m : method A) (f : A → method B) (g : B → method C) self :
  ((m ≫= f) ≫= g) self = (m ≫= (λ a, f a ≫= g)) self.
Proof.
  unfold mbind, method_bind. by destruct (m self) as [s [a|e]].
Qed.

Lemma run_bind_setattr {B} name v (k : unit → method B) self :
  (setattr name v ≫= k) self = k tt (<[name := v]> self).
Proof. reflexivity. Qed.

Lemma run_bind_getattr {B} name v (k : value → method B) self :
  self !! name = Some v →
  (GemLiteLinearCUDA.getattr name ≫= k) self = k v self.
Proof.
  intros H. unfold mbind, method_bind, GemLiteLinearCUDA.getattr. by rewrite H.
Qed.

Lemma run_bind_getattr_class {B} name v (k : value → method B) self :
  self !! name = None → GemLiteLinearCUDA.class_attrs !! name = Some v →
  (GemLiteLinearCUDA.getattr name ≫= k) self = k v self.
Proof.
  intros H1 H2. unfold mbind, method_bind, GemLiteLinearCUDA.getattr.
  by rewrite H1, H2.
Qed.

Lemma run_bind_getattr_missing {B} name (k : value → method B) self :
  self !! name = None → GemLiteLinearCUDA.class_attrs !! name = None →
  (GemLiteLinearCUDA.getattr name ≫= k) self = (self, Raise (AttributeError name)).
Proof.
  intros H1 H2. unfold mbind, method_bind, GemLiteLinearCUDA.getattr.
  by rewrite H1, H2.
Qed.

Lemma run_bind_lift {A B} (r : result A) (k : A → method B) self :
  (lift r ≫= k) self
  = match r with Ok a => k a self | Raise e => (self, Raise e) end.
Proof. by destruct r. Qed.

Lemma run_bind_ret {A B} (a : A) (k : A → method B) self :
  (mret a ≫= k) self = k a self.
Proof. reflexivity. Qed.

Lemma run_bind_raise {A B} e (k : A → method B) self :
  (raise e ≫= k) self = (self, Raise e).
Proof. reflexivity. Qed.

Lemma run_setattr name v self : setattr name v self = (<[name := v]> self, Ok tt).
Proof. reflexivity. Qed.

Lemma run_raise {A} e self : @raise A e self = (self, Raise e).
Proof. reflexivity. Qed.

Ltac run_step :=
  first
    [ rewrite run_bind_assoc
    | rewrite run_bind_setattr
    | erewrite run_bind_getattr by (simplify_map_eq; reflexivity)
    | rewrite run_bind_lift
    | rewrite run_bind_ret
    | rewrite run_bind_raise
    | rewrite run_setattr
    | rewrite run_raise ];
  cbn beta iota.

(** ** What a successful construction establishes *)

Lemma fp16_table_inv n k :
  GEMLITE_GEMV_FP16_INPUT_FP16_OUTPUT !! n = Some k →
  n = 2%Z ∨ n = 4%Z ∨ n = 8%Z.
Proof.
  unfold GEMLITE_GEMV_FP16_INPUT_FP16_OUTPUT. intros H.
  destruct (decide (n = 8%Z)); [lia|].
  destruct (decide (n = 4%Z)); [lia|].
  destruct (decide (n = 2%Z)); [lia|].
  by simplify_map_eq.
Qed.

Lemma int8_table_inv n k :
  GEMLITE_GEMV_INT8_INPUT_INT32_OUTPUT !! n = Some k →
  n = 2%Z ∨ n = 4%Z ∨ n = 8%Z.
Proof.
  unfold GEMLITE_GEMV_INT8_INPUT_INT32_OUTPUT. intros H.
  destruct (decide (n = 8%Z)); [lia|].
  destruct (decide (n = 4%Z)); [lia|].
  destruct (decide (n = 2%Z)); [lia|].
  by simplify_map_eq.
Qed.

Lemma cuda_new_inv W_nbits group_size in_features out_features idt odt acc self :
  GemLiteLinearCUDA.new W_nbits group_size in_features out_features idt odt acc
    = Ok self →
  cuda_inv self
  ∧ self !! "W_nbits" = Some (VInt W_nbits)
  ∧ ∃ g, group_size = Some g ∧ (g | in_features * out_features)%Z.
Proof.
  unfold GemLiteLinearCUDA.new, GemLiteLinearCUDA.__init__.
  do 10 run_step.
  destruct (GEMLITE_GEMV_FP16_INPUT_FP16_OUTPUT !! W_nbits) as [k1|] eqn:Hk1;
  destruct (GEMLITE_GEMV_INT8_INPUT_INT32_OUTPUT !! W_nbits) as [k2|] eqn:Hk2;
  destruct group_size as [g|];
  repeat first
    [ run_step
    | progress cbn [as_int opt_int]
    | progress unfold subscript, py_mod
    | rewrite Hk1 | rewrite Hk2
    | case_decide ].
  all: try discriminate.
  all: intros [= <-]; unfold cuda_inv.
  all: assert (W_nbits = 2 ∨ W_nbits = 4 ∨ W_nbits = 8)%Z
         by (first [eapply fp16_table_inv; eassumption
                   |eapply int8_table_inv; eassumption]).
  all: simplify_map_eq.
  all: repeat split; eauto.
  all: try (eexists; split; [reflexivity|]).
  all: try (by apply Z.mod_divide).
  all: try reflexivity.
  Unshelve. all: exact VNone.
Qed.

Lemma cuda_pack_inv W_q scales zeros bias self :
  cuda_inv self → cuda_inv (GemLiteLinearCUDA.pack W_q scales zeros bias self).1.
Proof.
  intros (H1 & H2 & n & H3 & Hn).
  pose proof (pack_assigns W_q scales zeros bias self) as Hf.
  unfold cuda_inv. rewrite !Hf.
  - eauto 10.
  - rewrite !elem_of_cons, elem_of_nil. intros H; destruct_or?; done.
  - rewrite !elem_of_cons, elem_of_nil. intros H; destruct_or?; done.
  - rewrite !elem_of_cons, elem_of_nil. intros H; destruct_or?; done.
Qed.

Lemma cuda_instance_inv self : cuda_instance self → cuda_inv self.
Proof.
  induction 1 as [? ? ? ? ? ? ? self Hnew|].
  - by apply cuda_new_inv in Hnew as [? _].
  - by apply cuda_pack_inv.
Qed.

(** C9. [GemLiteLinearCUDA.unpack] never reads its [W_q_packed] parameter:
    two calls that differ only in that argument behave alike. And on every
    operator on which only [__init__] and [pack] have run, whether [pack]
    returned or raised, [unpack] raises [AttributeError] for [W_q_packed]
    and leaves the operator as it was: [pack] stores the words under
    [W_q], and nothing assigns [W_q_packed]. *)
Theorem cuda_unpack_missing_attribute :
  (∀ self W_q_packed W_q_packed' dtype,
      GemLiteLinearCUDA.unpack W_q_packed dtype self
      = GemLiteLinearCUDA.unpack W_q_packed' dtype self)
  ∧ (∀ self, cuda_instance self →
      ∀ W_q_packed dtype,
        GemLiteLinearCUDA.unpack W_q_packed dtype self
        = (self, Raise (AttributeError "W_q_packed"))).
Proof.
  split; [reflexivity|].
  intros self Hinst W dtype.
  apply cuda_instance_inv in Hinst as (H1 & H2 & n & H3 & Hn).
  unfold GemLiteLinearCUDA.unpack.
  rewrite run_bind_assoc.
  erewrite run_bind_getattr_class by (eassumption || reflexivity).
  cbn beta. rewrite run_bind_lift. cbn [as_int].
  rewrite run_bind_assoc.
  erewrite run_bind_getattr by eassumption.
  cbn beta. rewrite run_bind_lift. cbn [as_int].
  rewrite run_bind_lift.
  unfold py_floordiv. case_decide; [lia|].
  rewrite run_bind_assoc.
  by rewrite run_bind_getattr_missing.
Qed.

(** The CUDA constructor rejects a group size that does not divide the
    number of weights. *)
Lemma cuda_new_group_size W_nbits group_size in_features out_features idt odt acc :
  (∀ g, group_size = Some g → ¬ (g | in_features * out_features)%Z) →
  ∃ e, GemLiteLinearCUDA.new W_nbits group_size in_features out_features idt odt acc
       = Raise e.
Proof.
  intros Hg.
  destruct (GemLiteLinearCUDA.new _ _ _ _ _ _ _) as [self|e] eqn:Hnew; [|eauto].
  apply cuda_new_inv in Hnew as (_ & _ & g & -> & Hdiv).
  by destruct (Hg g).
Qed.

(** * The autotune cache *)

(** ** [np.argmin] *)

Lemma argmin_from_spec (l : list Q) : ∀ best_i best i,
  let r := argmin_from best_i best i l in
  (r = best_i ∧ ∀ y, y ∈ l → (best <= y)%Q)
  ∨ (∃ j x, r = i + j ∧ l !! j = Some x ∧ (x < best)%Q
       ∧ (∀ y, y ∈ l → (x <= y)%Q)
       ∧ (∀ j' y, j' < j → l !! j' = Some y → (x < y)%Q)).
Proof.
  induction l as [|a l IH]; intros best_i best i; cbn.
  - left. split; [done|]. intros y Hy. by apply elem_of_nil in Hy.
  - destruct (Qle_bool best a) eqn:Hle.
    + apply Qle_bool_iff in Hle.
      destruct (IH best_i best (S i)) as [[-> Hall]|(j & x & -> & Hj & Hlt & Hall & Hbefore)].
      * left. split; [done|]. intros y [->|Hy]%elem_of_cons; auto.
      * right. exists (S j), x. repeat split.
        -- lia.
        -- done.
        -- done.
        -- intros y [->|Hy]%elem_of_cons; [|auto].
           apply Qlt_le_weak. eapply Qlt_le_trans; eauto.
        -- intros [|j'] y Hj' Hy; cbn in Hy.
           ++ injection Hy as <-. eapply Qlt_le_trans; eauto.
           ++ eapply Hbefore; [|done]. lia.
    + assert (Hlt : (a < best)%Q).
      { apply Qnot_le_lt. intros Hc. apply Qle_bool_iff in Hc. congruence. }
      destruct (IH i a (S i)) as [[-> Hall]|(j & x & -> & Hj & Hlt' & Hall & Hbefore)].
      * right. exists 0, a. repeat split.
        -- lia.
        -- done.
        -- intros y [->|Hy]%elem_of_cons; [apply Qle_refl|auto].
        -- intros j' y Hj'. lia.
      * right. exists (S j), x. repeat split.
        -- lia.
        -- done.
        -- eapply Qlt_trans; eauto.
        -- intros y [->|Hy]%elem_of_cons; [|auto]. by apply Qlt_le_weak.
        -- intros [|j'] y Hj' Hy; cbn in Hy.
           ++ by injection Hy as <-.
           ++ eapply Hbefore; [|done]. lia.
Qed.

(** [np.argmin] returns the first position holding the least element. *)
Lemma argmin_spec (t : list Q) :
  t ≠ [] →
  ∃ indx x, argmin t = Ok indx ∧ t !! indx = Some x
    ∧ (∀ y, y ∈ t → (x <= y)%Q)
    ∧ (∀ j y, j < indx → t !! j = Some y → (x < y)%Q).
Proof.
  destruct t as [|a l]; [done|intros _]. cbn.
  destruct (argmin_from_spec l 0 a 1) as [[Hr Hall]|(j & x & Hr & Hj & Hlt & Hall & Hbefore)];
    cbn in Hr; rewrite Hr.
  - exists 0, a. split_and!; [done|done| |].
    + intros y [->|Hy]%elem_of_cons; [apply Qle_refl|auto].
    + intros j y Hj. lia.
  - exists (S j), x. split_and!; [done|done| |].
    + intros y [->|Hy]%elem_of_cons; [by apply Qlt_le_weak|auto].
    + intros [|j'] y Hj' Hy; cbn in Hy.
      * by injection Hy as <-.
      * eapply Hbefore; [|done]. lia.
Qed.

(** ** [warmup] *)

Lemma warmup_loop_spec batch measure ks : ∀ t log,
  GemLiteLinearTriton.warmup_loop batch measure ks t log
  = (t ++ (measure <$> candidates batch ks),
     log ++ (EvBench <$> candidates batch ks)).
Proof.
  unfold candidates.
  induction ks as [|k ks IH]; intros t log; cbn [GemLiteLinearTriton.warmup_loop].
  - by rewrite filter_nil, !fmap_nil, !app_nil_r.
  - destruct (bool_decide (8 < batch)%Z && bool_decide (matmul_type k = GEMV)) eqn:Hskip.
    + apply andb_true_iff in Hskip as [H1%bool_decide_eq_true H2%bool_decide_eq_true].
      rewrite IH, filter_cons_False; [done|]. intros Hn. by apply Hn.
    + rewrite IH, filter_cons_True.
      * by rewrite !fmap_cons, <- !app_assoc.
      * intros [H1 H2].
        rewrite (bool_decide_eq_true_2 _ H1), (bool_decide_eq_true_2 _ H2) in Hskip.
        discriminate.
Qed.

(** The fields [pack] leaves alone. *)
Lemma triton_pack_fields self W_q scales zeros bias :
  let self' := (GemLiteLinearTriton.pack self W_q scales zeros bias).1 in
  GemLiteLinearTriton.W_nbits self' = GemLiteLinearTriton.W_nbits self
  ∧ GemLiteLinearTriton.in_features self' = GemLiteLinearTriton.in_features self
  ∧ GemLiteLinearTriton.out_features self' = GemLiteLinearTriton.out_features self
  ∧ GemLiteLinearTriton.group_size self' = GemLiteLinearTriton.group_size self
  ∧ GemLiteLinearTriton.orig_shape self' = GemLiteLinearTriton.orig_shape self
  ∧ GemLiteLinearTriton.signature self' = GemLiteLinearTriton.signature self
  ∧ GemLiteLinearTriton.kernels self' = GemLiteLinearTriton.kernels self.
Proof.
  unfold GemLiteLinearTriton.pack.
  repeat case_match; cbn; done.
Qed.

Lemma triton_instance_inv self : triton_instance self → triton_inv self.
Proof.
  induction 1 as [n g i o idt odt acc self Hnew|self W s z b _ IH].
  - apply triton_new_inv in Hnew. unfold triton_inv.
    destruct Hnew as (?&?&?&?&?&?&->&->&->&->&->&?&?). done.
  - unfold triton_inv in *.
    destruct (triton_pack_fields self W s z b) as (->&->&->&->&->&_&->). done.
Qed.

Lemma candidates_instance batch self :
  triton_inv self →
  candidates batch (GemLiteLinearTriton.kernels self) ≠ []
  ∧ candidates batch (GemLiteLinearTriton.kernels self)
      `prefix_of` GemLiteLinearTriton.kernels self.
Proof.
  intros (_&_&_&_&_&_&_&[-> | ->]); unfold candidates.
  - rewrite filter_cons_True by (cbn; intros [_ ?]; discriminate).
    split; [done|].
    destruct (decide (8 < batch)%Z).
    + rewrite filter_cons_False by (intros Hn; by apply Hn).
      rewrite filter_nil. by exists [gemv_A16fWnO16f_int32packing].
    + rewrite filter_cons_True by (intros [? _]; done). done.
  - rewrite filter_cons_True by (cbn; intros [_ ?]; discriminate).
    by rewrite filter_nil.
Qed.

(** [warmup] on an instance: the entry it records. *)
Lemma warmup_argmin self key measure cache :
  triton_instance self →
  let cands := candidates key.1 (GemLiteLinearTriton.kernels self) in
  ∃ w indx,
    GemLiteLinearTriton.warmup self key measure cache
    = (<[key := CacheEntry w (measure w)]> cache, EvBench <$> cands, Ok tt)
    ∧ cands !! indx = Some w
    ∧ (∀ c, c ∈ cands → (measure w <= measure c)%Q)
    ∧ (∀ j c, j < indx → cands !! j = Some c → (measure w < measure c)%Q).
Proof.
  intros Hinst cands.
  apply triton_instance_inv in Hinst.
  destruct (candidates_instance key.1 self Hinst) as [Hne Hpre].
  fold cands in Hne, Hpre.
  unfold GemLiteLinearTriton.warmup.
  rewrite warmup_loop_spec. fold cands. cbn [app].
  destruct (argmin_spec (measure <$> cands)) as (indx & x & -> & Hx & Hmin & Hfirst).
  { by destruct cands. }
  rewrite Hx.
  apply list_lookup_fmap_Some in Hx as (w & -> & Hw).
  rewrite (prefix_lookup_Some _ _ _ _ Hw Hpre).
  exists w, indx. split_and!; [done|done| |].
  - intros c Hc. apply Hmin. by apply list_elem_of_fmap_2.
  - intros j c Hj Hc. apply (Hfirst j); [done|].
    by rewrite list_lookup_fmap, Hc.
Qed.

(** C8. On an operator built by the constructor, [warmup] times exactly the
    kernels of [self.kernels], in their order, minus the GEMV ones when the
    batch component of the signature exceeds 8; it records under the
    signature the candidate [w] with the least measured latency together
    with that latency; every candidate listed before [w] measured strictly
    slower, so on a tie the first listed wins. *)
Theorem warmup_selects_fastest self key measure cache :
  triton_instance self →
  let cands := candidates key.1 (GemLiteLinearTriton.kernels self) in
  (∀ k, k ∈ cands ↔
        k ∈ GemLiteLinearTriton.kernels self
        ∧ ¬ ((8 < key.1)%Z ∧ matmul_type k = GEMV))
  ∧ ∃ w indx,
      GemLiteLinearTriton.warmup self key measure cache
      = (<[key := CacheEntry w (measure w)]> cache, EvBench <$> cands, Ok tt)
      ∧ cands !! indx = Some w
      ∧ (∀ c, c ∈ cands → (measure w <= measure c)%Q)
      ∧ (∀ j c, j < indx → cands !! j = Some c → (measure w < measure c)%Q).
Proof.
  intros Hinst cands. split.
  - intros k. unfold cands, candidates. rewrite list_elem_of_filter. tauto.
  - by apply warmup_argmin.
Qed.

(** ** [forward_auto] *)

Lemma forward_auto_hit self measure x_shape cache e rows cols :
  GemLiteLinearTriton.view_2d x_shape = Ok (rows, cols) →
  cache !! GemLiteLinearTriton._signature self x_shape = Some e →
  GemLiteLinearTriton.forward_auto self measure x_shape cache
  = (cache, [EvInvoke (forward e) rows cols], GemLiteLinearTriton.add_bias self (GemLiteLinearTriton.out_shape self x_shape)).
Proof.
  intros Hv He. unfold GemLiteLinearTriton.forward_auto.
  rewrite Hv, He. cbn. by rewrite He.
Qed.

Lemma forward_auto_miss self measure x_shape cache rows cols :
  triton_instance self →
  GemLiteLinearTriton.view_2d x_shape = Ok (rows, cols) →
  let key := GemLiteLinearTriton._signature self x_shape in
  cache !! key = None →
  ∃ w,
    GemLiteLinearTriton.warmup self key measure cache
    = (<[key := CacheEntry w (measure w)]> cache,
       EvBench <$> candidates key.1 (GemLiteLinearTriton.kernels self), Ok tt)
    ∧ GemLiteLinearTriton.forward_auto self measure x_shape cache
      = (<[key := CacheEntry w (measure w)]> cache,
         (EvBench <$> candidates key.1 (GemLiteLinearTriton.kernels self))
           ++ [EvInvoke w rows cols],
         GemLiteLinearTriton.add_bias self (GemLiteLinearTriton.out_shape self x_shape)).
Proof.
  intros Hinst Hv key Hmiss.
  destruct (warmup_argmin self key measure cache Hinst)
    as (w & indx & Hw & _).
  exists w. split; [done|].
  unfold GemLiteLinearTriton.forward_auto.
  rewrite Hv. fold key. rewrite Hmiss, Hw. cbn.
  by rewrite lookup_insert_eq.
Qed.

Lemma warmup_preserves self key measure cache k e :
  cache !! key = None → cache !! k = Some e →
  (GemLiteLinearTriton.warmup self key measure cache).1.1 !! k = Some e.
Proof.
  intros Hmiss Hk. unfold GemLiteLinearTriton.warmup.
  destruct (GemLiteLinearTriton.warmup_loop _ _ _ _ _) as [t log].
  destruct (argmin t) as [indx|]; [|done].
  destruct (_ !! indx), (t !! indx); cbn; try done.
  rewrite lookup_insert_ne; [done|]. intros ->. congruence.
Qed.

(** No call overwrites or removes an entry of the cache. *)
Lemma forward_auto_preserves self measure x_shape cache k e :
  cache !! k = Some e →
  (GemLiteLinearTriton.forward_auto self measure x_shape cache).1.1 !! k = Some e.
Proof.
  intros Hk. unfold GemLiteLinearTriton.forward_auto.
  destruct (GemLiteLinearTriton.view_2d x_shape) as [[rows cols]|]; [|done].
  destruct (cache !! GemLiteLinearTriton._signature self x_shape) as [e'|] eqn:He.
  - cbn. rewrite He. exact Hk.
  - pose proof (warmup_preserves self _ measure cache k e He Hk) as Hw.
    destruct (GemLiteLinearTriton.warmup _ _ _ _) as [[cache' log] r].
    cbn in Hw. destruct r; [|exact Hw].
    destruct (cache' !! GemLiteLinearTriton._signature self x_shape); exact Hw.
Qed.

Lemma run_preserves cs : ∀ cache k e,
  cache !! k = Some e → run cs cache !! k = Some e.
Proof.
  induction cs as [|c cs IH]; intros cache k e Hk; [done|].
  cbn. apply IH. by apply forward_auto_preserves.
Qed.

(** C2. Take any cache, a first [forward] call [c1], any sequence [mid] of
    further calls (by any operators, with any inputs), and a later call
    [c2] with the signature of [c1]. After [c1] the signature has an entry
    [e] (the one [c1]'s benchmarking pass recorded when the signature was
    new, the one already there otherwise); [mid] leaves it in place; and
    [c2] runs no benchmark, invokes exactly the kernel of [e], and leaves
    the cache unchanged. *)
Theorem signature_stability cache0 c1 mid c2 key rows cols :
  triton_instance (call_self c1) →
  is_ok (GemLiteLinearTriton.view_2d (call_x c1)) = true →
  GemLiteLinearTriton.view_2d (call_x c2) = Ok (rows, cols) →
  GemLiteLinearTriton._signature (call_self c1) (call_x c1) = key →
  GemLiteLinearTriton._signature (call_self c2) (call_x c2) = key →
  let cache1 := (do_call c1 cache0).1.1 in
  let cache2 := run mid cache1 in
  ∃ e,
    cache1 !! key = Some e
    ∧ (cache0 !! key = None →
       (GemLiteLinearTriton.warmup (call_self c1) key (call_measure c1) cache0).1.1
         !! key = Some e)
    ∧ (∀ e0, cache0 !! key = Some e0 → e = e0)
    ∧ cache2 !! key = Some e
    ∧ do_call c2 cache2
      = (cache2, [EvInvoke (forward e) rows cols],
         GemLiteLinearTriton.add_bias (call_self c2)
           (GemLiteLinearTriton.out_shape (call_self c2) (call_x c2)))
    ∧ (do_call c2 cache2).1.1 !! key = Some e.
Proof.
  intros Hinst Hv1 Hv2 Hk1 Hk2 cache1 cache2.
  destruct (GemLiteLinearTriton.view_2d (call_x c1)) as [[r1 c1']|] eqn:Hview; [|done].
  assert (∃ e, cache1 !! key = Some e
               ∧ (cache0 !! key = None →
                  (GemLiteLinearTriton.warmup (call_self c1) key
                     (call_measure c1) cache0).1.1 !! key = Some e)
               ∧ (∀ e0, cache0 !! key = Some e0 → e = e0))
    as (e & He & Hwarm & Hold).
  { unfold cache1, do_call.
    destruct (cache0 !! key) as [e0|] eqn:H0.
    - exists e0. rewrite <- Hk1 in H0.
      rewrite (forward_auto_hit _ _ _ _ _ _ _ Hview H0). cbn.
      rewrite Hk1 in H0. split_and!; [done|done|]. by intros ? [= <-].
    - rewrite <- Hk1 in H0.
      destruct (forward_auto_miss _ (call_measure c1) _ _ _ _ Hinst Hview H0)
        as (w & Hw & Hf).
      rewrite Hf. rewrite Hk1 in *. cbn.
      exists (CacheEntry w (call_measure c1 w)).
      rewrite lookup_insert_eq. split_and!; [done| |done].
      intros _. rewrite Hw. cbn. by rewrite lookup_insert_eq. }
  exists e.
  assert (H2 : cache2 !! key = Some e) by (by apply run_preserves).
  unfold do_call.
  rewrite <- Hk2 in H2.
  rewrite (forward_auto_hit _ _ _ _ _ _ _ Hv2 H2). cbn.
  rewrite Hk2 in H2. done.
Qed.

(** ** The batch component of the key *)

Lemma foldr_mul_app (l : list nat) (d : nat) :
  foldr Nat.mul 1 (l ++ [d]) = foldr Nat.mul 1 l * d.
Proof. induction l as [|a l IH]; cbn; [lia|]. rewrite IH. lia. Qed.

Lemma view_2d_leading b lead d :
  d ≠ 0 →
  GemLiteLinearTriton.view_2d (b :: lead ++ [d])
  = Ok (b * foldr Nat.mul 1 lead, d).
Proof.
  intros Hd. unfold GemLiteLinearTriton.view_2d.
  change (b :: lead ++ [d]) with ((b :: lead) ++ [d]).
  rewrite last_snoc. case_decide; [done|].
  rewrite foldr_mul_app. cbn [foldr].
  by rewrite Nat.div_mul.
Qed.

(** C10. For an input of shape [(b, lead..., d)] the cache key is
    [(b,) + self.signature]: its batch component is [x.shape[0]], while the
    kernel is invoked on [b * prod(lead)] rows; the call reads and fills
    that key only. So an input with another first dimension uses another
    key even when the number of rows is the same, and inputs with the same
    first dimension share the key whatever their number of rows. *)
Theorem cache_key_batch_component self measure cache b lead d :
  triton_instance self → d ≠ 0 →
  let x_shape := b :: lead ++ [d] in
  let key := (Z.of_nat b, GemLiteLinearTriton.signature self) in
  GemLiteLinearTriton._signature self x_shape = key
  ∧ (∃ e log,
       GemLiteLinearTriton.forward_auto self measure x_shape cache
       = ((GemLiteLinearTriton.forward_auto self measure x_shape cache).1.1,
          log ++ [EvInvoke (forward e) (b * foldr Nat.mul 1 lead) d],
          GemLiteLinearTriton.add_bias self (GemLiteLinearTriton.out_shape self x_shape))
       ∧ (GemLiteLinearTriton.forward_auto self measure x_shape cache).1.1 !! key
         = Some e
       ∧ ∀ k, k ≠ key →
           (GemLiteLinearTriton.forward_auto self measure x_shape cache).1.1 !! k
           = cache !! k)
  ∧ (∀ b' lead' d',
       b' ≠ b →
       GemLiteLinearTriton._signature self (b' :: lead' ++ [d']) ≠ key)
  ∧ (∀ lead' d',
       GemLiteLinearTriton._signature self (b :: lead' ++ [d']) = key).
Proof.
  intros Hinst Hd x_shape key.
  assert (Hkey : GemLiteLinearTriton._signature self x_shape = key) by done.
  split_and!; [done| | |done].
  - pose proof (view_2d_leading b lead d Hd) as Hv. fold x_shape in Hv.
    destruct (cache !! key) as [e|] eqn:He.
    + rewrite <- Hkey in He.
      rewrite (forward_auto_hit _ measure _ _ _ _ _ Hv He). cbn.
      exists e, []. rewrite Hkey in He. done.
    + rewrite <- Hkey in He.
      destruct (forward_auto_miss _ measure _ _ _ _ Hinst Hv He) as (w & _ & ->).
      cbn. rewrite Hkey.
      eexists (CacheEntry w (measure w)), _. split_and!; [done| |].
      * by rewrite lookup_insert_eq.
      * intros k Hk. by rewrite lookup_insert_ne.
  - intros b' lead' d' Hb. unfold GemLiteLinearTriton._signature, key. cbn.
    intros [= ?]. lia.
Qed.

(** * Bit fields of a 32-bit word *)

Lemma wrap32_testbit z i :
  (0 ≤ i < 32)%Z → Z.testbit (wrap32 z) i = Z.testbit z i.
Proof.
  intros Hi. unfold wrap32.
  rewrite <- (Z.mod_pow2_bits_low (_ - _) 32 i) by lia.
  rewrite <- (Z.mod_pow2_bits_low z 32 i) by lia.
  f_equal.
  rewrite Zminus_mod_idemp_l. f_equal. lia.
Qed.

Lemma wrap32_range z : (- 2 ^ 31 ≤ wrap32 z < 2 ^ 31)%Z.
Proof. unfold wrap32. pose proof (Z.mod_pos_bound (z + 2 ^ 31) (2 ^ 32)). lia. Qed.

Lemma shl32_testbit s x i :
  (0 ≤ i < 32)%Z → Z.testbit (shl32 s x) i = Z.testbit x (i - s).
Proof.
  intros Hi. unfold shl32. rewrite wrap32_testbit by done.
  apply Z.shiftl_spec. lia.
Qed.

Lemma testbit_small x n i :
  (0 ≤ x < 2 ^ n)%Z → (n ≤ i)%Z → Z.testbit x i = false.
Proof.
  intros Hx Hi.
  destruct (decide (0 ≤ n)%Z) as [Hn|Hn].
  - rewrite <- (Z.mod_small x (2 ^ n)) by done.
    apply Z.mod_pow2_bits_high. lia.
  - rewrite Z.pow_neg_r in Hx by lia. lia.
Qed.

Lemma testbit_foldl_lor {A} (h : A → Z) (l : list A) : ∀ a0 b,
  Z.testbit (foldl (λ acc i, Z.lor acc (h i)) a0 l) b
  = Z.testbit a0 b || existsb (λ i, Z.testbit (h i) b) l.
Proof.
  induction l as [|i l IH]; intros a0 b; cbn.
  - by rewrite orb_false_r.
  - rewrite IH, Z.lor_spec. by rewrite orb_assoc.
Qed.

Lemma existsb_single {A} (g : A → bool) (l : list A) (e : A) :
  NoDup l → e ∈ l → (∀ i, i ∈ l → i ≠ e → g i = false) →
  existsb g l = g e.
Proof.
  induction l as [|a l IH]; intros Hnd He Hg; [by apply elem_of_nil in He|].
  apply NoDup_cons in Hnd as [Ha Hnd]. cbn.
  apply elem_of_cons in He as [->|He].
  - assert (existsb g l = false) as ->; [|by rewrite orb_false_r].
    apply not_true_is_false. intros (i & Hi%list_elem_of_In & Hgi)%existsb_exists.
    rewrite Hg in Hgi; [done|by right|]. intros ->. done.
  - rewrite (Hg a); [|by left|intros ->; done]. cbn.
    apply IH; [done|done|]. intros i Hi. apply Hg. by right.
Qed.

(** Code [e] is read back from its field when the fields do not overlap. *)
Lemma or_fields_extract (n : Z) (s : nat → Z) (f : nat → Z) (k e : nat) :
  (0 < n)%Z → e < k →
  (∀ i, i < k → (0 ≤ f i < 2 ^ n)%Z) →
  (∀ i, i < k → (0 ≤ s i ∧ s i + n ≤ 32)%Z) →
  (∀ i, i < k → i ≠ e → (s i + n ≤ s e ∨ s e + n ≤ s i)%Z) →
  Z.land (shr32 (s e) (or_fields s f k)) (2 ^ n - 1) = f e.
Proof.
  intros Hn He Hf Hs Hdisj.
  replace (2 ^ n - 1)%Z with (Z.ones n) by (rewrite Z.ones_equiv; lia).
  apply Z.bits_inj'. intros j Hj.
  rewrite Z.land_spec, Z.testbit_ones_nonneg by lia.
  unfold shr32. rewrite Z.shiftr_spec by lia.
  destruct (Z.ltb_spec j n) as [Hjn|Hjn].
  - rewrite andb_true_r. unfold or_fields.
    rewrite testbit_foldl_lor, Z.bits_0. cbn [orb].
    pose proof (Hs e He) as Hse.
    rewrite (existsb_single _ _ e).
    + rewrite shl32_testbit by lia. f_equal. lia.
    + apply NoDup_seq.
    + apply elem_of_seq. lia.
    + intros i Hi%elem_of_seq Hie.
      pose proof (Hs i ltac:(lia)) as Hsi.
      rewrite shl32_testbit by lia.
      destruct (Hdisj i ltac:(lia) Hie).
      * apply (testbit_small _ n); [apply Hf; lia|lia].
      * apply Z.testbit_neg_r. lia.
  - rewrite andb_false_r. symmetry.
    apply (testbit_small _ n); [by apply Hf|lia].
Qed.

Lemma or_fields_S s f k :
  or_fields s f (S k) = Z.lor (or_fields s f k) (shl32 (s k) (f k)).
Proof. unfold or_fields. by rewrite seq_S, foldl_app. Qed.

Lemma or_fields_ext s f g k :
  (∀ i, i < k → f i = g i) → or_fields s f k = or_fields s g k.
Proof.
  induction k as [|k IH]; intros H; [done|].
  rewrite !or_fields_S, IH by (intros; apply H; lia).
  by rewrite H by lia.
Qed.

(** * Tensors *)

Lemma tabulate_length r c f : length (data (tabulate r c f)) = r * c.
Proof. cbn. by rewrite length_fmap, length_seq. Qed.

Lemma tabulate_lookup r c f p :
  p < r * c → data (tabulate r c f) !! p = Some (f (p / c) (p mod c)).
Proof.
  intros Hp. cbn. rewrite list_lookup_fmap.
  by rewrite (lookup_seq_lt _ _ _ Hp).
Qed.

Lemma flat_tabulate r c f p :
  p < r * c → flat (tabulate r c f) p = f (p / c) (p mod c).
Proof. intros Hp. unfold flat. by rewrite tabulate_lookup. Qed.

Lemma item_flat t i j : item t i j = flat t (i * ncols t + j).
Proof. reflexivity. Qed.

Lemma divmod_index c i j : j < c → (i * c + j) / c = i ∧ (i * c + j) mod c = j.
Proof.
  intros Hj. split.
  - rewrite Nat.div_add_l by lia. rewrite Nat.div_small by done. lia.
  - rewrite Nat.add_comm, Nat.Div0.mod_add. by apply Nat.mod_small.
Qed.

Lemma item_tabulate r c f i j :
  i < r → j < c → item (tabulate r c f) i j = f i j.
Proof.
  intros Hi Hj. rewrite item_flat. cbn [ncols tabulate].
  rewrite flat_tabulate by nia.
  by destruct (divmod_index c i j Hj) as [-> ->].
Qed.

Lemma flat_lookup t p : p < length (data t) → data t !! p = Some (flat t p).
Proof.
  intros Hp. unfold flat.
  destruct (lookup_lt_is_Some_2 _ _ Hp) as [x ->]. done.
Qed.

Lemma data_eq_flat (l1 l2 : tensor) :
  length (data l1) = length (data l2) →
  (∀ p, p < length (data l1) → flat l1 p = flat l2 p) →
  data l1 = data l2.
Proof.
  intros Hlen Hflat. apply list_eq. intros p.
  destruct (decide (p < length (data l1))) as [Hp|Hp].
  - rewrite !flat_lookup by lia. f_equal. by apply Hflat.
  - rewrite !lookup_ge_None_2 by lia. done.
Qed.

Lemma flat_lshift t s p :
  p < length (data t) → flat (lshift t s) p = shl32 s (flat t p).
Proof.
  intros Hp. unfold flat. cbn. rewrite list_lookup_fmap.
  destruct (lookup_lt_is_Some_2 _ _ Hp) as [x ->]. done.
Qed.

Lemma lshift_length t s : length (data (lshift t s)) = length (data t).
Proof. cbn. by rewrite length_fmap. Qed.

Lemma flat_zip_with r c (f : Z → Z → Z) (t1 t2 : tensor) p :
  p < length (data t1) → p < length (data t2) →
  flat (Tensor r c (zip_with f (data t1) (data t2))) p
  = f (flat t1 p) (flat t2 p).
Proof.
  intros H1 H2. unfold flat. cbn [data]. rewrite lookup_zip_with.
  destruct (lookup_lt_is_Some_2 _ _ H1) as [x ->].
  destruct (lookup_lt_is_Some_2 _ _ H2) as [y ->]. done.
Qed.

(** * Layout A: [GemLiteLinearCUDA.pack] *)

Section layout_A.
Context (n : Z) (k : nat).
Context (Hn : (0 < n)%Z) (Hnk : (n * Z.of_nat k = 32)%Z).
(** The padded codes viewed as tiles of 32 lanes: [k * Q] rows. *)
Context (T : tensor) (Q : nat).
Context (HTr : nrows T = k * Q) (HTc : ncols T = 32)
        (HTl : length (data T) = k * Q * 32).

Local Lemma k_pos : 0 < k.
Proof. destruct k; lia. Qed.

Lemma rows_step_nrows i : i < k → nrows (rows_step T i k) = Q.
Proof.
  intros Hi. cbn. unfold cdiv_nat. rewrite HTr.
  destruct Q as [|Q'].
  - rewrite Nat.mul_0_r. cbn. apply Nat.div_small. lia.
  - symmetry. apply (Nat.div_unique _ _ _ (k - 1 - i)); lia.
Qed.

Lemma rows_step_length i : i < k → length (data (rows_step T i k)) = Q * 32.
Proof.
  intros Hi. unfold rows_step. rewrite tabulate_length.
  change (cdiv_nat (nrows T - i) k) with (nrows (rows_step T i k)).
  by rewrite rows_step_nrows, HTc.
Qed.

Lemma rows_step_flat i p :
  i < k → p < Q * 32 → flat (rows_step T i k) p = code_A T k p i.
Proof.
  intros Hi Hp. unfold rows_step.
  rewrite flat_tabulate.
  - rewrite item_flat, HTc. done.
  - change (cdiv_nat (nrows T - i) k) with (nrows (rows_step T i k)).
    by rewrite rows_step_nrows, HTc.
Qed.

Lemma pack_loop_spec m : ∀ a acc,
  a + m = k →
  nrows acc = Q → ncols acc = 32 → length (data acc) = Q * 32 →
  (∀ p, p < Q * 32 → flat acc p = or_fields (shift_A n) (code_A T k p) a) →
  ∃ acc',
    GemLiteLinearCUDA.pack_loop n T k (seq a m) (32 - n * Z.of_nat a)%Z acc
    = Ok acc'
    ∧ nrows acc' = Q ∧ ncols acc' = 32 ∧ length (data acc') = Q * 32
    ∧ ∀ p, p < Q * 32 → flat acc' p = or_fields (shift_A n) (code_A T k p) k.
Proof.
  induction m as [|m IH]; intros a acc Ham Hr Hc Hl Hacc.
  - rewrite Nat.add_0_r in Ham. subst a. cbn. by exists acc.
  - cbn [seq GemLiteLinearCUDA.pack_loop].
    assert (Hak : a < k) by lia.
    unfold ior_. cbn [nrows ncols lshift].
    rewrite decide_True
      by (cbn [ncols rows_step tabulate]; rewrite rows_step_nrows by done; lia).
    cbn [mbind result_bind].
    replace (32 - n * Z.of_nat a - n)%Z with (32 - n * Z.of_nat (S a))%Z by lia.
    apply IH; cbn [nrows ncols data]; try done; try lia.
    + rewrite length_zip_with, lshift_length, rows_step_length by done. lia.
    + intros p Hp.
      rewrite flat_zip_with
        by (rewrite ?lshift_length, ?rows_step_length by done; lia).
      rewrite or_fields_S. f_equal.
      * apply Hacc, Hp.
      * rewrite flat_lshift by (rewrite rows_step_length by done; lia).
        rewrite rows_step_flat by done.
        unfold shift_A. f_equal. lia.
Qed.

(** The whole loop of [pack], from the first shifted slice on. *)
Lemma pack_loop_total :
  ∃ acc,
    GemLiteLinearCUDA.pack_loop n T k (seq 1 (k - 1)) (32 - n)%Z
      (lshift (rows_step T 0 k) (32 - n)%Z) = Ok acc
    ∧ nrows acc = Q ∧ ncols acc = 32 ∧ length (data acc) = Q * 32
    ∧ ∀ p, p < Q * 32 → flat acc p = or_fields (shift_A n) (code_A T k p) k.
Proof.
  pose proof k_pos as Hk.
  pose proof (pack_loop_spec (k - 1) 1 (lshift (rows_step T 0 k) (32 - n)%Z))
    as H.
  replace (32 - n * Z.of_nat 1)%Z with (32 - n)%Z in H by lia.
  apply H; clear H; cbn [nrows ncols data lshift]; try lia.
  - by apply rows_step_nrows.
  - done.
  - rewrite length_fmap. by apply rows_step_length.
  - intros p Hp.
    rewrite flat_lshift by (rewrite rows_step_length by done; lia).
    rewrite rows_step_flat by done.
    unfold or_fields. cbn [seq foldl]. rewrite Z.lor_0_l.
    unfold shift_A. f_equal. lia.
Qed.
End layout_A.

Lemma cdiv_nat_le k c : 0 < k → c ≤ padded_cols k c.
Proof.
  intros Hk. unfold padded_cols, cdiv_nat.
  pose proof (Nat.div_mod (c + k - 1) k ltac:(lia)).
  pose proof (Nat.mod_upper_bound (c + k - 1) k ltac:(lia)). lia.
Qed.

Lemma pad_amount_spec k c :
  0 < k →
  GemLiteLinearCUDA.pad_amount c (Z.of_nat k)
  = Ok (Z.of_nat (padded_cols k c - c)).
Proof.
  intros Hk. unfold GemLiteLinearCUDA.pad_amount.
  rewrite decide_False by lia. f_equal.
  pose proof (cdiv_nat_le k c Hk) as Hle.
  rewrite Nat2Z.inj_sub by done.
  unfold padded_cols, cdiv_nat in *.
  rewrite Nat2Z.inj_mul, Nat2Z.inj_div, Nat2Z.inj_sub, Nat2Z.inj_add by lia.
  f_equal. f_equal.
  cbn [Z.of_nat Pos.of_succ_nat].
  generalize (Z.of_nat c) (Z.of_nat k) (Nat2Z.is_nonneg c)
    (proj1 (Nat2Z.inj_lt 0 k) Hk).
  clear. intros c k Hc Hk. cbn in Hk.
  Z.div_mod_to_equations. nia.
Qed.

Lemma padded_length W pc : length (data (padded W pc)) = nrows W * pc.
Proof. cbn. by rewrite length_fmap, length_seq. Qed.

Lemma flat_padded W pc p :
  p < nrows W * pc → flat (padded W pc) p = pad_code W pc p.
Proof.
  intros Hp. unfold flat. cbn. rewrite list_lookup_fmap.
  by rewrite (lookup_seq_lt _ _ _ Hp).
Qed.

(** Padding a tensor whose rows already have the padded length changes
    nothing. *)
Lemma padded_id W : wf_tensor W → padded W (ncols W) = W.
Proof.
  intros Hwf. destruct W as [r c d]. unfold wf_tensor in Hwf. cbn in *.
  unfold padded. cbn. f_equal.
  apply list_eq. intros p. rewrite list_lookup_fmap.
  destruct (decide (p < r * c)) as [Hp|Hp].
  - rewrite (lookup_seq_lt _ _ _ Hp). cbn.
    assert (0 < c) by (destruct c; lia).
    unfold pad_code. cbn.
    rewrite decide_True by (apply Nat.mod_upper_bound; lia).
    unfold item. cbn.
    replace (p / c * c + p mod c) with p
      by (pose proof (Nat.div_mod p c ltac:(lia)); lia).
    destruct (lookup_lt_is_Some_2 d p ltac:(lia)) as [x ->]. done.
  - rewrite lookup_ge_None_2 by (rewrite length_seq; lia).
    rewrite lookup_ge_None_2 by lia. done.
Qed.

(** The first lines of [pack]: the padded codes. *)
Lemma pad_step_spec k W :
  0 < k → wf_tensor W →
  let pad := Z.of_nat (padded_cols k (ncols W) - ncols W) in
  (if decide (0 < pad)%Z then pad_last W (Z.to_nat pad) else W)
  = padded W (padded_cols k (ncols W)).
Proof.
  intros Hk Hwf pad.
  pose proof (cdiv_nat_le k (ncols W) Hk) as Hle.
  case_decide as Hpad.
  - unfold pad, pad_last, tabulate, padded. rewrite Nat2Z.id.
    replace (ncols W + (padded_cols k (ncols W) - ncols W))
      with (padded_cols k (ncols W)) by lia.
    done.
  - replace (padded_cols k (ncols W)) with (ncols W) by lia.
    by rewrite padded_id.
Qed.

Section layout_A_pack.
Context (n : Z) (k : nat).
Context (Hn : (0 < n)%Z) (Hnk : (n * Z.of_nat k = 32)%Z).
Context (W : tensor) (Hwf : wf_tensor W).
Local Abbreviation pc := (padded_cols k (ncols W)).
Context (Htile : (nrows W * pc) mod (32 * k) = 0).

Lemma cuda_pack_W_q_spec :
  ∃ P,
    GemLiteLinearCUDA.pack_W_q 32 n W = Ok P
    ∧ nrows P = nrows W
    ∧ ncols P = cdiv_nat (ncols W) k
    ∧ length (data P) = nrows W * cdiv_nat (ncols W) k
    ∧ ∀ p, p < nrows W * cdiv_nat (ncols W) k → flat P p = word_A n k W p.
Proof.
  assert (Hk : 0 < k) by (destruct k; lia).
  assert (Hstep : (32 / n)%Z = Z.of_nat k).
  { rewrite <- Hnk, Z.mul_comm. apply Z.div_mul. lia. }
  unfold GemLiteLinearCUDA.pack_W_q, py_floordiv.
  rewrite decide_False by lia. cbn [mbind result_bind].
  rewrite Hstep, pad_amount_spec by done. cbn [mbind result_bind].
  rewrite pad_step_spec by done.
  set (Q := nrows W * pc / (32 * k)).
  assert (HQ : nrows W * pc = k * Q * 32).
  { unfold Q. apply Nat.Div0.div_exact in Htile. lia. }
  unfold reshape_tiles, numel. rewrite padded_length.
  change (Z.to_nat 32) with 32.
  rewrite decide_False by lia.
  rewrite decide_True by (rewrite HQ; apply Nat.Div0.mod_mul).
  cbn [mbind result_bind].
  unfold GemLiteLinearCUDA.slice_step. rewrite decide_True by lia.
  cbn [mbind result_bind]. rewrite Nat2Z.id.
  set (T := Tensor (nrows W * pc / 32) 32 (data (padded W pc))).
  assert (HTr : nrows T = k * Q).
  { cbn [T nrows]. rewrite HQ. by rewrite Nat.div_mul. }
  assert (HTl : length (data T) = k * Q * 32).
  { cbn [T data]. by rewrite padded_length. }
  destruct (pack_loop_total n k Hn Hnk T Q HTr eq_refl HTl)
    as (acc & -> & Hr & Hc & Hl & Hflat).
  cbn [mbind result_bind fst snd ncols nrows padded].
  assert (Hcols : pc / k = cdiv_nat (ncols W) k).
  { unfold pc, padded_cols. rewrite Nat.mul_comm. by apply Nat.div_mul, Nat.neq_0_lt_0. }
  assert (Hnum : nrows W * cdiv_nat (ncols W) k = Q * 32).
  { unfold pc, padded_cols in HQ. nia. }
  unfold reshape, numel. rewrite Hcols, Hl.
  rewrite decide_True by lia.
  eexists. split; [reflexivity|]. cbn [nrows ncols data].
  split_and!; [done|done|lia|].
  intros p Hp. rewrite Hnum in Hp.
  change (flat (Tensor _ _ (data acc)) p) with (flat acc p).
  rewrite Hflat by done. reflexivity.
Qed.
End layout_A_pack.

Lemma flat_rshift t s p :
  p < length (data t) → flat (rshift t s) p = shr32 s (flat t p).
Proof.
  intros Hp. unfold flat. cbn. rewrite list_lookup_fmap.
  destruct (lookup_lt_is_Some_2 _ _ Hp) as [x ->]. done.
Qed.

Lemma flat_and_mask t m p :
  p < length (data t) → flat (and_mask t m) p = Z.land (flat t p) m.
Proof.
  intros Hp. unfold flat. cbn. rewrite list_lookup_fmap.
  destruct (lookup_lt_is_Some_2 _ _ Hp) as [x ->]. done.
Qed.

Lemma cdiv_nat_slice k Q i : i < k → cdiv_nat (k * Q - i) k = Q.
Proof.
  intros Hi. unfold cdiv_nat.
  destruct Q as [|Q'].
  - rewrite Nat.mul_0_r. cbn. apply Nat.div_small. lia.
  - symmetry. apply (Nat.div_unique _ _ _ (k - 1 - i)); lia.
Qed.

Lemma stride_index k a r :
  a < k → (a ≤ r ∧ (r - a) mod k = 0 ↔ r mod k = a).
Proof.
  intros Ha. split.
  - intros [Hle Hmod].
    apply Nat.Div0.div_exact in Hmod.
    replace r with (a + (r - a) / k * k) by lia.
    rewrite Nat.Div0.mod_add. by apply Nat.mod_small.
  - intros Hr. pose proof (Nat.div_mod r k ltac:(lia)) as Hdm.
    split; [lia|].
    replace (r - a) with (r / k * k) by lia.
    apply Nat.Div0.mod_mul.
Qed.

Lemma stride_quot k a r : a < k → r mod k = a → (r - a) / k = r / k.
Proof.
  intros Ha Hr. pose proof (Nat.div_mod r k ltac:(lia)) as Hdm.
  replace (r - a) with (r / k * k) by lia.
  apply Nat.div_mul. lia.
Qed.

Lemma pad_code_range n W pc p :
  (0 < n)%Z →
  (∀ x, x ∈ data W → (0 ≤ x < 2 ^ n)%Z) →
  (0 ≤ pad_code W pc p < 2 ^ n)%Z.
Proof.
  intros Hn Hcodes. unfold pad_code, item.
  case_decide; [|lia].
  destruct (data W !! _) as [x|] eqn:Hx; cbn; [|lia].
  apply list_elem_of_lookup_2 in Hx. by apply Hcodes.
Qed.

Lemma shift_A_fields n k :
  (0 < n)%Z → (n * Z.of_nat k = 32)%Z →
  (∀ i, i < k → (0 ≤ shift_A n i ∧ shift_A n i + n ≤ 32)%Z)
  ∧ (∀ e i, e < k → i < k → i ≠ e →
       (shift_A n i + n ≤ shift_A n e ∨ shift_A n e + n ≤ shift_A n i)%Z).
Proof.
  intros Hn Hnk. unfold shift_A. split.
  - intros i Hi. nia.
  - intros e i He Hi Hie.
    destruct (decide (i < e)); [right|left]; nia.
Qed.

Section layout_A_fields.
Context (n : Z) (k : nat).
Context (Hn : (0 < n)%Z) (Hnk : (n * Z.of_nat k = 32)%Z).
Context (W : tensor).
Context (Hcodes : ∀ x, x ∈ data W → (0 ≤ x < 2 ^ n)%Z).
Local Abbreviation pc := (padded_cols k (ncols W)).

(** Reading field [e] of a packed word gives back code [e]. *)
Lemma word_A_field p e :
  e < k → (p / 32 + 1) * k * 32 ≤ nrows W * pc →
  Z.land (shr32 (shift_A n e) (word_A n k W p)) (2 ^ n - 1)
  = pad_code W pc ((e + (p / 32) * k) * 32 + p mod 32).
Proof.
  intros He Hp. unfold word_A.
  destruct (shift_A_fields n k Hn Hnk) as [Hs Hd].
  rewrite (or_fields_extract n); try done.
  - unfold code_A. apply flat_padded.
    pose proof (Nat.mod_upper_bound p 32 ltac:(lia)). nia.
  - intros i Hi. unfold code_A.
    destruct (decide ((i + p / 32 * k) * 32 + p mod 32 < nrows W * pc)).
    + rewrite flat_padded by done. by apply pad_code_range.
    + unfold flat. rewrite lookup_ge_None_2 by (rewrite padded_length; lia).
      cbn. pose proof (Z.pow_pos_nonneg 2 n). lia.
  - intros i Hi Hie. by apply Hd.
Qed.
End layout_A_fields.

(** The element types that hold every code below 256 as it is: all but
    [int8], which holds the codes below 128, and [bool], which holds 0
    and 1. *)
Lemma cast_to_small dtype x :
  (0 ≤ x < 256)%Z →
  (dtype = int8 → (x < 128)%Z) → (dtype = torch_bool → (x < 2)%Z) →
  GemLiteLinearCUDA.cast_to dtype x = x.
Proof.
  intros Hx H8 Hb.
  destruct dtype; cbn [GemLiteLinearCUDA.cast_to]; try done.
  1-4: unfold to_float; rewrite decide_True; [done|];
       rewrite Z.abs_eq by lia; lia.
  - unfold to_uint8. by apply Z.mod_small.
  - specialize (H8 eq_refl). unfold to_signed.
    change (2 ^ (8 - 1))%Z with 128%Z. change (2 ^ 8)%Z with 256%Z.
    rewrite Z.mod_small by lia. lia.
  - unfold to_signed.
    change (2 ^ (16 - 1))%Z with 32768%Z. change (2 ^ 16)%Z with 65536%Z.
    rewrite Z.mod_small by lia. lia.
  - specialize (Hb eq_refl). unfold to_bool. case_decide; lia.
Qed.

Lemma cast_to_codes n dtype x :
  (n ≤ 8)%Z → (0 ≤ x < 2 ^ n)%Z →
  (dtype = int8 → (n < 8)%Z) → dtype ≠ torch_bool →
  GemLiteLinearCUDA.cast_to dtype x = x.
Proof.
  intros Hn8 Hx H8 Hb.
  assert (0 ≤ n)%Z.
  { destruct (decide (0 ≤ n)%Z); [done|].
    rewrite Z.pow_neg_r in Hx by lia. lia. }
  assert (2 ^ n ≤ 2 ^ 8)%Z by (apply Z.pow_le_mono_r; lia).
  apply cast_to_small; [lia| |done].
  intros Hd. specialize (H8 Hd).
  assert (2 ^ n ≤ 2 ^ 7)%Z by (apply Z.pow_le_mono_r; lia). lia.
Qed.

Section layout_A_unpack.
Context (n : Z) (k : nat).
Context (Hn : (0 < n)%Z) (Hnk : (n * Z.of_nat k = 32)%Z).
Context (W : tensor).
Context (Hcodes : ∀ x, x ∈ data W → (0 ≤ x < 2 ^ n)%Z).
Local Abbreviation pc := (padded_cols k (ncols W)).
(** The packed words viewed as [Q] tiles of 32 lanes. *)
Context (Pv : tensor) (Q : nat) (dtype : torch_dtype).
Context (HQ : nrows W * pc = k * Q * 32).
Context (HPr : nrows Pv = Q) (HPc : ncols Pv = 32)
        (HPl : length (data Pv) = Q * 32)
        (HPw : ∀ p, p < Q * 32 → flat Pv p = word_A n k W p).

Lemma unpack_loop_spec m : ∀ a W_r,
  a + m = k →
  nrows W_r = k * Q → ncols W_r = 32 → length (data W_r) = k * Q * 32 →
  (∀ r l, r < k * Q → l < 32 → r mod k < a →
          item W_r r l
          = GemLiteLinearCUDA.cast_to dtype (pad_code W pc (r * 32 + l))) →
  ∃ W_r',
    GemLiteLinearCUDA.unpack_loop n (2 ^ n - 1) dtype Pv k (seq a m)
      (32 - n * Z.of_nat a)%Z W_r = Ok W_r'
    ∧ nrows W_r' = k * Q ∧ ncols W_r' = 32
    ∧ length (data W_r') = k * Q * 32
    ∧ ∀ r l, r < k * Q → l < 32 →
        item W_r' r l
        = GemLiteLinearCUDA.cast_to dtype (pad_code W pc (r * 32 + l)).
Proof.
  induction m as [|m IH]; intros a W_r Ham Hr Hc Hl Hinv.
  - cbn. exists W_r. split_and!; try done.
    intros r l Hrr Hll. apply Hinv; try done.
    replace a with k by lia. apply Nat.mod_upper_bound. lia.
  - cbn [seq GemLiteLinearCUDA.unpack_loop].
    assert (Hak : a < k) by lia.
    unfold GemLiteLinearCUDA.set_rows_step.
    rewrite decide_True.
    2:{ cbn [nrows ncols and_mask rshift]. rewrite Hr, cdiv_nat_slice by done. lia. }
    cbn [mbind result_bind].
    replace (32 - n * Z.of_nat a - n)%Z with (32 - n * Z.of_nat (S a))%Z by lia.
    apply IH; cbn [nrows ncols tabulate]; try done; try lia.
    + rewrite Hr, Hc. apply tabulate_length.
    + intros r l Hrr Hll Hmod. rewrite Hr, Hc.
      rewrite item_tabulate by done.
      case_decide as Hsel.
      * apply stride_index in Hsel; [|done].
        rewrite stride_quot by done.
        assert (Hq : r / k < Q) by (apply Nat.Div0.div_lt_upper_bound; lia).
        rewrite item_flat. cbn [ncols and_mask rshift]. rewrite HPc.
        assert (Hp : r / k * 32 + l < Q * 32) by nia.
        rewrite flat_and_mask by (cbn; rewrite length_fmap; lia).
        rewrite flat_rshift by lia.
        rewrite HPw by done.
        replace (32 - n * Z.of_nat (S a))%Z with (shift_A n a)
          by (unfold shift_A; lia).
        destruct (divmod_index 32 (r / k) l Hll) as [Hd1 Hd2].
        rewrite (word_A_field n k Hn Hnk W Hcodes) by (rewrite ?Hd1; done || nia).
        rewrite Hd1, Hd2.
        replace (a + r / k * k) with r
          by (pose proof (Nat.div_mod r k ltac:(lia)); lia).
        done.
      * apply Hinv; try done.
        assert (r mod k ≠ a) by (intros Heq; by apply Hsel, stride_index).
        lia.
Qed.
End layout_A_unpack.

(** What [unpack] computes from the words that [pack] stores: the padded
    code tensor, every code stored with the element type [dtype]. *)
Lemma cuda_unpack_W_q_cast n k W dtype :
  (0 < n)%Z → (n * Z.of_nat k = 32)%Z →
  wf_tensor W →
  (∀ x, x ∈ data W → (0 ≤ x < 2 ^ n)%Z) →
  (nrows W * padded_cols k (ncols W)) mod (32 * k) = 0 →
  ∃ P,
    GemLiteLinearCUDA.pack_W_q 32 n W = Ok P
    ∧ GemLiteLinearCUDA.unpack_W_q 32 n (32 / n) P dtype
      = Ok (Tensor (nrows W) (padded_cols k (ncols W))
              (GemLiteLinearCUDA.cast_to dtype
                 <$> data (padded W (padded_cols k (ncols W))))).
Proof.
  intros Hn Hnk Hwf Hcodes Htile.
  destruct (cuda_pack_W_q_spec n k Hn Hnk W Hwf Htile)
    as (P & HP & Hr & Hc & Hl & Hflat).
  exists P. split; [done|].
  set (pc := padded_cols k (ncols W)) in *.
  assert (Hk : 0 < k) by (destruct k; lia).
  assert (Hstep : (32 / n)%Z = Z.of_nat k).
  { rewrite <- Hnk, Z.mul_comm. apply Z.div_mul. lia. }
  set (Q := nrows W * pc / (32 * k)).
  assert (HQ : nrows W * pc = k * Q * 32).
  { unfold Q. apply Nat.Div0.div_exact in Htile. lia. }
  assert (Hnum : nrows W * cdiv_nat (ncols W) k = Q * 32).
  { unfold pc, padded_cols in HQ. nia. }
  unfold GemLiteLinearCUDA.unpack_W_q.
  rewrite Hstep. change (Z.to_nat 32) with 32.
  unfold reshape_tiles, numel. rewrite Hl, Hnum.
  rewrite decide_False by lia.
  rewrite decide_True by apply Nat.Div0.mod_mul.
  cbn [mbind result_bind]. rewrite Nat.div_mul by lia.
  assert (Hrows : (Z.of_nat k * Z.of_nat (Q * 32) / 32)%Z = Z.of_nat (k * Q)).
  { rewrite !Nat2Z.inj_mul. change (Z.of_nat 32) with 32%Z.
    rewrite Z.mul_assoc. apply Z.div_mul. lia. }
  unfold torch_empty. rewrite Hrows.
  rewrite decide_True by lia.
  cbn [mbind result_bind]. rewrite !Nat2Z.id. change (Z.to_nat 32) with 32.
  destruct (unpack_loop_spec n k Hn Hnk W Hcodes
              (Tensor Q 32 (data P)) Q dtype HQ eq_refl eq_refl
              ltac:(cbn; lia)
              ltac:(intros p Hp;
                    change (flat (Tensor Q 32 (data P)) p) with (flat P p);
                    apply Hflat; lia)
              k 0 (torch_zeros (k * Q) 32))
    as (W_r & HW_r & Hr' & Hc' & Hl' & Hitem).
  { lia. }
  { done. }
  { done. }
  { cbn. rewrite length_replicate. lia. }
  { intros r l _ _ Hlt. lia. }
  replace (32 - n * Z.of_nat 0)%Z with 32%Z in HW_r by lia.
  rewrite HW_r. cbn [mbind result_bind].
  unfold view. cbn [fst snd]. rewrite decide_True by lia.
  rewrite <- Nat2Z.inj_mul, !Nat2Z.id.
  unfold reshape, numel. rewrite Hl', Hr, Hc.
  replace (cdiv_nat (ncols W) k * k) with pc by (unfold pc, padded_cols; lia).
  rewrite decide_True by lia.
  f_equal. f_equal.
  change (data W_r
          = data (Tensor (nrows W) pc
                    (GemLiteLinearCUDA.cast_to dtype <$> data (padded W pc)))).
  apply data_eq_flat.
  - cbn [data]. rewrite length_fmap, padded_length. lia.
  - intros p Hp.
    pose proof (Nat.div_mod p 32 ltac:(lia)) as Hdm.
    pose proof (Nat.mod_upper_bound p 32 ltac:(lia)) as Hmod.
    assert (Hdiv : p / 32 < k * Q) by (apply Nat.Div0.div_lt_upper_bound; lia).
    specialize (Hitem (p / 32) (p mod 32) Hdiv Hmod).
    rewrite item_flat, Hc' in Hitem.
    replace (p / 32 * 32 + p mod 32) with p in Hitem by lia.
    rewrite Hitem. unfold flat. cbn [data].
    rewrite list_lookup_fmap.
    assert (Hpl : p < nrows W * pc) by lia.
    pose proof (flat_padded W pc p Hpl) as Hfp. unfold flat in Hfp.
    destruct (data (padded W pc) !! p) as [y|] eqn:Hy.
    + cbn in *. by rewrite Hfp.
    + apply lookup_ge_None_1 in Hy. rewrite padded_length in Hy. lia.
Qed.

(** Layout A round trip on the tensors: with an element type that holds
    every code as it is, what [unpack] computes from the words that [pack]
    stores is the padded code tensor. *)
Lemma cuda_unpack_W_q_pack_W_q n k W dtype :
  (0 < n)%Z → (n ≤ 8)%Z → (n * Z.of_nat k = 32)%Z →
  (dtype = int8 → (n < 8)%Z) → dtype ≠ torch_bool →
  wf_tensor W →
  (∀ x, x ∈ data W → (0 ≤ x < 2 ^ n)%Z) →
  (nrows W * padded_cols k (ncols W)) mod (32 * k) = 0 →
  ∃ P,
    GemLiteLinearCUDA.pack_W_q 32 n W = Ok P
    ∧ GemLiteLinearCUDA.unpack_W_q 32 n (32 / n) P dtype
      = Ok (padded W (padded_cols k (ncols W))).
Proof.
  intros Hn Hn8 Hnk H8 Hb Hwf Hcodes Htile.
  destruct (cuda_unpack_W_q_cast n k W dtype Hn Hnk Hwf Hcodes Htile)
    as (P & HP & HU).
  exists P. split; [done|]. rewrite HU. f_equal. unfold padded. f_equal.
  cbn [data]. rewrite <- list_fmap_compose.
  apply list_fmap_ext. intros i p _. cbn.
  apply (cast_to_codes n); try done.
  by apply pad_code_range.
Qed.


(** When the rows need no padding the round trip is exact. *)
Corollary cuda_unpack_W_q_pack_W_q_exact n k W dtype :
  (0 < n)%Z → (n ≤ 8)%Z → (n * Z.of_nat k = 32)%Z →
  (dtype = int8 → (n < 8)%Z) → dtype ≠ torch_bool →
  wf_tensor W →
  (∀ x, x ∈ data W → (0 ≤ x < 2 ^ n)%Z) →
  ncols W mod k = 0 →
  (nrows W * ncols W) mod (32 * k) = 0 →
  ∃ P,
    GemLiteLinearCUDA.pack_W_q 32 n W = Ok P
    ∧ GemLiteLinearCUDA.unpack_W_q 32 n (32 / n) P dtype = Ok W.
Proof.
  intros Hn Hn8 Hnk H8 Hb Hwf Hcodes Hcol Htile.
  assert (Hk : 0 < k) by (destruct k; lia).
  assert (Hpc : padded_cols k (ncols W) = ncols W).
  { unfold padded_cols, cdiv_nat.
    apply Nat.Div0.div_exact in Hcol.
    rewrite Hcol at 1.
    replace (k * (ncols W / k) + k - 1) with ((ncols W / k) * k + (k - 1)) by lia.
    rewrite Nat.div_add_l, (Nat.div_small (k - 1)) by lia. lia. }
  destruct (cuda_unpack_W_q_pack_W_q n k W dtype) as (P & HP & HU); try done.
  { by rewrite Hpc. }
  exists P. split; [done|].
  by rewrite HU, Hpc, padded_id.
Qed.

(** * Layout A at the level of the methods *)

(** [pack] stores the packed words in [self.W_q], whatever happens to the
    metadata afterwards. *)
Lemma cuda_pack_stores_W_q self n W_q scales zeros bias P :
  self !! "threads_per_group" = None →
  self !! "W_nbits" = Some (VInt n) →
  GemLiteLinearCUDA.pack_W_q 32 n W_q = Ok P →
  (GemLiteLinearCUDA.pack W_q scales zeros bias self).1 !! "W_q"
  = Some (VTensor P).
Proof.
  intros Ht Hn HP. unfold GemLiteLinearCUDA.pack.
  rewrite run_bind_assoc.
  erewrite run_bind_getattr_class by (eassumption || reflexivity).
  cbn beta. rewrite run_bind_lift. cbn [as_int].
  rewrite run_bind_assoc.
  erewrite run_bind_getattr by eassumption.
  cbn beta. rewrite run_bind_lift. cbn [as_int].
  rewrite run_bind_lift.
  change GemLiteLinearCUDA.threads_per_group with 32%Z.
  rewrite HP. rewrite run_bind_setattr.
  rewrite (pack_metadata_assigns scales zeros bias).
  - apply lookup_insert_eq.
  - rewrite !elem_of_cons, elem_of_nil. intros H; destruct_or?; done.
Qed.

(** C6, amended. Layout A packing: on an operator of bit-width [n], with
    [k = 32 / n], for codes of shape [(rows, cols)] whose padded size
    [rows * pc], [pc] being the row length padded to a multiple of [k], is
    a multiple of [32 * k], [GemLiteLinearCUDA.pack] stores in [self.W_q]
    a tensor of shape [(rows, ceil(cols / k))]. Each word is the bitwise
    OR of [k] codes taken at a row stride of [k] from the 32-lane tiles of
    the zero-padded codes, code [i] shifted left by [32 - n * (i + 1)]
    bits: code 0 fills the top [n] bits, code [k - 1] the bottom [n] bits,
    and every field reads back as its code. Rows whose length is not a
    multiple of [k] are zero-padded on the trailing edge first. *)
Theorem cuda_pack_layout self n W scales zeros bias :
  cuda_instance self →
  self !! "W_nbits" = Some (VInt n) →
  wf_tensor W →
  (∀ x, x ∈ data W → (0 ≤ x < 2 ^ n)%Z) →
  let k := Z.to_nat (32 / n) in
  let pc := padded_cols k (ncols W) in
  (nrows W * pc) mod (32 * k) = 0 →
  ∃ P,
    (GemLiteLinearCUDA.pack W scales zeros bias self).1 !! "W_q"
    = Some (VTensor P)
    ∧ nrows P = nrows W
    ∧ ncols P = cdiv_nat (ncols W) k
    ∧ length (data P) = nrows W * cdiv_nat (ncols W) k
    ∧ shift_A n 0 = (32 - n)%Z
    ∧ shift_A n (k - 1) = 0%Z
    ∧ ∀ p, p < nrows W * cdiv_nat (ncols W) k →
        let code i := pad_code W pc ((i + (p / 32) * k) * 32 + p mod 32) in
        data P !! p = Some (or_fields (shift_A n) code k)
        ∧ ∀ i, i < k →
            Z.land (shr32 (shift_A n i) (flat P p)) (2 ^ n - 1) = code i.
Proof.
  intros Hinst HW_nbits Hwf Hcodes k pc Htile.
  apply cuda_instance_inv in Hinst as (_ & Htpg & n' & Hn' & Hcases).
  assert (n' = n) as -> by congruence.
  assert (Hn : (0 < n)%Z) by lia.
  assert (Hnk : (n * Z.of_nat k = 32)%Z).
  { unfold k. destruct Hcases as [->|[->| ->]]; reflexivity. }
  destruct (cuda_pack_W_q_spec n k Hn Hnk W Hwf Htile)
    as (P & HP & Hr & Hc & Hl & Hflat).
  exists P. split_and!; try done.
  - by apply (cuda_pack_stores_W_q self n).
  - unfold shift_A. lia.
  - unfold shift_A. assert (0 < k) by (destruct k; lia). nia.
  - intros p Hp code.
    assert (Hk : 0 < k) by (destruct k; lia).
    assert (HQ : nrows W * pc = k * (nrows W * pc / (32 * k)) * 32).
    { apply Nat.Div0.div_exact in Htile. lia. }
    assert (Hrange : (p / 32 + 1) * k * 32 ≤ nrows W * pc).
    { assert (nrows W * cdiv_nat (ncols W) k
              = nrows W * pc / (32 * k) * 32)
        by (unfold pc, padded_cols in *; nia).
      assert (p / 32 < nrows W * pc / (32 * k))
        by (apply Nat.Div0.div_lt_upper_bound; lia).
      nia. }
    assert (Hcode : ∀ i, i < k →
              code_A (padded W pc) k p i = code i).
    { intros i Hi. unfold code_A, code. apply flat_padded.
      pose proof (Nat.mod_upper_bound p 32 ltac:(lia)). nia. }
    split.
    + rewrite flat_lookup by lia. f_equal.
      rewrite Hflat by done. unfold word_A. fold pc.
      by apply or_fields_ext.
    + intros i Hi. rewrite Hflat by done.
      by rewrite (word_A_field n k Hn Hnk W Hcodes).
Qed.

(** * Layout B: [GemLiteLinearTriton.pack] *)

Lemma row_ok t j :
  j < nrows t → length (data t) = nrows t * ncols t →
  ∃ v, row t j = Ok v ∧ length v = ncols t
       ∧ ∀ c, c < ncols t → v !! c = Some (item t j c).
Proof.
  intros Hj Hl. unfold row. rewrite decide_True by done.
  eexists. split; [reflexivity|]. split.
  - rewrite length_take, length_drop. nia.
  - intros c' Hc'. rewrite lookup_take_lt by done. rewrite lookup_drop.
    unfold item. rewrite flat_lookup by nia. done.
Qed.

Section layout_B.
Context (n : Z) (k : nat).
(** The transposed codes: [I] rows (input features), [O] columns. *)
Context (Wt : tensor) (I O rows : nat).
Context (HWr : nrows Wt = I) (HWc : ncols Wt = O)
        (HWl : length (data Wt) = I * O) (Hrows : rows * k = I).

Lemma pack_row_spec r m : ∀ a acc,
  r < rows → a + m = k →
  nrows acc = rows → ncols acc = O → length (data acc) = rows * O →
  ∃ acc',
    GemLiteLinearTriton.pack_row n Wt (seq (r * k + a) m) r
      (n * Z.of_nat a)%Z acc = Ok acc'
    ∧ nrows acc' = rows ∧ ncols acc' = O ∧ length (data acc') = rows * O
    ∧ (∀ r' c, r' < rows → c < O → r' ≠ r → item acc' r' c = item acc r' c)
    ∧ (∀ c, c < O →
         item acc' r c
         = foldl (λ w e, Z.lor w (shl32 (shift_B n e) (code_B Wt k r c e)))
             (item acc r c) (seq a m)).
Proof.
  induction m as [|m IH]; intros a acc Hr Ham Hnr Hnc Hl.
  - cbn. exists acc. done.
  - cbn [seq GemLiteLinearTriton.pack_row].
    destruct (row_ok Wt (r * k + a)) as (v & -> & Hvl & Hv).
    { rewrite HWr. nia. }
    { by rewrite HWr, HWc. }
    cbn [mbind result_bind].
    unfold GemLiteLinearTriton.ior_row.
    rewrite decide_True by lia.
    rewrite decide_True by (rewrite length_fmap; lia).
    cbn [mbind result_bind].
    set (acc1 := tabulate _ _ _).
    destruct (IH (S a) acc1) as (acc' & Hrun & Hr' & Hc' & Hl' & Hother & Hthis);
      try done; try lia.
    { unfold acc1. rewrite tabulate_length. lia. }
    replace (r * k + S a) with (S (r * k + a)) in Hrun by lia.
    replace (n * Z.of_nat (S a))%Z with (n * Z.of_nat a + n)%Z in Hrun by lia.
    exists acc'. split_and!; try done.
    + intros r' c Hr1 Hc1 Hne. rewrite Hother by done.
      unfold acc1. rewrite item_tabulate by lia.
      by rewrite decide_False.
    + intros c Hc1. rewrite Hthis by done. cbn [foldl]. f_equal.
      unfold acc1. rewrite item_tabulate by lia.
      rewrite decide_True by done. f_equal.
      rewrite list_lookup_fmap, Hv by lia. cbn.
      unfold shift_B, code_B. done.
Qed.

Lemma pack_rows_spec fuel : ∀ r acc,
  fuel + r = rows →
  nrows acc = rows → ncols acc = O → length (data acc) = rows * O →
  (∀ r' c, r ≤ r' → r' < rows → c < O → item acc r' c = 0%Z) →
  ∃ acc',
    GemLiteLinearTriton.pack_rows fuel n k Wt (r * k) r acc = Ok acc'
    ∧ nrows acc' = rows ∧ ncols acc' = O ∧ length (data acc') = rows * O
    ∧ ∀ r' c, r' < rows → c < O →
        item acc' r' c
        = if decide (r' < r) then item acc r' c else word_B n k Wt r' c.
Proof.
  induction fuel as [|fuel IH]; intros r acc Hf Hnr Hnc Hl Hz.
  - cbn. rewrite decide_False by lia. exists acc. split_and!; try done.
    intros r' c Hr' Hc. rewrite decide_True by lia. done.
  - cbn [GemLiteLinearTriton.pack_rows].
    rewrite decide_True by lia.
    destruct (pack_row_spec r k 0 acc) as (acc1 & Hrun & Hr1 & Hc1 & Hl1 & Hother & Hthis);
      try done; try lia.
    rewrite Nat.add_0_r in Hrun. change (n * Z.of_nat 0)%Z with (n * 0)%Z in Hrun.
    rewrite Z.mul_0_r in Hrun. rewrite Hrun. cbn [mbind result_bind].
    destruct (IH (S r) acc1) as (acc' & Hrun' & Hr' & Hc' & Hl' & Hitem);
      try done; try lia.
    { intros r' c Hle Hlt Hc. rewrite Hother by (done || lia).
      apply Hz; lia. }
    replace (r * k + k) with (S r * k) by lia.
    replace (r + 1) with (S r) by lia.
    exists acc'. split_and!; try done.
    intros r' c Hlt Hc. rewrite Hitem by done.
    destruct (decide (r' = r)) as [->|Hne].
    + rewrite decide_True by lia. rewrite decide_False by lia.
      rewrite Hthis by done. rewrite Hz by (done || lia). reflexivity.
    + repeat case_decide; try lia; try done.
      by rewrite Hother.
Qed.
End layout_B.

Lemma item_torch_zeros r c i j : item (torch_zeros r c) i j = 0%Z.
Proof.
  unfold item, torch_zeros. cbn.
  destruct (replicate _ _ !! _) as [x|] eqn:Hx; [|done].
  by apply lookup_replicate in Hx as [-> _].
Qed.

Lemma shift_B_fields n k :
  (0 < n)%Z → (n * Z.of_nat k = 32)%Z →
  (∀ i, i < k → (0 ≤ shift_B n i ∧ shift_B n i + n ≤ 32)%Z)
  ∧ (∀ e i, e < k → i < k → i ≠ e →
       (shift_B n i + n ≤ shift_B n e ∨ shift_B n e + n ≤ shift_B n i)%Z).
Proof.
  intros Hn Hnk. unfold shift_B. split.
  - intros i Hi. nia.
  - intros e i He Hi Hie.
    destruct (decide (i < e)); [left|right]; nia.
Qed.

Lemma supported_bits_step n :
  n ∈ [1; 2; 4; 8]%Z → (0 < n)%Z ∧ (n ≤ 8)%Z ∧ (n * Z.of_nat (Z.to_nat (32 / n)) = 32)%Z.
Proof.
  intros Hn%supported_bits_cases.
  destruct Hn as [->|[->|[->| ->]]]; split_and!; done.
Qed.

(** The weight part of [GemLiteLinearTriton.pack] on an instance. *)
Lemma triton_pack_W_q_spec self W :
  triton_inv self →
  let n := GemLiteLinearTriton.W_nbits self in
  let k := Z.to_nat (32 / n) in
  let I := Z.to_nat (GemLiteLinearTriton.in_features self) in
  let O := Z.to_nat (GemLiteLinearTriton.out_features self) in
  length (data W) = O * I →
  ∃ P,
    GemLiteLinearTriton.pack_W_q self W = Ok P
    ∧ nrows P = I / k ∧ ncols P = O ∧ length (data P) = I / k * O
    ∧ I / k * k = I
    ∧ ∀ r c, r < I / k → c < O →
        item P r c = word_B n k (transpose (Tensor O I (data W))) r c.
Proof.
  intros (Hn & Hin & Hout & Hi0 & Ho0 & Hg & Hshape & _) n k I O HW.
  destruct (supported_bits_step _ Hn) as (Hn0 & Hn8 & Hnk).
  fold n k in Hn0, Hn8, Hnk.
  assert (Hk : 0 < k) by (destruct k; lia).
  unfold GemLiteLinearTriton.pack_W_q. rewrite Hshape.
  rewrite decide_True by done.
  unfold reshape, numel. fold I O. rewrite decide_True by done.
  cbn [mbind result_bind].
  set (Wt := transpose (Tensor O I (data W))).
  assert (HWr : nrows Wt = I) by done.
  assert (HWc : ncols Wt = O) by done.
  assert (HWl : length (data Wt) = I * O).
  { unfold Wt, transpose. by rewrite tabulate_length. }
  rewrite HWr, HWc. fold n.
  set (rows := Z.to_nat (Z.of_nat I / 32 * n)).
  assert (Hrows : rows * k = I).
  { unfold rows, k, I.
    apply supported_bits_cases in Hn. fold n in Hn.
    assert (Hm : ∃ m, (GemLiteLinearTriton.in_features self = 128 * m ∧ 0 ≤ m)%Z).
    { exists (GemLiteLinearTriton.in_features self / 128)%Z.
      split; [|apply Z.div_pos; lia].
      by apply Z.div_exact. }
    destruct Hm as (m & -> & Hm0).
    rewrite Z2Nat.id by lia.
    replace (128 * m / 32)%Z with (4 * m)%Z
      by (Z.div_mod_to_equations; lia).
    destruct Hn as [->|[->|[->| ->]]];
      [change (32 / 1)%Z with 32%Z|change (32 / 2)%Z with 16%Z
      |change (32 / 4)%Z with 8%Z|change (32 / 8)%Z with 4%Z]; lia. }
  rewrite decide_True by (apply Z.mul_nonneg_nonneg; [apply Z.div_pos|]; lia).
  cbn [mbind result_bind]. fold rows.
  unfold py_floordiv. rewrite decide_False by lia.
  cbn [mbind result_bind]. fold k.
  assert (Hquot : I / k = rows).
  { rewrite <- Hrows. apply Nat.div_mul. lia. }
  rewrite Hquot.
  destruct (pack_rows_spec n k Wt I O rows HWr HWc HWl Hrows
              rows 0 (torch_zeros rows O) ltac:(lia) eq_refl eq_refl)
    as (P & HP & Hr & Hc & Hl & Hitem).
  { cbn. by rewrite length_replicate. }
  { intros. apply item_torch_zeros. }
  change (nrows (torch_zeros rows O)) with rows.
  change (0 * k) with 0 in HP. rewrite HP.
  exists P. split_and!; try done.
Qed.

Lemma item_transpose t i j :
  i < ncols t → j < nrows t → item (transpose t) i j = item t j i.
Proof. intros Hi Hj. unfold transpose. by rewrite item_tabulate. Qed.

(** [pack] stores the packed words in [self.W_q] before it touches the
    metadata. *)
Lemma triton_pack_stores_W_q self W scales zeros bias P :
  GemLiteLinearTriton.pack_W_q self W = Ok P →
  GemLiteLinearTriton.W_q (GemLiteLinearTriton.pack self W scales zeros bias).1
  = Real P.
Proof.
  intros HP. unfold GemLiteLinearTriton.pack. rewrite HP.
  repeat case_match; done.
Qed.

(** The words of Layout B and their fields. *)
Lemma triton_pack_W_q_fields self W :
  triton_inv self →
  let n := GemLiteLinearTriton.W_nbits self in
  let k := Z.to_nat (32 / n) in
  let I := Z.to_nat (GemLiteLinearTriton.in_features self) in
  let O := Z.to_nat (GemLiteLinearTriton.out_features self) in
  length (data W) = O * I →
  (∀ x, x ∈ data W → (0 ≤ x < 2 ^ n)%Z) →
  ∃ P,
    GemLiteLinearTriton.pack_W_q self W = Ok P
    ∧ nrows P = I / k ∧ ncols P = O ∧ I / k * k = I
    ∧ ∀ r c, r < I / k → c < O →
        let code e := item (Tensor O I (data W)) c (r * k + e) in
        item P r c = or_fields (shift_B n) code k
        ∧ ∀ e, e < k →
            Z.land (shr32 (n * Z.of_nat e) (item P r c)) (2 ^ n - 1) = code e.
Proof.
  intros Hinst n k I O HW Hcodes.
  destruct (triton_pack_W_q_spec self W Hinst HW)
    as (P & HP & Hr & Hc & Hl & Hk & Hitem).
  fold n k I O in HP, Hr, Hc, Hl, Hk, Hitem.
  destruct Hinst as (Hn & _).
  destruct (supported_bits_step _ Hn) as (Hn0 & Hn8 & Hnk).
  fold n k in Hn0, Hn8, Hnk.
  exists P. split_and!; try done.
  intros r c Hr' Hc' code.
  assert (Hcode : ∀ e, e < k →
            code_B (transpose (Tensor O I (data W))) k r c e = code e).
  { intros e He. unfold code_B, code.
    apply item_transpose; cbn [nrows ncols]; [nia|done]. }
  rewrite Hitem by done. unfold word_B.
  split.
  - by apply or_fields_ext.
  - intros e He.
    destruct (shift_B_fields n k Hn0 Hnk) as [Hs Hd].
    change (n * Z.of_nat e)%Z with (shift_B n e).
    rewrite (or_fields_extract n); try done.
    + by apply Hcode.
    + intros i Hi. rewrite Hcode by done. unfold code, item. cbn [data ncols].
      destruct (data W !! _) as [x|] eqn:Hx; cbn.
      * apply list_elem_of_lookup_2 in Hx. by apply Hcodes.
      * pose proof (Z.pow_pos_nonneg 2 n). lia.
    + intros i Hi Hie. by apply Hd.
Qed.

(** C7. Layout B packing: [GemLiteLinearTriton.pack] reshapes the codes to
    [(out_features, in_features)], transposes them, and stores in
    [self.W_q] a tensor of [in_features / k] rows of [out_features] words,
    [k = 32 / n]. The word at row [r], column [c] is the bitwise OR of the
    [k] codes [codes[c][r*k + e]], code [e] shifted left by [n * e] bits:
    the lowest input index sits in the lowest [n] bits and every field
    reads back as its code. The words are stored before the metadata is
    looked at, so this holds whether or not [pack] goes on to return. *)
Theorem triton_pack_layout self W scales zeros bias :
  triton_instance self →
  let n := GemLiteLinearTriton.W_nbits self in
  let k := Z.to_nat (32 / n) in
  let I := Z.to_nat (GemLiteLinearTriton.in_features self) in
  let O := Z.to_nat (GemLiteLinearTriton.out_features self) in
  length (data W) = O * I →
  (∀ x, x ∈ data W → (0 ≤ x < 2 ^ n)%Z) →
  ∃ P,
    GemLiteLinearTriton.W_q (GemLiteLinearTriton.pack self W scales zeros bias).1
    = Real P
    ∧ nrows P = I / k ∧ ncols P = O ∧ I / k * k = I
    ∧ ∀ r c, r < I / k → c < O →
        let code e := item (Tensor O I (data W)) c (r * k + e) in
        item P r c = or_fields (shift_B n) code k
        ∧ ∀ e, e < k →
            Z.land (shr32 (n * Z.of_nat e) (item P r c)) (2 ^ n - 1) = code e.
Proof.
  intros Hinst n k I O HW Hcodes.
  apply triton_instance_inv in Hinst.
  destruct (triton_pack_W_q_fields self W Hinst HW Hcodes)
    as (P & HP & Hrest).
  exists P. split; [|exact Hrest].
  by apply triton_pack_stores_W_q.
Qed.

(** Layout B round trip against the decoding the spec describes. *)
Lemma triton_unpack_pack self W :
  triton_instance self →
  let n := GemLiteLinearTriton.W_nbits self in
  let k := Z.to_nat (32 / n) in
  let I := Z.to_nat (GemLiteLinearTriton.in_features self) in
  let O := Z.to_nat (GemLiteLinearTriton.out_features self) in
  length (data W) = O * I →
  (∀ x, x ∈ data W → (0 ≤ x < 2 ^ n)%Z) →
  ∃ P,
    GemLiteLinearTriton.pack_W_q self W = Ok P
    ∧ unpack_B n k P = Tensor O I (data W).
Proof.
  intros Hinst n k I O HW Hcodes.
  apply triton_instance_inv in Hinst.
  destruct (triton_pack_W_q_fields self W Hinst HW Hcodes)
    as (P & HP & Hr & Hc & Hk & Hitem).
  fold n k I O in HP, Hr, Hc, Hk, Hitem.
  exists P. split; [done|].
  destruct Hinst as (Hn & _).
  destruct (supported_bits_step _ Hn) as (Hn0 & Hn8 & Hnk).
  fold n k in Hn0, Hn8, Hnk.
  assert (Hkpos : 0 < k) by (destruct k; lia).
  unfold unpack_B. rewrite Hr, Hc, Hk.
  unfold tabulate. f_equal.
  apply list_eq. intros p. rewrite list_lookup_fmap.
  destruct (decide (p < O * I)) as [Hp|Hp].
  - rewrite (lookup_seq_lt _ _ _ Hp). cbn [fmap option_fmap option_map Nat.add].
    assert (HI : 0 < I) by (destruct I; lia).
    pose proof (Nat.mod_upper_bound p I ltac:(lia)) as Hmod.
    pose proof (Nat.div_mod p I ltac:(lia)) as Hdm.
    assert (Hdiv : p / I < O) by (apply Nat.Div0.div_lt_upper_bound; lia).
    pose proof (Nat.mod_upper_bound (p mod I) k ltac:(lia)) as Hmodk.
    pose proof (Nat.div_mod (p mod I) k ltac:(lia)) as Hdmk.
    assert (Hdivk : p mod I / k < I / k)
      by (apply Nat.Div0.div_lt_upper_bound; lia).
    destruct (Hitem (p mod I / k) (p / I) Hdivk Hdiv) as [_ Hfield].
    unfold shift_B. rewrite Hfield by done.
    unfold item. cbn [ncols data].
    replace (p / I * I + (p mod I / k * k + (p mod I) mod k)) with p by lia.
    rewrite (flat_lookup W) by lia. done.
  - rewrite lookup_ge_None_2 by (rewrite length_seq; lia).
    rewrite lookup_ge_None_2 by lia. done.
Qed.

(** * The running examples are instances; Layout A on a concrete run *)

Lemma example_cuda_new :
  GemLiteLinearCUDA.new 8 (Some 128%Z) 128 1 FP16 FP16 None = Ok example_cuda.
Proof.
  unfold GemLiteLinearCUDA.new, example_cuda.
  destruct (GemLiteLinearCUDA.__init__ _ _ _ _ _ _ _ ∅) as [self [[]|e]] eqn:H.
  - reflexivity.
  - apply (f_equal snd) in H. vm_compute in H. discriminate H.
Qed.

Lemma example_triton_new :
  GemLiteLinearTriton.new 4 (Some 128%Z) 128 128 FP16 FP16 None = Ok example_triton.
Proof. vm_compute. reflexivity. Qed.

Lemma example_triton48_new :
  GemLiteLinearTriton.new 4 (Some 48%Z) 128 128 FP16 FP16 None = Ok example_triton48.
Proof. vm_compute. reflexivity. Qed.

(** C1, checked on a concrete run of Layout A. An operator is built with
    8-bit weights, 128 input features and one output feature, and 128 codes
    are packed: [pack] returns and stores the words [P] in [self.W_q]. Then
    [unpack(P)] raises [AttributeError] on [W_q_packed] instead of
    returning the codes: the method reads [self.W_q_packed], which nothing
    assigns, and ignores its argument. The body of [unpack], run on what
    [pack] stored, would have returned the codes. *)
Theorem cuda_unpack_after_pack_raises :
  let packed := GemLiteLinearCUDA.pack example_codes example_meta example_meta
                  PNone example_cuda in
  GemLiteLinearCUDA.pack_W_q 32 8 example_codes = Ok example_packed
  ∧ packed.2 = Ok tt
  ∧ packed.1 !! "W_q" = Some (VTensor example_packed)
  ∧ packed.1 !! "W_q_packed" = None
  ∧ (GemLiteLinearCUDA.unpack example_packed uint8 packed.1).2
    = Raise (AttributeError "W_q_packed")
  ∧ GemLiteLinearCUDA.unpack_W_q 32 8 4 example_packed uint8 = Ok example_codes.
Proof.
  cbv zeta. split_and!; vm_compute; reflexivity.
Qed.

(** * Shape and group-size checks of the constructors *)

(** C5 as stated does not hold: with [in_features = 100], not a multiple of
    128, and a bit-width of 3, construction fails with the bit-width error,
    which is checked first, and not with the shape error. *)
Lemma triton_shape_error_masked :
  (100 mod 128 ≠ 0)%Z
  ∧ GemLiteLinearTriton.new 3 (Some 128%Z) 100 128 FP16 FP16 None
    = Raise UnsupportedBitWidth
  ∧ GemLiteLinearTriton.new 3 (Some 128%Z) 100 128 FP16 FP16 None
    ≠ Raise InvalidShape.
Proof. split; [done|]. split; [reflexivity|]. vm_compute. discriminate. Qed.

(** C5, amended. For every supported bit-width and every [in_features] or
    [out_features] that is not a multiple of 128, the constructor of
    [GemLiteLinearTriton] fails with the shape error, with nothing
    allocated and no kernel touched (the event log is empty); shapes that
    are multiples of 128 do not raise this error. *)
Theorem triton_init_shape W_nbits group_size in_features out_features idt odt acc :
  W_nbits ∈ [1; 2; 4; 8]%Z →
  ((in_features mod 128 ≠ 0 ∨ out_features mod 128 ≠ 0)%Z →
     GemLiteLinearTriton.__init__ W_nbits group_size in_features out_features
       idt odt acc = ([], Raise InvalidShape))
  ∧ ((in_features mod 128 = 0 ∧ out_features mod 128 = 0)%Z →
     (GemLiteLinearTriton.__init__ W_nbits group_size in_features out_features
        idt odt acc).2 ≠ Raise InvalidShape).
Proof.
  intros Hn. split.
  - intros Hshape. unfold GemLiteLinearTriton.__init__.
    rewrite (bool_decide_eq_true_2 _ Hn). cbn [negb].
    destruct Hshape as [H|H]; rewrite (bool_decide_eq_false_2 _ H); cbn [negb orb].
    + reflexivity.
    + by rewrite orb_true_r.
  - intros [Hi Ho]. ctor_unfold.
    rewrite (bool_decide_eq_true_2 _ Hn), (bool_decide_eq_true_2 _ Hi),
      (bool_decide_eq_true_2 _ Ho). cbn [negb orb].
    ctor_cases; discriminate.
Qed.

Lemma triton_init_shape_witness :
  GemLiteLinearTriton.__init__ 4 (Some 128%Z) 100 128 FP16 FP16 None
    = ([], Raise InvalidShape)
  ∧ (GemLiteLinearTriton.__init__ 4 (Some 128%Z) 256 128 FP16 FP16 None).2
    ≠ Raise InvalidShape.
Proof.
  assert (Hn : 4%Z ∈ [1; 2; 4; 8]%Z) by (rewrite supported_bits_cases; lia).
  split.
  - apply (proj1 (triton_init_shape 4 (Some 128%Z) 100 128 FP16 FP16 None Hn)).
    left. vm_compute. discriminate.
  - apply (proj2 (triton_init_shape 4 (Some 128%Z) 256 128 FP16 FP16 None Hn)).
    split; reflexivity.
Defined.

(** C3, as stated: refuted by a Triton operator that is constructed with a
    group size of 48 for 128 input features. *)
Lemma triton_group_size_unchecked :
  ¬ (48 | 128)%Z
  ∧ GemLiteLinearTriton.new 4 (Some 48%Z) 128 128 FP16 FP16 None
    = Ok example_triton48.
Proof.
  split; [|apply example_triton48_new].
  intros [q Hq]. lia.
Qed.

Lemma triton_new_any_group_size W_nbits g in_features out_features idt odt acc :
  W_nbits ∈ [1; 2; 4; 8]%Z →
  (in_features mod 128 = 0)%Z → (out_features mod 128 = 0)%Z →
  (0 ≤ in_features)%Z → (0 ≤ out_features)%Z →
  (idt = FP16 ∧ odt = FP16) ∨ (idt = BF16 ∧ odt = BF16) →
  (0 < g)%Z →
  ∃ self,
    GemLiteLinearTriton.__init__ W_nbits (Some g) in_features out_features
      idt odt acc
    = ([EvAlloc "W_q" (Z.to_nat (in_features / 32 * W_nbits), Z.to_nat out_features);
        EvAlloc "scales" (Z.to_nat ((in_features + g - 1) / g), Z.to_nat out_features);
        EvAlloc "zeros" (Z.to_nat ((in_features + g - 1) / g), Z.to_nat out_features)],
       Ok self)
    ∧ GemLiteLinearTriton.scales self
      = Meta (Z.to_nat ((in_features + g - 1) / g), Z.to_nat out_features)
    ∧ GemLiteLinearTriton.group_size self = g.
Proof.
  intros Hn Hi Ho Hi0 Ho0 Hdt Hg.
  assert (Hn1 : (1 ≤ W_nbits)%Z) by (apply supported_bits_cases in Hn; lia).
  assert (0 ≤ in_features / 32 * W_nbits)%Z
    by (apply Z.mul_nonneg_nonneg; [apply Z.div_pos|]; lia).
  assert (0 ≤ (in_features + g - 1) / g)%Z by (apply Z.div_pos; lia).
  ctor_unfold.
  rewrite (bool_decide_eq_true_2 _ Hn), (bool_decide_eq_true_2 _ Hi),
    (bool_decide_eq_true_2 _ Ho). cbn [negb orb default].
  destruct Hdt as [[-> ->]|[-> ->]]; ctor_cases; unfold id in *;
    try lia; try tauto; try (destruct_and?; done);
    (eexists; split_and!; reflexivity).
Qed.

(** A group size that does not divide [in_features] first shows in [pack]:
    metadata of the registered size does not reshape. *)
Lemma triton_pack_group_size_mismatch self g W s zeros bias :
  triton_instance self →
  GemLiteLinearTriton.group_size self = g →
  (0 < g)%Z → ¬ (g | GemLiteLinearTriton.in_features self)%Z →
  (0 < GemLiteLinearTriton.out_features self)%Z →
  length (data W)
  = Z.to_nat (GemLiteLinearTriton.out_features self)
    * Z.to_nat (GemLiteLinearTriton.in_features self) →
  length (fdata s)
  = Z.to_nat ((GemLiteLinearTriton.in_features self + g - 1) / g)
    * Z.to_nat (GemLiteLinearTriton.out_features self) →
  (GemLiteLinearTriton.pack self W (PTensor s) zeros bias).2
  = Raise (RuntimeError "shape is invalid for input size").
Proof.
  intros Hinst Hgs Hg Hndiv Ho HW Hs.
  apply triton_instance_inv in Hinst.
  destruct (triton_pack_W_q_spec self W Hinst HW) as (P & HP & _).
  destruct Hinst as (_ & _ & _ & Hi0 & _).
  unfold GemLiteLinearTriton.pack. rewrite HP.
  cbn [GemLiteLinearTriton.set_W_q GemLiteLinearTriton.in_features
       GemLiteLinearTriton.group_size].
  rewrite Hgs. unfold py_floordiv. rewrite decide_False by lia.
  unfold GemLiteLinearTriton.pack_meta.
  cbn [GemLiteLinearTriton.out_features GemLiteLinearTriton.set_W_q].
  rewrite decide_True by lia.
  unfold freshape_t, infer_dim.
  set (i := GemLiteLinearTriton.in_features self) in *.
  set (o := GemLiteLinearTriton.out_features self) in *.
  assert (0 ≤ i / g)%Z by (apply Z.div_pos; lia).
  rewrite decide_False by lia.
  rewrite decide_False; [done|].
  intros [_ Hlen]. rewrite Hs in Hlen.
  assert (Hne : ((i + g - 1) / g ≠ i / g)%Z).
  { intros Heq. apply Hndiv. apply Z.mod_divide; [lia|].
    revert Heq. Z.div_mod_to_equations. nia. }
  assert (0 ≤ (i + g - 1) / g)%Z by (apply Z.div_pos; lia).
  apply Hne. apply Z2Nat.inj; try lia.
  assert (0 < Z.to_nat o) by lia. nia.
Qed.

(** C3, amended. (1) Constructing a Layout A (CUDA) operator whose
    [group_size] is missing or does not divide
    [in_features * out_features] fails at construction. (2) The Layout B
    (Triton) constructor does not compare [group_size] with [in_features]:
    with a supported bit-width, dtype pair and shape and a positive
    [group_size] it returns an operator whose metadata buffers have
    [ceil(in_features / group_size)] rows. (3) For such an operator whose
    [group_size] does not divide [in_features], the mismatch shows in
    [pack]: scales of the registered size do not reshape to
    [(out_features, in_features // group_size)] and [pack] raises. *)
Theorem group_size_checks :
  (∀ W_nbits group_size in_features out_features idt odt acc,
     (∀ g, group_size = Some g → ¬ (g | in_features * out_features)%Z) →
     ∃ e, GemLiteLinearCUDA.new W_nbits group_size in_features out_features
            idt odt acc = Raise e)
  ∧ (∀ W_nbits g in_features out_features idt odt acc,
       W_nbits ∈ [1; 2; 4; 8]%Z →
       (in_features mod 128 = 0)%Z → (out_features mod 128 = 0)%Z →
       (0 ≤ in_features)%Z → (0 ≤ out_features)%Z →
       (idt = FP16 ∧ odt = FP16) ∨ (idt = BF16 ∧ odt = BF16) →
       (0 < g)%Z →
       ∃ self,
         GemLiteLinearTriton.new W_nbits (Some g) in_features out_features
           idt odt acc = Ok self
         ∧ GemLiteLinearTriton.scales self
           = Meta (Z.to_nat ((in_features + g - 1) / g), Z.to_nat out_features))
  ∧ (∀ self g W s zeros bias,
       triton_instance self →
       GemLiteLinearTriton.group_size self = g →
       (0 < g)%Z → ¬ (g | GemLiteLinearTriton.in_features self)%Z →
       (0 < GemLiteLinearTriton.out_features self)%Z →
       length (data W)
       = Z.to_nat (GemLiteLinearTriton.out_features self)
         * Z.to_nat (GemLiteLinearTriton.in_features self) →
       length (fdata s)
       = Z.to_nat ((GemLiteLinearTriton.in_features self + g - 1) / g)
         * Z.to_nat (GemLiteLinearTriton.out_features self) →
       (GemLiteLinearTriton.pack self W (PTensor s) zeros bias).2
       = Raise (RuntimeError "shape is invalid for input size")).
Proof.
  split_and!.
  - intros. by apply cuda_new_group_size.
  - intros n g i o idt odt acc Hn Hi Ho Hi0 Ho0 Hdt Hg.
    destruct (triton_new_any_group_size n g i o idt odt acc) as (self & H & Hs & _);
      try done.
    exists self. unfold GemLiteLinearTriton.new. rewrite H. done.
  - intros. by eapply triton_pack_group_size_mismatch.
Qed.

(** * The theorems at work on the running examples *)

Lemma example_triton_instance : triton_instance example_triton.
Proof. eapply triton_new. apply example_triton_new. Qed.

Lemma example_triton48_instance : triton_instance example_triton48.
Proof. eapply triton_new. apply example_triton48_new. Qed.

Lemma example_cuda_instance : cuda_instance example_cuda.
Proof. eapply cuda_new. apply example_cuda_new. Qed.

Lemma signature_stability_witness :
  let c := Call example_triton example_measure [1; 128] in
  let key := (1%Z, (128, 128, 4, Some 128)%Z) in
  ∃ e,
    (do_call c ∅).1.1 !! key = Some e
    ∧ do_call c (run [c] (do_call c ∅).1.1)
      = (run [c] (do_call c ∅).1.1, [EvInvoke (forward e) 1 128],
         Raise (AttributeError "bias")).
Proof.
  intros c key.
  destruct (signature_stability ∅ c [c] c key 1 128) as (e & H1 & _ & _ & _ & H2 & _).
  - exact example_triton_instance.
  - reflexivity.
  - reflexivity.
  - reflexivity.
  - reflexivity.
  - exists e. split; [exact H1|exact H2].
Defined.

Lemma group_size_checks_witness :
  (∃ e, GemLiteLinearCUDA.new 4 (Some 48%Z) 128 128 FP16 FP16 None = Raise e)
  ∧ (∃ self, GemLiteLinearTriton.new 4 (Some 48%Z) 128 128 FP16 FP16 None = Ok self
             ∧ GemLiteLinearTriton.scales self = Meta (3, 128))
  ∧ (GemLiteLinearTriton.pack example_triton48 example_codes4
       example_scales48 example_scales48 PNone).2
    = Raise (RuntimeError "shape is invalid for input size").
Proof.
  destruct group_size_checks as (Hcuda & Htriton & Hpack).
  split_and!.
  - apply Hcuda. intros g [= <-] [q Hq]. lia.
  - apply (Htriton 4 48 128 128 FP16 FP16 None)%Z.
    + rewrite supported_bits_cases. lia.
    + reflexivity.
    + reflexivity.
    + lia.
    + lia.
    + left. split; reflexivity.
    + lia.
  - apply (Hpack example_triton48 48%Z).
    + exact example_triton48_instance.
    + reflexivity.
    + lia.
    + intros [q Hq]. cbn in Hq. lia.
    + reflexivity.
    + vm_compute. reflexivity.
    + vm_compute. reflexivity.
Defined.

Lemma cuda_pack_layout_witness :
  ∃ P,
    (GemLiteLinearCUDA.pack example_codes example_meta example_meta PNone
       example_cuda).1 !! "W_q" = Some (VTensor P)
    ∧ nrows P = 1 ∧ ncols P = 32.
Proof.
  destruct (cuda_pack_layout example_cuda 8 example_codes
              example_meta example_meta PNone)
    as (P & HP & Hr & Hc & _).
  - exact example_cuda_instance.
  - vm_compute. reflexivity.
  - reflexivity.
  - intros x Hx. unfold example_codes in Hx. cbn [data] in Hx.
    apply list_elem_of_fmap in Hx as (p & -> & _).
    pose proof (Nat.mod_upper_bound (p * 37 + 200) 256). lia.
  - reflexivity.
  - exists P. split; [exact HP|]. split; [exact Hr|exact Hc].
Defined.

Lemma triton_pack_layout_witness :
  ∃ P,
    GemLiteLinearTriton.W_q
      (GemLiteLinearTriton.pack example_triton example_codes4
         PNone PNone PNone).1 = Real P
    ∧ nrows P = 16 ∧ ncols P = 128.
Proof.
  destruct (triton_pack_layout example_triton example_codes4 PNone PNone PNone)
    as (P & HP & Hr & Hc & _).
  - exact example_triton_instance.
  - vm_compute. reflexivity.
  - intros x Hx. unfold example_codes4 in Hx. cbn [data] in Hx.
    apply elem_of_replicate in Hx as [-> _]. cbn. lia.
  - exists P. split; [exact HP|]. split; [exact Hr|exact Hc].
Defined.

Lemma warmup_selects_fastest_witness :
  ∃ w,
    GemLiteLinearTriton.warmup example_triton (1%Z, (128, 128, 4, Some 128)%Z)
      example_measure ∅
    = (<[(1%Z, (128, 128, 4, Some 128)%Z) := CacheEntry w (example_measure w)]> ∅,
       [EvBench gemm_A16fWnO16f_int32packing;
        EvBench gemv_A16fWnO16f_int32packing], Ok tt)
    ∧ ∀ c, c ∈ [gemm_A16fWnO16f_int32packing; gemv_A16fWnO16f_int32packing] →
           (example_measure w <= example_measure c)%Q.
Proof.
  destruct (warmup_selects_fastest example_triton
              (1%Z, (128, 128, 4, Some 128)%Z) example_measure ∅
              example_triton_instance)
    as (_ & w & indx & Hw & _ & Hmin & _).
  exists w. split; [exact Hw|exact Hmin].
Defined.

Lemma cuda_unpack_missing_attribute_witness :
  GemLiteLinearCUDA.unpack example_codes uint8 example_cuda
  = (example_cuda, Raise (AttributeError "W_q_packed")).
Proof.
  apply (proj2 cuda_unpack_missing_attribute example_cuda example_cuda_instance).
Defined.

Lemma cache_key_batch_component_witness :
  GemLiteLinearTriton._signature example_triton [2; 3; 128]
  = (2%Z, (128, 128, 4, Some 128)%Z)
  ∧ GemLiteLinearTriton._signature example_triton [3; 2; 128]
    ≠ (2%Z, (128, 128, 4, Some 128)%Z)
  ∧ GemLiteLinearTriton._signature example_triton [2; 5; 128]
    = (2%Z, (128, 128, 4, Some 128)%Z).
Proof.
  destruct (cache_key_batch_component example_triton example_measure ∅ 2 [3] 128)
    as (H1 & _ & H3 & H4).
  - exact example_triton_instance.
  - lia.
  - split; [exact H1|]. split.
    + apply (H3 3 [2] 128). lia.
    + apply (H4 [5] 128).
Defined.

(** * More on the CUDA operator *)

(** ** The outcomes of the constructor *)

Lemma fp16_table_Some n :
  (n = 2 ∨ n = 4 ∨ n = 8)%Z → is_Some (GEMLITE_GEMV_FP16_INPUT_FP16_OUTPUT !! n).
Proof. intros [->|[->| ->]]; vm_compute; eauto. Qed.

Lemma int8_table_Some n :
  (n = 2 ∨ n = 4 ∨ n = 8)%Z → is_Some (GEMLITE_GEMV_INT8_INPUT_INT32_OUTPUT !! n).
Proof. intros [->|[->| ->]]; vm_compute; eauto. Qed.

(** Looks an attribute up in a store written as a chain of assignments. *)
Ltac lookup_attr :=
  repeat (rewrite lookup_insert_ne by (let H := fresh in intros H; discriminate H));
  first [ apply lookup_insert_eq | apply lookup_empty | eassumption ].

Ltac run_attr :=
  first
    [ rewrite run_bind_assoc
    | rewrite run_bind_setattr
    | erewrite run_bind_getattr by lookup_attr
    | erewrite run_bind_getattr_class by (first [reflexivity | lookup_attr])
    | rewrite run_bind_getattr_missing by (first [reflexivity | lookup_attr])
    | rewrite run_bind_lift
    | rewrite run_bind_ret
    | rewrite run_bind_raise
    | rewrite run_setattr
    | rewrite run_raise ];
  cbn beta iota.

(** The constructor without its assignments: which exception it raises,
    and what it has assigned when it returns. *)
Lemma cuda_new_outcome W_nbits group_size in_features out_features idt odt acc :
  let new := GemLiteLinearCUDA.new W_nbits group_size in_features out_features
               idt odt acc in
  match new with Ok _ => Ok tt | Raise e => Raise e end
  = (if decide (idt = FP16 ∧ odt = FP16) then
       _ ← subscript GEMLITE_GEMV_FP16_INPUT_FP16_OUTPUT W_nbits;
       g ← as_int (opt_int group_size);
       m ← py_mod (in_features * out_features) g;
       if decide (m = 0%Z) then Ok tt else Raise UnsupportedConfiguration
     else if decide (idt = INT8 ∧ odt = INT32) then
       _ ← subscript GEMLITE_GEMV_INT8_INPUT_INT32_OUTPUT W_nbits;
       if decide (group_size = Some (in_features * out_features)%Z)
       then Ok tt else Raise UnsupportedConfiguration
     else Raise UnsupportedConfiguration)
  ∧ match new with
    | Raise _ => True
    | Ok self =>
      let table := if decide (idt = FP16)
                   then GEMLITE_GEMV_FP16_INPUT_FP16_OUTPUT
                   else GEMLITE_GEMV_INT8_INPUT_INT32_OUTPUT in
      let fp := bool_decide (idt = FP16) in
      (∃ k, table !! W_nbits = Some k ∧ self !! "kernel_fct" = Some (VKernel k))
      ∧ self !! "has_scales" = Some (VBool fp)
      ∧ self !! "zero_is_tensor" = Some (VBool fp)
      ∧ self !! "forward_raw" = Some (VLambda fp)
      ∧ self !! "in_features" = Some (VInt in_features)
      ∧ self !! "out_features" = Some (VInt out_features)
      ∧ self !! "W_nbits" = Some (VInt W_nbits)
      ∧ self !! "group_size" = Some (opt_int group_size)
      ∧ self !! "input_dtype" = Some (VDType idt)
      ∧ self !! "output_dtype" = Some (VDType odt)
      ∧ self !! "signature"
        = Some (VTuple [Some in_features; Some out_features; Some W_nbits;
                        group_size])
      ∧ self !! "compute_dtype" = Some (VTorchDtype float16)
      ∧ self !! "acc_dtype" = Some VNone
      ∧ self !! "W_q" = None ∧ self !! "scales" = None
      ∧ self !! "zeros" = None ∧ self !! "bias" = None
    end.
Proof.
  intros new. unfold new. clear new.
  match goal with |- _ = ?r ∧ _ => set (rhs := r) end.
  unfold GemLiteLinearCUDA.new, GemLiteLinearCUDA.__init__.
  do 10 run_attr.
  repeat first
    [ run_attr
    | progress cbn [as_int opt_int]
    | match goal with
      | H : _ ∧ _ |- _ => destruct H; subst
      | H : _ = _ |- _ => discriminate H
      | H : ¬ (?a = ?a ∧ ?b = ?b) |- _ => exfalso; apply H; split; reflexivity
      | |- context [match subscript ?T ?n with Ok _ => _ | Raise _ => _ end] =>
          unfold subscript at 1;
          let Hk := fresh "Hk" in destruct (T !! n) eqn:Hk
      | |- context [match as_int (opt_int ?gs) with Ok _ => _ | Raise _ => _ end] =>
          destruct gs
      | |- context [match py_mod _ _ with Ok _ => _ | Raise _ => _ end] =>
          unfold py_mod at 1
      | |- context [(mbind _ (if decide ?P then _ else _)) _] =>
          destruct (decide P)
      | |- context [match (if decide ?P then _ else _) with Ok _ => _ | Raise _ => _ end] =>
          destruct (decide P)
      end ].
  all: subst rhs; split.
  all: try exact I.
  all: try (unfold subscript, py_mod;
            repeat match goal with
                   | H : ?T !! ?n = _ |- context [?T !! ?n] => rewrite H
                   end;
            repeat first [ progress cbn [as_int opt_int mbind result_bind]
                         | case_decide ];
            first [reflexivity | congruence]).
  all: cbv zeta; repeat case_decide; repeat case_bool_decide; try congruence.
  all: split; [eexists; split; [eassumption|lookup_attr]|].
  all: subst; split_and!; lookup_attr.
Qed.

Lemma result_tag_raise {A} (r : result A) e :
  match r with Ok _ => Ok tt | Raise e => Raise e end = Raise e → r = Raise e.
Proof. destruct r; congruence. Qed.

Lemma result_tag_ok {A} (r : result A) :
  match r with Ok _ => Ok tt | Raise e => Raise e end = Ok tt → ∃ a, r = Ok a.
Proof. destruct r; [eauto|congruence]. Qed.

(** X1. The errors of [GemLiteLinearCUDA.__init__]. A dtype pair other than
    FP16/FP16 and INT8/INT32 ends in the configuration error. For the two
    supported pairs a bit-width outside {2, 4, 8} (1 included) is a
    [KeyError] of the kernel table. With FP16: [group_size=None] is a
    [TypeError] of the [%] operator, [group_size=0] a [ZeroDivisionError],
    and a group size that does not divide [in_features * out_features] the
    configuration error. With INT8/INT32 every group size other than
    [in_features * out_features] is the configuration error. *)
Theorem cuda_new_errors W_nbits group_size in_features out_features idt odt acc :
  let new := GemLiteLinearCUDA.new W_nbits group_size in_features out_features
               idt odt acc in
  let supported := (W_nbits = 2 ∨ W_nbits = 4 ∨ W_nbits = 8)%Z in
  (¬ (idt = FP16 ∧ odt = FP16) → ¬ (idt = INT8 ∧ odt = INT32) →
     new = Raise UnsupportedConfiguration)
  ∧ ((idt = FP16 ∧ odt = FP16) ∨ (idt = INT8 ∧ odt = INT32) →
     ¬ supported → new = Raise (KeyError W_nbits))
  ∧ (idt = FP16 ∧ odt = FP16 → supported → group_size = None →
     new = Raise (TypeError "unsupported operand type(s)"))
  ∧ (idt = FP16 ∧ odt = FP16 → supported → group_size = Some 0%Z →
     new = Raise ZeroDivisionError)
  ∧ (∀ g, idt = FP16 ∧ odt = FP16 → supported → group_size = Some g →
       g ≠ 0%Z → ((in_features * out_features) mod g ≠ 0)%Z →
       new = Raise UnsupportedConfiguration)
  ∧ (idt = INT8 ∧ odt = INT32 → supported →
     group_size ≠ Some (in_features * out_features)%Z →
     new = Raise UnsupportedConfiguration).
Proof.
  intros new supported.
  destruct (cuda_new_outcome W_nbits group_size in_features out_features
              idt odt acc) as [Hr _].
  fold new in Hr. unfold supported. clearbody new.
  assert (Hfp : ¬ (W_nbits = 2 ∨ W_nbits = 4 ∨ W_nbits = 8)%Z →
                GEMLITE_GEMV_FP16_INPUT_FP16_OUTPUT !! W_nbits = None).
  { intros Hn.
    destruct (GEMLITE_GEMV_FP16_INPUT_FP16_OUTPUT !! W_nbits) eqn:Hk; [|done].
    by apply fp16_table_inv in Hk. }
  assert (Hint : ¬ (W_nbits = 2 ∨ W_nbits = 4 ∨ W_nbits = 8)%Z →
                 GEMLITE_GEMV_INT8_INPUT_INT32_OUTPUT !! W_nbits = None).
  { intros Hn.
    destruct (GEMLITE_GEMV_INT8_INPUT_INT32_OUTPUT !! W_nbits) eqn:Hk; [|done].
    by apply int8_table_inv in Hk. }
  split_and!.
  - intros H1 H2. apply result_tag_raise. rewrite Hr.
    by rewrite !decide_False.
  - intros [[-> ->]|[-> ->]] Hn; apply result_tag_raise; rewrite Hr.
    + rewrite decide_True by done. unfold subscript. by rewrite Hfp.
    + rewrite decide_False by (intros [? ?]; done).
      rewrite decide_True by done. unfold subscript. by rewrite Hint.
  - intros [-> ->] Hn ->. apply result_tag_raise. rewrite Hr.
    rewrite decide_True by done. unfold subscript.
    by destruct (fp16_table_Some _ Hn) as [k ->].
  - intros [-> ->] Hn ->. apply result_tag_raise. rewrite Hr.
    rewrite decide_True by done. unfold subscript.
    by destruct (fp16_table_Some _ Hn) as [k ->].
  - intros g [-> ->] Hn -> Hg Hmod. apply result_tag_raise. rewrite Hr.
    rewrite decide_True by done. unfold subscript.
    destruct (fp16_table_Some _ Hn) as [k ->].
    cbn [mbind result_bind as_int opt_int]. unfold py_mod.
    rewrite decide_False by done. cbn [mbind result_bind].
    by rewrite decide_False.
  - intros [-> ->] Hn Hg. apply result_tag_raise. rewrite Hr.
    rewrite decide_False by (intros [? ?]; done).
    rewrite decide_True by done. unfold subscript.
    destruct (int8_table_Some _ Hn) as [k ->].
    cbn [mbind result_bind]. by rewrite decide_False.
Qed.

Lemma cuda_new_errors_witness :
  GemLiteLinearCUDA.new 4 (Some 128%Z) 128 128 FP16 INT32 None
  = Raise UnsupportedConfiguration
  ∧ GemLiteLinearCUDA.new 1 (Some 128%Z) 128 128 FP16 FP16 None
    = Raise (KeyError 1)
  ∧ GemLiteLinearCUDA.new 4 None 128 128 FP16 FP16 None
    = Raise (TypeError "unsupported operand type(s)")
  ∧ GemLiteLinearCUDA.new 4 (Some 0%Z) 128 128 FP16 FP16 None
    = Raise ZeroDivisionError
  ∧ GemLiteLinearCUDA.new 4 (Some 48%Z) 128 128 FP16 FP16 None
    = Raise UnsupportedConfiguration
  ∧ GemLiteLinearCUDA.new 4 (Some 128%Z) 128 128 INT8 INT32 None
    = Raise UnsupportedConfiguration.
Proof.
  split_and!.
  - destruct (cuda_new_errors 4 (Some 128%Z) 128 128 FP16 INT32 None)
      as (H & _).
    apply H; intros [? ?]; discriminate.
  - destruct (cuda_new_errors 1 (Some 128%Z) 128 128 FP16 FP16 None)
      as (_ & H & _).
    apply H; [left; split; reflexivity | lia].
  - destruct (cuda_new_errors 4 None 128 128 FP16 FP16 None)
      as (_ & _ & H & _).
    apply H; [split; reflexivity | lia | reflexivity].
  - destruct (cuda_new_errors 4 (Some 0%Z) 128 128 FP16 FP16 None)
      as (_ & _ & _ & H & _).
    apply H; [split; reflexivity | lia | reflexivity].
  - destruct (cuda_new_errors 4 (Some 48%Z) 128 128 FP16 FP16 None)
      as (_ & _ & _ & _ & H & _).
    apply (H 48%Z); [split; reflexivity | lia | reflexivity | lia |].
    vm_compute. discriminate.
  - destruct (cuda_new_errors 4 (Some 128%Z) 128 128 INT8 INT32 None)
      as (_ & _ & _ & _ & _ & H).
    apply H; [split; reflexivity | lia |].
    vm_compute. discriminate.
Defined.

(** X2. [GemLiteLinearCUDA.__init__] returns exactly when the bit-width is
    2, 4 or 8 and either the dtypes are FP16/FP16 with a non-zero group
    size dividing [in_features * out_features], or they are INT8/INT32
    with [group_size = in_features * out_features]. The operator it
    returns holds the kernel of its dtype's table for the bit-width; its
    [forward_raw] passes the scales, and [has_scales] and
    [zero_is_tensor] are set, exactly for FP16; [compute_dtype] is
    [float16] and [acc_dtype] is [None] whatever was passed; and no
    weights, scales, zero-points or bias are set yet. *)
Theorem cuda_new_returns W_nbits group_size in_features out_features idt odt acc :
  let new := GemLiteLinearCUDA.new W_nbits group_size in_features out_features
               idt odt acc in
  ((∃ self, new = Ok self) ↔
     (W_nbits = 2 ∨ W_nbits = 4 ∨ W_nbits = 8)%Z
     ∧ ((idt = FP16 ∧ odt = FP16
         ∧ ∃ g, group_size = Some g ∧ g ≠ 0%Z
                ∧ ((in_features * out_features) mod g = 0)%Z)
        ∨ (idt = INT8 ∧ odt = INT32
           ∧ group_size = Some (in_features * out_features)%Z)))
  ∧ (∀ self, new = Ok self →
       let table := if decide (idt = FP16)
                    then GEMLITE_GEMV_FP16_INPUT_FP16_OUTPUT
                    else GEMLITE_GEMV_INT8_INPUT_INT32_OUTPUT in
       let fp := bool_decide (idt = FP16) in
       (∃ k, table !! W_nbits = Some k
             ∧ self !! "kernel_fct" = Some (VKernel k))
       ∧ self !! "forward_raw" = Some (VLambda fp)
       ∧ self !! "has_scales" = Some (VBool fp)
       ∧ self !! "zero_is_tensor" = Some (VBool fp)
       ∧ self !! "group_size" = Some (opt_int group_size)
       ∧ self !! "compute_dtype" = Some (VTorchDtype float16)
       ∧ self !! "acc_dtype" = Some VNone
       ∧ self !! "W_q" = None ∧ self !! "scales" = None
       ∧ self !! "zeros" = None ∧ self !! "bias" = None).
Proof.
  intros new.
  destruct (cuda_new_outcome W_nbits group_size in_features out_features
              idt odt acc) as [Hr Hattrs].
  fold new in Hr, Hattrs. clearbody new.
  split.
  - split.
    + intros [self ->]. symmetry in Hr.
      case_decide as Hfp.
      * destruct Hfp as [-> ->]. unfold subscript in Hr.
        destruct (GEMLITE_GEMV_FP16_INPUT_FP16_OUTPUT !! W_nbits)
          as [k|] eqn:Hk; [|done].
        apply fp16_table_inv in Hk. split; [done|]. left.
        destruct group_size as [g|]; [|done].
        cbn [mbind result_bind as_int opt_int] in Hr. unfold py_mod in Hr.
        case_decide; [done|]. cbn [mbind result_bind] in Hr.
        case_decide; [|done]. eauto 10.
      * case_decide as Hint; [|done].
        destruct Hint as [-> ->]. unfold subscript in Hr.
        destruct (GEMLITE_GEMV_INT8_INPUT_INT32_OUTPUT !! W_nbits)
          as [k|] eqn:Hk; [|done].
        apply int8_table_inv in Hk. split; [done|]. right.
        cbn [mbind result_bind] in Hr. case_decide; [|done]. done.
    + intros [Hn Hcase]. apply result_tag_ok. rewrite Hr.
      destruct Hcase as [(-> & -> & g & -> & Hg & Hmod)|(-> & -> & ->)].
      * rewrite decide_True by done. unfold subscript.
        destruct (fp16_table_Some _ Hn) as [k ->].
        cbn [mbind result_bind as_int opt_int]. unfold py_mod.
        rewrite decide_False by done. cbn [mbind result_bind].
        by rewrite decide_True.
      * rewrite decide_False by (intros [? ?]; done).
        rewrite decide_True by done. unfold subscript.
        destruct (int8_table_Some _ Hn) as [k ->].
        cbn [mbind result_bind]. by rewrite decide_True.
  - intros self ->. cbv zeta in Hattrs. cbv zeta. tauto.
Qed.

Lemma cuda_new_returns_witness :
  ∃ self,
    GemLiteLinearCUDA.new 4 (Some 128%Z) 128 128 FP16 FP16 None = Ok self
    ∧ self !! "has_scales" = Some (VBool true)
    ∧ self !! "W_q" = None.
Proof.
  destruct (cuda_new_returns 4 (Some 128%Z) 128 128 FP16 FP16 None)
    as [[_ Hex] Hattrs].
  destruct Hex as [self Hself].
  { split; [lia|]. left. split_and!; [done..|].
    exists 128%Z. split_and!; [done|lia|reflexivity]. }
  exists self. split; [exact Hself|].
  apply Hattrs in Hself. cbv zeta in Hself.
  destruct Hself as (_ & _ & Hs & _ & _ & _ & _ & HW & _).
  split; [exact Hs | exact HW].
Defined.

(** ** What the constructor fixes for every instance *)

Lemma cuda_instance_config self :
  cuda_instance self →
  ∃ (fp : bool) n k o,
    self !! "threads_per_group" = None
    ∧ self !! "W_q_packed" = None
    ∧ self !! "W_nbits" = Some (VInt n)
    ∧ (n = 2 ∨ n = 4 ∨ n = 8)%Z
    ∧ self !! "has_scales" = Some (VBool fp)
    ∧ self !! "zero_is_tensor" = Some (VBool fp)
    ∧ self !! "forward_raw" = Some (VLambda fp)
    ∧ self !! "kernel_fct" = Some (VKernel k)
    ∧ (if fp then GEMLITE_GEMV_FP16_INPUT_FP16_OUTPUT
       else GEMLITE_GEMV_INT8_INPUT_INT32_OUTPUT) !! n = Some k
    ∧ self !! "input_dtype" = Some (VDType (if fp then FP16 else INT8))
    ∧ self !! "out_features" = Some (VInt o)
    ∧ self !! "compute_dtype" = Some (VTorchDtype float16).
Proof.
  induction 1 as [W_nbits group_size in_features out_features idt odt acc self Hnew
                 |self W_q scales zeros bias Hinst IH].
  - pose proof (cuda_new_inv _ _ _ _ _ _ _ _ Hnew) as ((HWp & Ht & n & Hn & Hsup) & _).
    destruct (cuda_new_outcome W_nbits group_size in_features out_features
                idt odt acc) as [Hr Hattrs].
    rewrite Hnew in Hr, Hattrs. cbv zeta in Hattrs.
    destruct Hattrs
      as ((k & Hk & Hkf) & Hhs & Hz & Hf & _ & Ho & HW & _ & Hi & _ & _ & Hcd & _).
    assert (n = W_nbits) as -> by congruence.
    assert (idt = FP16 ∨ idt = INT8) as Hidt.
    { symmetry in Hr.
      destruct (decide (idt = FP16 ∧ odt = FP16)) as [H1|H1]; [left; apply H1|].
      destruct (decide (idt = INT8 ∧ odt = INT32)) as [H2|H2]; [right; apply H2|].
      done. }
    exists (bool_decide (idt = FP16)), W_nbits, k, out_features.
    destruct Hidt as [-> | ->].
    + rewrite decide_True in Hk by done.
      rewrite bool_decide_eq_true_2 in * by done. by split_and!.
    + rewrite decide_False in Hk by done.
      rewrite bool_decide_eq_false_2 in * by done. by split_and!.
  - destruct IH as (fp & n & k & o & IH). exists fp, n, k, o.
    rewrite !(pack_assigns W_q scales zeros bias self)
      by (rewrite !elem_of_cons, elem_of_nil; intros H; destruct_or?; done).
    exact IH.
Qed.

(** ** [pack], statement by statement *)

(** The metadata half of [pack] on a store whose two flags agree, as they do
    on every instance, once [W_q] is assigned. *)
Lemma cuda_pack_metadata_run s (fp : bool) w d scales zeros bias :
  s !! "has_scales" = Some (VBool fp) →
  s !! "zero_is_tensor" = Some (VBool fp) →
  s !! "W_q" = Some w →
  s !! "compute_dtype" = Some (VTorchDtype d) →
  GemLiteLinearCUDA.pack_metadata scales zeros bias s
  = if negb (eqb fp (negb (is_none scales))) then
      (s, Raise (AssertionError "existence of scales did not match expectation"))
    else
      match (if fp then GemLiteLinearCUDA.tensor_or_wrap scales else Ok VNone) with
      | Raise e => (s, Raise e)
      | Ok vs =>
          let s2 := <["scales" := vs]> s in
          match (if fp then GemLiteLinearCUDA.tensor_or_wrap zeros
                 else if is_tensor zeros then Raise (AssertionError "")
                      else Ok (GemLiteLinearCUDA.value_of_pyarg zeros)) with
          | Raise e => (s2, Raise e)
          | Ok vz =>
              let s3 := <["zeros" := vz]> s2 in
              match bias with
              | PNum _ => (s3, Raise (AttributeError "to"))
              | PNone =>
                  (<["device" := VDevice]> (<["bias" := VNone]> s3), Ok tt)
              | PTensor t =>
                  (<["device" := VDevice]>
                     (<["bias" := VParameter (Some d) t]> s3), Ok tt)
              end
          end
      end.
Proof.
  intros Hhs Hz HW Hcd. unfold GemLiteLinearCUDA.pack_metadata.
  erewrite run_bind_getattr by eassumption. cbn beta.
  cbn [eq_bool].
  destruct fp, scales as [|qs|ts], zeros as [|qz|tz], bias as [|qb|tb];
    cbn [eqb negb is_none is_tensor GemLiteLinearCUDA.assert_
         GemLiteLinearCUDA.tensor_or_wrap GemLiteLinearCUDA.value_of_pyarg
         GemLiteLinearCUDA.bias_parameter];
    repeat first [ run_attr | progress cbn [as_bool negb] ];
    reflexivity.
Qed.

Lemma cuda_pack_run self n W scales zeros bias :
  self !! "threads_per_group" = None →
  self !! "W_nbits" = Some (VInt n) →
  GemLiteLinearCUDA.pack W scales zeros bias self
  = match GemLiteLinearCUDA.pack_W_q 32 n W with
    | Raise e => (self, Raise e)
    | Ok P =>
        GemLiteLinearCUDA.pack_metadata scales zeros bias
          (<["W_q" := VTensor P]> self)
    end.
Proof.
  intros Ht Hn. unfold GemLiteLinearCUDA.pack.
  do 3 run_attr. cbn [as_int]. do 3 run_attr. cbn [as_int]. run_attr.
  change GemLiteLinearCUDA.threads_per_group with 32%Z.
  destruct (GemLiteLinearCUDA.pack_W_q 32 n W) as [P|e]; [|done].
  by run_attr.
Qed.

(** X3. [GemLiteLinearCUDA.pack] on any instance, for codes whose weight
    part packs. On an FP16 operator it returns exactly when scales and
    zero-points are both given (tensor or number) and the bias is not a
    number; on an INT8 operator exactly when the scales are [None], the
    zero-point is not a tensor and the bias is not a number. When it
    returns, [W_q] holds the packed words; a scalar scale or (on FP16)
    zero-point [x] is stored as [torch.tensor([[x]], dtype=torch.float16)],
    a [1 x 1] float16 tensor, and a tensor as it is; the INT8 zero-point
    stays a number; a bias tensor is stored as a [Parameter] holding the
    bias converted to the compute dtype, float16; [device] is set. *)
Theorem cuda_pack_returns self n W P scales zeros bias :
  cuda_instance self →
  self !! "W_nbits" = Some (VInt n) →
  GemLiteLinearCUDA.pack_W_q 32 n W = Ok P →
  let r := GemLiteLinearCUDA.pack W scales zeros bias self in
  ∃ fp : bool,
    self !! "input_dtype" = Some (VDType (if fp then FP16 else INT8))
    ∧ (r.2 = Ok tt ↔
         (if fp then is_none scales = false ∧ is_none zeros = false
          else is_none scales = true ∧ is_tensor zeros = false)
         ∧ (∀ q, bias ≠ PNum q))
    ∧ (r.2 = Ok tt →
         r.1 !! "W_q" = Some (VTensor P)
         ∧ r.1 !! "scales"
           = Some (match scales with
                   | PNone => VNone
                   | PNum q => VScalarTensor float16 q
                   | PTensor t => VFTensor t
                   end)
         ∧ r.1 !! "zeros"
           = Some (match zeros with
                   | PNone => VNone
                   | PNum q => if fp then VScalarTensor float16 q else VNum q
                   | PTensor t => VFTensor t
                   end)
         ∧ r.1 !! "bias"
           = Some (match bias with
                   | PTensor t => VParameter (Some float16) t
                   | _ => VNone
                   end)
         ∧ r.1 !! "device" = Some VDevice).
Proof.
  intros Hinst HW HP r.
  destruct (cuda_instance_config self Hinst)
    as (fp & n' & k & o & Ht & _ & HW' & _ & Hhs & Hz & _ & _ & _ & Hi & _ & Hcd).
  exists fp. split; [exact Hi|].
  unfold r. clear r.
  rewrite (cuda_pack_run self n) by done. rewrite HP.
  rewrite (cuda_pack_metadata_run _ fp (VTensor P) float16) by lookup_attr.
  destruct fp, scales as [|qs|ts], zeros as [|qz|tz], bias as [|qb|tb];
    cbn [eqb negb is_none is_tensor GemLiteLinearCUDA.tensor_or_wrap
         GemLiteLinearCUDA.value_of_pyarg fst snd].
  all: split; [split|].
  all: try (intros [=]; fail).
  all: try (intros _; split; [split; reflexivity | congruence]).
  all: try (intros [[? ?] Hb];
            first [reflexivity | discriminate | exfalso; eapply Hb; reflexivity]).
  all: intros _; cbv zeta; split_and!; lookup_attr.
Qed.

Lemma cuda_pack_returns_witness :
  ∃ fp : bool,
    example_cuda !! "input_dtype" = Some (VDType (if fp then FP16 else INT8))
    ∧ (GemLiteLinearCUDA.pack example_codes (PNum 1%Q) (PNum 0%Q) PNone
         example_cuda).2 = Ok tt.
Proof.
  destruct (cuda_pack_returns example_cuda 8 example_codes example_packed
              (PNum 1%Q) (PNum 0%Q) PNone) as (fp & Hi & [_ Hok] & _).
  - exact example_cuda_instance.
  - reflexivity.
  - vm_compute. reflexivity.
  - exists fp. split; [exact Hi|]. apply Hok.
    assert (fp = true) as ->.
    { destruct fp; [reflexivity|]. vm_compute in Hi. discriminate Hi. }
    split; [split; reflexivity | intros q; discriminate].
Defined.

(** X4. Failures of [GemLiteLinearCUDA.pack] on any instance. If the
    weight part raises, [pack] raises the same exception and the operator
    is unchanged. If the weight part succeeds but the presence of scales
    does not match [has_scales], [pack] raises the assertion error after
    [W_q] has been replaced, and nothing else is assigned. *)
Theorem cuda_pack_failures self n W scales zeros bias :
  cuda_instance self →
  self !! "W_nbits" = Some (VInt n) →
  (∀ e, GemLiteLinearCUDA.pack_W_q 32 n W = Raise e →
        GemLiteLinearCUDA.pack W scales zeros bias self = (self, Raise e))
  ∧ (∀ P (fp : bool),
       GemLiteLinearCUDA.pack_W_q 32 n W = Ok P →
       self !! "has_scales" = Some (VBool fp) →
       fp = is_none scales →
       GemLiteLinearCUDA.pack W scales zeros bias self
       = (<["W_q" := VTensor P]> self,
          Raise (AssertionError "existence of scales did not match expectation"))).
Proof.
  intros Hinst HW.
  destruct (cuda_instance_config self Hinst)
    as (fp & n' & k & o & Ht & _ & HW' & _ & Hhs & Hz & _ & _ & _ & _ & _ & Hcd).
  split.
  - intros e He. rewrite (cuda_pack_run self n) by done. by rewrite He.
  - intros P fp' HP Hhs' ->. rewrite (cuda_pack_run self n) by done. rewrite HP.
    assert (fp = is_none scales) as -> by congruence.
    rewrite (cuda_pack_metadata_run _ (is_none scales) (VTensor P) float16)
      by lookup_attr.
    by destruct (is_none scales).
Qed.

Lemma cuda_pack_failures_witness :
  GemLiteLinearCUDA.pack example_codes PNone (PNum 0%Q) PNone example_cuda
  = (<["W_q" := VTensor example_packed]> example_cuda,
     Raise (AssertionError "existence of scales did not match expectation")).
Proof.
  destruct (cuda_pack_failures example_cuda 8 example_codes PNone (PNum 0%Q) PNone)
    as [_ H].
  - exact example_cuda_instance.
  - reflexivity.
  - apply (H example_packed true).
    + vm_compute. reflexivity.
    + reflexivity.
    + reflexivity.
Defined.

(** ** [unpack] on what [pack] stored *)

(** X5. Round trip of Layout A through the methods. After [pack] on any
    instance, with valid codes of a size that tiles, let [P] be what
    [self.W_q] holds. Once [self.W_q_packed] is bound to [P],
    [unpack(_, dtype)] returns, whatever its first argument, the
    zero-padded codes, each stored with the element type [dtype], and
    leaves the operator as it is. With [uint8] (the default), [int16],
    [int32], [int64] and the floating-point types, and with [int8] below
    8 bits, every code is stored as it is and the result is the padded
    codes; [int8] at 8 bits and [bool] change codes. When the row length
    is a multiple of [32 / W_nbits] the padded codes are the codes. *)
Theorem cuda_pack_unpack_roundtrip self n W scales zeros bias dtype any :
  cuda_instance self →
  self !! "W_nbits" = Some (VInt n) →
  wf_tensor W →
  (∀ x, x ∈ data W → (0 ≤ x < 2 ^ n)%Z) →
  let k := Z.to_nat (32 / n) in
  let pc := padded_cols k (ncols W) in
  (nrows W * pc) mod (32 * k) = 0 →
  let self' := (GemLiteLinearCUDA.pack W scales zeros bias self).1 in
  let stored := Tensor (nrows W) pc
                  (GemLiteLinearCUDA.cast_to dtype <$> data (padded W pc)) in
  ∃ P,
    self' !! "W_q" = Some (VTensor P)
    ∧ GemLiteLinearCUDA.unpack any dtype (<["W_q_packed" := VTensor P]> self')
      = (<["W_q_packed" := VTensor P]> self', Ok stored)
    ∧ ((dtype = int8 → (n < 8)%Z) → dtype ≠ torch_bool → stored = padded W pc)
    ∧ GemLiteLinearCUDA.cast_to int8 200 = (-56)%Z
    ∧ GemLiteLinearCUDA.cast_to torch_bool 200 = 1%Z
    ∧ (ncols W mod k = 0 → padded W pc = W).
Proof.
  intros Hinst HW Hwf Hcodes k pc Htile self' stored.
  destruct (cuda_instance_config self Hinst)
    as (fp & n' & kf & o & Ht & _ & HW' & Hn & _).
  assert (n' = n) as -> by congruence.
  assert ((0 < n)%Z ∧ (n ≤ 8)%Z ∧ (n * Z.of_nat k = 32)%Z) as (Hn0 & Hn8 & Hnk).
  { unfold k. destruct Hn as [->|[->| ->]]; by vm_compute. }
  destruct (cuda_unpack_W_q_cast n k W dtype Hn0 Hnk Hwf Hcodes Htile)
    as (P & HP & Hun).
  exists P.
  assert (HWq : self' !! "W_q" = Some (VTensor P))
    by (by apply (cuda_pack_stores_W_q self n)).
  assert (Hframe : ∀ name, name ∉ ["W_q"; "scales"; "zeros"; "bias"; "device"] →
                           self' !! name = self !! name)
    by (intros name; apply pack_assigns).
  assert (Ht' : self' !! "threads_per_group" = None).
  { rewrite Hframe; [done|].
    rewrite !elem_of_cons, elem_of_nil. intros H; destruct_or?; done. }
  assert (HW'' : self' !! "W_nbits" = Some (VInt n)).
  { rewrite Hframe; [done|].
    rewrite !elem_of_cons, elem_of_nil. intros H; destruct_or?; done. }
  split_and!; [done| | |done|done|].
  - unfold GemLiteLinearCUDA.unpack.
    do 3 run_attr. cbn [as_int]. do 3 run_attr. cbn [as_int]. run_attr.
    unfold py_floordiv. rewrite decide_False by lia.
    do 3 run_attr. cbn [as_tensor]. unfold lift.
    change GemLiteLinearCUDA.threads_per_group with 32%Z.
    by rewrite Hun.
  - intros H8 Hb.
    destruct (cuda_unpack_W_q_pack_W_q n k W dtype Hn0 Hn8 Hnk H8 Hb Hwf
                Hcodes Htile) as (P' & HP' & Hun').
    assert (P' = P) as -> by congruence.
    fold pc in Hun, Hun'. unfold stored. congruence.
  - intros Hmod. unfold pc, padded_cols, cdiv_nat.
    assert (0 < k) by (destruct k; lia).
    replace (k * ((ncols W + k - 1) / k)) with (ncols W); [by apply padded_id|].
    apply Nat.Div0.div_exact in Hmod.
    rewrite Hmod at 2.
    replace (k * (ncols W / k) + k - 1) with ((k - 1) + (ncols W / k) * k) by lia.
    rewrite Nat.div_add by lia. rewrite (Nat.div_small (k - 1)) by lia. lia.
Qed.

Lemma cuda_pack_unpack_roundtrip_witness :
  ∃ P,
    (GemLiteLinearCUDA.pack example_codes example_meta example_meta PNone
       example_cuda).1 !! "W_q" = Some (VTensor P)
    ∧ (GemLiteLinearCUDA.unpack example_codes uint8
         (<["W_q_packed" := VTensor P]>
            (GemLiteLinearCUDA.pack example_codes example_meta example_meta
               PNone example_cuda).1)).2
      = Ok (padded example_codes 128).
Proof.
  destruct (cuda_pack_unpack_roundtrip example_cuda 8 example_codes
              example_meta example_meta PNone uint8 example_codes)
    as (P & HP & Hun & Hid & _).
  - exact example_cuda_instance.
  - reflexivity.
  - reflexivity.
  - intros x Hx. vm_compute in Hx.
    repeat (apply elem_of_cons in Hx as [->|Hx]; [lia|]).
    by apply elem_of_nil in Hx.
  - reflexivity.
  - exists P. split; [exact HP|].
    specialize (Hid ltac:(discriminate) ltac:(discriminate)).
    rewrite Hun. cbn [snd]. rewrite Hid. reflexivity.
Defined.

(** ** What the methods leave alone *)

Lemma assigns_nothing {A} (m : method A) self :
  assigns_only [] m → (m self).1 = self.
Proof.
  intros Hm. apply map_eq. intros name. apply Hm, not_elem_of_nil.
Qed.

Lemma unpack_assigns W_q_packed dtype :
  assigns_only [] (GemLiteLinearCUDA.unpack W_q_packed dtype).
Proof. unfold GemLiteLinearCUDA.unpack. repeat assigns_step. Qed.

Lemma forward_assigns x_shape :
  assigns_only [] (CUDAForward.forward x_shape).
Proof.
  unfold CUDAForward.forward, CUDAForward.forward_raw. repeat assigns_step.
Qed.

(** X6. What the methods of [GemLiteLinearCUDA] leave alone: [pack] assigns
    no attribute other than [W_q], [scales], [zeros], [bias] and [device];
    [unpack] and [forward] assign none, whether they return or raise. *)
Theorem cuda_methods_frame self :
  (∀ W scales zeros bias name,
     name ∉ ["W_q"; "scales"; "zeros"; "bias"; "device"] →
     (GemLiteLinearCUDA.pack W scales zeros bias self).1 !! name = self !! name)
  ∧ (∀ W_q_packed dtype,
       (GemLiteLinearCUDA.unpack W_q_packed dtype self).1 = self)
  ∧ (∀ x_shape, (CUDAForward.forward x_shape self).1 = self).
Proof.
  split_and!.
  - intros W scales zeros bias name Hname. by apply pack_assigns.
  - intros W_q_packed dtype. apply assigns_nothing, unpack_assigns.
  - intros x_shape. apply assigns_nothing, forward_assigns.
Qed.

Lemma cuda_methods_frame_witness :
  (GemLiteLinearCUDA.pack example_codes PNone PNone PNone example_cuda).1
    !! "kernel_fct"
  = example_cuda !! "kernel_fct".
Proof.
  destruct (cuda_methods_frame example_cuda) as (H & _).
  apply H. rewrite !elem_of_cons, elem_of_nil.
  intros Hn; destruct_or?; discriminate.
Defined.

(** ** [forward] *)

Lemma cuda_pack_ok_store self W scales zeros bias :
  cuda_instance self →
  (GemLiteLinearCUDA.pack W scales zeros bias self).2 = Ok tt →
  ∃ P vs vz,
    (GemLiteLinearCUDA.pack W scales zeros bias self).1
    = <["device" := VDevice]>
        (<["bias" := match bias with
                     | PTensor t => VParameter (Some float16) t
                     | _ => VNone
                     end]>
           (<["zeros" := vz]>
              (<["scales" := vs]> (<["W_q" := VTensor P]> self)))).
Proof.
  intros Hinst.
  destruct (cuda_instance_config self Hinst)
    as (fp & n & k & o & Ht & _ & HW & _ & Hhs & Hz & _ & _ & _ & _ & _ & Hcd).
  rewrite (cuda_pack_run self n) by done.
  destruct (GemLiteLinearCUDA.pack_W_q 32 n W) as [P|e]; [|done].
  rewrite (cuda_pack_metadata_run _ fp (VTensor P) float16) by lookup_attr.
  destruct (negb _); [done|].
  destruct (if fp then _ else _) as [vs|]; [|done].
  cbv zeta.
  destruct (if fp then _ else _) as [vz|]; [|done].
  destruct bias as [|q|t]; [|done|]; intros _; by exists P, vs, vz.
Qed.

Lemma kernel_output_table (fp : bool) n k :
  (if fp then GEMLITE_GEMV_FP16_INPUT_FP16_OUTPUT
   else GEMLITE_GEMV_INT8_INPUT_INT32_OUTPUT) !! n = Some k →
  kernel_output k = if fp then float16 else int32.
Proof.
  intros Hk. destruct fp.
  - pose proof (fp16_table_inv _ _ Hk) as [->|[->| ->]];
      vm_compute in Hk; injection Hk as <-; reflexivity.
  - pose proof (int8_table_inv _ _ Hk) as [->|[->| ->]];
      vm_compute in Hk; injection Hk as <-; reflexivity.
Qed.

(** X7. [GemLiteLinearCUDA.forward] on any instance and any input with a
    valid 2-D view. While no weights are stored it raises
    [AttributeError] for [W_q]. After a [pack] that returned, it calls the
    kernel of the operator's dtype table for its bit-width on the
    [(rows, cols)] view, passes the scales exactly on an FP16 operator,
    and leaves the operator unchanged. The kernel having returned: with
    no bias the output has shape [x.shape[:-1] + (out_features,)]; with a
    bias on an FP16 operator the call returns that shape when the bias
    broadcasts to it and raises [RuntimeError] when it does not; with a
    bias on an INT8 operator the in-place addition of the float16 bias to
    the int32 output raises [RuntimeError]. *)
Theorem cuda_forward_outcomes self x_shape rows cols :
  cuda_instance self →
  GemLiteLinearTriton.view_2d x_shape = Ok (rows, cols) →
  (self !! "W_q" = None →
     CUDAForward.forward x_shape self = (self, Raise (AttributeError "W_q")))
  ∧ (∀ W scales zeros bias,
       let r := GemLiteLinearCUDA.pack W scales zeros bias self in
       r.2 = Ok tt →
       ∃ (fp : bool) n k o,
         self !! "input_dtype" = Some (VDType (if fp then FP16 else INT8))
         ∧ self !! "W_nbits" = Some (VInt n)
         ∧ (if fp then GEMLITE_GEMV_FP16_INPUT_FP16_OUTPUT
            else GEMLITE_GEMV_INT8_INPUT_INT32_OUTPUT) !! n = Some k
         ∧ self !! "out_features" = Some (VInt o)
         ∧ let out_shape := (Z.of_nat <$> removelast x_shape) ++ [o] in
           let returns := Ok (CudaCall k (rows, cols) fp, out_shape) in
           CUDAForward.forward x_shape r.1
           = (r.1,
              match bias with
              | PTensor t =>
                  if negb fp then
                    Raise (RuntimeError
                             "result type can't be cast to the desired output type")
                  else if broadcasts_to (Z.of_nat <$> fshape t) out_shape
                  then returns
                  else Raise (RuntimeError
                                "the bias does not broadcast to the output")
              | _ => returns
              end)).
Proof.
  intros Hinst Hview.
  destruct (cuda_instance_config self Hinst)
    as (fp & n & k & o & Ht & _ & HW & _ & Hhs & Hz & Hf & Hkf & Hk & Hi & Ho & _).
  split.
  - intros HWq. unfold CUDAForward.forward.
    do 3 run_attr. cbn [as_int]. cbv zeta. do 2 run_attr. rewrite Hview.
    by run_attr.
  - intros W scales zeros bias r Hok. exists fp, n, k, o.
    split_and!; try done.
    destruct (cuda_pack_ok_store self W scales zeros bias Hinst Hok)
      as (P & vs & vz & Hstore).
    unfold r. rewrite Hstore.
    unfold CUDAForward.forward.
    do 3 run_attr. cbn [as_int]. cbv zeta. do 2 run_attr. rewrite Hview.
    do 3 run_attr. unfold CUDAForward.forward_raw.
    do 4 run_attr. cbn [call_kernel].
    rewrite (kernel_output_table fp n k Hk).
    destruct bias as [|q|t]; cbn [CUDAForward.iadd_bias];
      [by run_attr|by run_attr|].
    unfold CUDAForward.iadd_tensor.
    destruct fp; cbn [is_floating negb]; [|by run_attr].
    destruct (broadcasts_to _ _); by run_attr.
Qed.

Lemma cuda_forward_outcomes_witness :
  CUDAForward.forward [1; 128] example_cuda
  = (example_cuda, Raise (AttributeError "W_q"))
  ∧ (CUDAForward.forward [1; 128]
       (GemLiteLinearCUDA.pack example_codes example_meta example_meta
          (PTensor (FTensor [3] [1%Q; 1%Q; 1%Q])) example_cuda).1).2
    = Raise (RuntimeError "the bias does not broadcast to the output").
Proof.
  destruct (cuda_forward_outcomes example_cuda [1; 128] 1 128) as [H1 H2].
  - exact example_cuda_instance.
  - reflexivity.
  - split; [apply H1; reflexivity|].
    destruct (H2 example_codes example_meta example_meta
                (PTensor (FTensor [3] [1%Q; 1%Q; 1%Q])))
      as (fp & n & k & o & Hi & _ & _ & Ho & Hfw).
    + destruct (GemLiteLinearCUDA.pack example_codes example_meta example_meta
                  (PTensor (FTensor [3] [1%Q; 1%Q; 1%Q])) example_cuda)
        as [s r] eqn:Hp.
      apply (f_equal snd) in Hp. vm_compute in Hp. rewrite <- Hp. reflexivity.
    + cbv zeta in Hfw. rewrite Hfw. cbn [snd].
      assert (fp = true) as ->.
      { destruct fp; [reflexivity|]. vm_compute in Hi. discriminate Hi. }
      assert (o = 1%Z) as ->.
      { vm_compute in Ho. congruence. }
      reflexivity.
Defined.

(** ** When the weight part of [pack] returns *)

Lemma pack_loop_shape n T k q :
  ncols T = 32 →
  ∀ is_ shift acc,
    nrows acc = q → ncols acc = 32 → length (data acc) = q * 32 →
    (∃ acc', GemLiteLinearCUDA.pack_loop n T k is_ shift acc = Ok acc'
             ∧ nrows acc' = q ∧ ncols acc' = 32
             ∧ length (data acc') = q * 32)
    ∨ ∃ msg, GemLiteLinearCUDA.pack_loop n T k is_ shift acc
             = Raise (RuntimeError msg).
Proof.
  intros HT. induction is_ as [|i is_ IH]; intros shift acc Hr Hc Hl.
  - left. by exists acc.
  - cbn [GemLiteLinearCUDA.pack_loop].
    set (u := lshift (rows_step T i k) (shift - n)%Z).
    assert (Hu : length (data u) = nrows u * 32).
    { unfold u. rewrite lshift_length. unfold rows_step.
      rewrite tabulate_length. cbn [nrows lshift tabulate]. by rewrite HT. }
    unfold ior_.
    case_decide as H1.
    + cbn [mbind result_bind]. apply IH; cbn [nrows ncols data]; try done.
      rewrite length_zip_with, Hu.
      destruct H1 as [_ H1]. rewrite H1. lia.
    + case_decide as H2.
      * cbn [mbind result_bind]. apply IH.
        -- by cbn.
        -- by cbn.
        -- rewrite tabulate_length. by rewrite Hr, Hc.
      * right. cbn [mbind result_bind]. eauto.
Qed.

(** X8. When the weight part of [GemLiteLinearCUDA.pack] returns. For a
    bit-width [n] with [n * k = 32] and codes of shape [(rows, cols)],
    with [pc] the row length padded to a multiple of [k]: if
    [rows * pc] is a multiple of [32 * k] the packing returns a tensor of
    shape [(rows, ceil(cols / k))]; otherwise it raises a [RuntimeError],
    from a reshape or from the in-place OR of slices of unequal length. *)
Theorem cuda_pack_W_q_total n k W :
  (0 < n)%Z → (n * Z.of_nat k = 32)%Z → wf_tensor W →
  let pc := padded_cols k (ncols W) in
  ((nrows W * pc) mod (32 * k) = 0 →
     ∃ P, GemLiteLinearCUDA.pack_W_q 32 n W = Ok P
          ∧ nrows P = nrows W ∧ ncols P = cdiv_nat (ncols W) k)
  ∧ ((nrows W * pc) mod (32 * k) ≠ 0 →
     ∃ msg, GemLiteLinearCUDA.pack_W_q 32 n W = Raise (RuntimeError msg)).
Proof.
  intros Hn Hnk Hwf pc. split.
  - intros Htile.
    destruct (cuda_pack_W_q_spec n k Hn Hnk W Hwf Htile) as (P & HP & Hr & Hc & _).
    by exists P.
  - intros Htile.
    assert (Hk : 0 < k) by (destruct k; lia).
    assert (Hstep : (32 / n)%Z = Z.of_nat k).
    { rewrite <- Hnk, Z.mul_comm. apply Z.div_mul. lia. }
    unfold GemLiteLinearCUDA.pack_W_q, py_floordiv.
    rewrite decide_False by lia. cbn [mbind result_bind].
    rewrite Hstep, pad_amount_spec by done. cbn [mbind result_bind].
    rewrite pad_step_spec by done. fold pc.
    unfold reshape_tiles, numel. rewrite padded_length.
    change (Z.to_nat 32) with 32.
    rewrite decide_False by lia.
    case_decide as H32; [|cbn [mbind result_bind]; eauto].
    cbn [mbind result_bind].
    unfold GemLiteLinearCUDA.slice_step. rewrite decide_True by lia.
    cbn [mbind result_bind]. rewrite Nat2Z.id.
    set (R := nrows W * pc / 32).
    assert (HR : nrows W * pc = 32 * R).
    { unfold R. by apply Nat.Div0.div_exact. }
    set (T := Tensor R 32 (data (padded W pc))).
    set (acc0 := lshift (rows_step T 0 k) (32 - n)%Z).
    destruct (pack_loop_shape n T k (nrows acc0) eq_refl (seq 1 (k - 1))
                (32 - n)%Z acc0 eq_refl eq_refl)
      as [(acc & -> & Hr & Hc & Hl)|(msg & ->)].
    { unfold acc0. rewrite lshift_length. unfold rows_step.
      by rewrite tabulate_length. }
    + cbn [mbind result_bind fst snd nrows ncols padded].
      unfold reshape, numel. rewrite Hl.
      case_decide as Heq; [|eauto].
      exfalso. apply Htile.
      assert (Hpc : pc = k * (pc / k)).
      { unfold pc, padded_cols. rewrite (Nat.mul_comm k), Nat.div_mul by lia. lia. }
      assert (HRk : R = k * nrows acc0) by nia.
      rewrite HR, HRk.
      replace (32 * (k * nrows acc0)) with (nrows acc0 * (32 * k)) by lia.
      apply Nat.Div0.mod_mul.
    + cbn [mbind result_bind]. eauto.
Qed.

Lemma cuda_pack_W_q_total_witness :
  (∃ P, GemLiteLinearCUDA.pack_W_q 32 8 example_codes = Ok P
        ∧ nrows P = 1 ∧ ncols P = 32)
  ∧ ∃ msg, GemLiteLinearCUDA.pack_W_q 32 8 (Tensor 1 100 (replicate 100 1%Z))
           = Raise (RuntimeError msg).
Proof.
  split.
  - destruct (cuda_pack_W_q_total 8 4 example_codes) as [H _];
      [lia | lia | reflexivity |].
    apply H. reflexivity.
  - destruct (cuda_pack_W_q_total 8 4 (Tensor 1 100 (replicate 100 1%Z)))
      as [_ H]; [lia | lia | reflexivity |].
    apply H. vm_compute. discriminate.
Defined.

(** C6 as stated does not hold for every valid code tensor:
    [GemLiteLinearCUDA(8, 1, 100, 1)] is constructed, and for eight-bit
    codes of shape [(1, 100)], whose row length is a multiple of [k = 4]
    but whose size is not a multiple of 32, [pack] raises at
    [reshape(-1, 32)], stores no [W_q] and leaves the operator as it
    was. *)
Lemma cuda_pack_layout_untiled :
  let codes := Tensor 1 100 ((λ p, Z.of_nat ((p * 37 + 200) mod 256)) <$> seq 0 100) in
  ∃ self,
    GemLiteLinearCUDA.new 8 (Some 1%Z) 100 1 FP16 FP16 None = Ok self
    ∧ (∀ x, x ∈ data codes → (0 ≤ x < 2 ^ 8)%Z)
    ∧ GemLiteLinearCUDA.pack codes example_meta example_meta PNone self
      = (self, Raise (RuntimeError "shape is invalid for input size"))
    ∧ self !! "W_q" = None.
Proof.
  intros codes.
  destruct (GemLiteLinearCUDA.new 8 (Some 1%Z) 100 1 FP16 FP16 None)
    as [self|e] eqn:Hnew; [|vm_compute in Hnew; discriminate Hnew].
  exists self. split; [reflexivity|].
  pose proof (cuda_new_inv _ _ _ _ _ _ _ _ Hnew) as ((_ & Ht & _) & HW & _).
  destruct (cuda_new_outcome 8 (Some 1%Z) 100 1 FP16 FP16 None) as [_ Hattrs].
  rewrite Hnew in Hattrs. cbv zeta in Hattrs.
  split_and!.
  - intros x Hx. apply list_elem_of_fmap in Hx as (p & -> & _).
    pose proof (Nat.mod_upper_bound (p * 37 + 200) 256 ltac:(lia)).
    change (2 ^ 8)%Z with 256%Z. lia.
  - rewrite (cuda_pack_run self 8) by done.
    assert (GemLiteLinearCUDA.pack_W_q 32 8 codes
            = Raise (RuntimeError "shape is invalid for input size")) as ->
      by (vm_compute; reflexivity).
    reflexivity.
  - tauto.
Qed.

(** * More on the Triton operator *)

(** ** The constructor past its first two checks *)

(** X9. [GemLiteLinearTriton.__init__] past the bit-width and shape checks.
    A dtype pair other than FP16/FP16 and BF16/BF16 raises the settings
    error with nothing allocated. With a supported pair, an effective
    group size of zero ([group_size=0], or [None] with [in_features = 0])
    raises [ZeroDivisionError] with nothing allocated. With a positive
    effective group size the constructor returns after registering the
    three buffers, [W_q], [scales], [zeros], in this order; FP16 gets the
    GEMM and GEMV kernels and [float16], BF16 the GEMM kernel only and
    [bfloat16]; the accumulator is [tl.float16] exactly for
    [acc_dtype=FP16] or, when it is [None], for FP16; [bias] is unset. *)
Theorem triton_init_outcome W_nbits group_size in_features out_features idt odt acc :
  let init := GemLiteLinearTriton.__init__ W_nbits group_size in_features
                out_features idt odt acc in
  let g := default in_features group_size in
  W_nbits ∈ [1; 2; 4; 8]%Z →
  (in_features mod 128 = 0)%Z → (out_features mod 128 = 0)%Z →
  (¬ (idt = FP16 ∧ odt = FP16) → ¬ (idt = BF16 ∧ odt = BF16) →
     init = ([], Raise (NotImplementedError "Unsupport settings: ")))
  ∧ ((idt = FP16 ∧ odt = FP16) ∨ (idt = BF16 ∧ odt = BF16) → g = 0%Z →
     init = ([], Raise ZeroDivisionError))
  ∧ ((idt = FP16 ∧ odt = FP16) ∨ (idt = BF16 ∧ odt = BF16) →
     (0 < g)%Z → (0 ≤ in_features)%Z → (0 ≤ out_features)%Z →
     let W_q_shape := (Z.to_nat (in_features / 32 * W_nbits),
                       Z.to_nat out_features) in
     let meta_shape := (Z.to_nat ((in_features + g - 1) / g),
                        Z.to_nat out_features) in
     ∃ self,
       init = ([EvAlloc "W_q" W_q_shape; EvAlloc "scales" meta_shape;
                EvAlloc "zeros" meta_shape], Ok self)
       ∧ GemLiteLinearTriton.kernels self
         = (if decide (idt = FP16)
            then [gemm_A16fWnO16f_int32packing; gemv_A16fWnO16f_int32packing]
            else [gemm_A16fWnO16f_int32packing])
       ∧ GemLiteLinearTriton.compute_dtype self
         = (if decide (idt = FP16) then float16 else bfloat16)
       ∧ GemLiteLinearTriton.acc_dtype self
         = match acc with
           | None => if decide (idt = FP16) then tl_float16 else tl_float32
           | Some FP16 => tl_float16
           | Some _ => tl_float32
           end
       ∧ GemLiteLinearTriton.input_dtype self = idt
       ∧ GemLiteLinearTriton.group_size self = g
       ∧ GemLiteLinearTriton.elements_per_sample self = (32 / W_nbits)%Z
       ∧ GemLiteLinearTriton.unpack_mask self = (2 ^ W_nbits - 1)%Z
       ∧ GemLiteLinearTriton.signature self
         = (in_features, out_features, W_nbits, group_size)
       ∧ GemLiteLinearTriton.W_q self = Meta W_q_shape
       ∧ GemLiteLinearTriton.scales self = Meta meta_shape
       ∧ GemLiteLinearTriton.zeros self = Meta meta_shape
       ∧ GemLiteLinearTriton.bias self = None).
Proof.
  intros init g Hn Hi Ho. unfold init, g. clear init g.
  assert (Hnn : (1 ≤ W_nbits)%Z) by (apply supported_bits_cases in Hn; lia).
  ctor_unfold.
  rewrite (bool_decide_eq_true_2 _ Hn), (bool_decide_eq_true_2 _ Hi),
    (bool_decide_eq_true_2 _ Ho). cbn [negb orb].
  split_and!.
  - intros H1 H2. by rewrite !decide_False.
  - intros Hdt Hg. rewrite Hg.
    destruct Hdt as [[-> ->]|[-> ->]]; ctor_cases; try done; tauto.
  - intros Hdt Hg Hin Hout.
    assert (0 ≤ in_features / 32 * W_nbits)%Z
      by (apply Z.mul_nonneg_nonneg; [apply Z.div_pos|]; lia).
    assert (0 ≤ (in_features + default in_features group_size - 1)
                / default in_features group_size)%Z
      by (apply Z.div_pos; lia).
    destruct Hdt as [[-> ->]|[-> ->]]; destruct acc as [[]|];
      ctor_cases; unfold id in *;
      try lia; try tauto; try (destruct_and?; done);
      (eexists; split_and!; reflexivity).
Qed.

Lemma triton_init_outcome_witness :
  GemLiteLinearTriton.__init__ 4 (Some 128%Z) 128 128 FP16 BF16 None
  = ([], Raise (NotImplementedError "Unsupport settings: "))
  ∧ GemLiteLinearTriton.__init__ 4 None 0 128 FP16 FP16 None
    = ([], Raise ZeroDivisionError)
  ∧ ∃ self,
      GemLiteLinearTriton.__init__ 4 None 256 128 BF16 BF16 None
      = ([EvAlloc "W_q" (32, 128); EvAlloc "scales" (1, 128);
          EvAlloc "zeros" (1, 128)], Ok self)
      ∧ GemLiteLinearTriton.kernels self = [gemm_A16fWnO16f_int32packing].
Proof.
  assert (Hn : (4 ∈ [1; 2; 4; 8])%Z) by (apply supported_bits_cases; lia).
  split_and!.
  - destruct (triton_init_outcome 4 (Some 128%Z) 128 128 FP16 BF16 None Hn)
      as (H & _); [reflexivity | reflexivity |].
    apply H; intros [? ?]; discriminate.
  - destruct (triton_init_outcome 4 None 0 128 FP16 FP16 None Hn)
      as (_ & H & _); [reflexivity | reflexivity |].
    apply H; [left; split; reflexivity | reflexivity].
  - destruct (triton_init_outcome 4 None 256 128 BF16 BF16 None Hn)
      as (_ & _ & H); [reflexivity | reflexivity |].
    destruct H as (self & Hself & Hk & _);
      [right; split; reflexivity | reflexivity | lia | lia |].
    exists self. split; [exact Hself | exact Hk].
Defined.

(** ** A missing group size against an explicit one *)

(** X10. [group_size=None] against [group_size=in_features]. If
    [GemLiteLinearTriton(W_nbits, None, in_features, ...)] is constructed,
    so is the operator with [group_size=in_features]; the two agree on
    every attribute, [self.group_size] included, except [signature], whose
    last component is [None] for the one and [in_features] for the other:
    for the same input they use different cache keys. *)
Theorem triton_default_group_size W_nbits in_features out_features idt odt acc s1 :
  GemLiteLinearTriton.new W_nbits None in_features out_features idt odt acc
    = Ok s1 →
  ∃ s2,
    GemLiteLinearTriton.new W_nbits (Some in_features) in_features
      out_features idt odt acc = Ok s2
    ∧ GemLiteLinearTriton.group_size s1 = in_features
    ∧ GemLiteLinearTriton.signature s1
      = (in_features, out_features, W_nbits, None)
    ∧ s2 = GemLiteLinearTriton.Self
             (GemLiteLinearTriton._SUPPORTED_BITS_TRITON s1)
             (GemLiteLinearTriton.in_features s1)
             (GemLiteLinearTriton.out_features s1)
             (GemLiteLinearTriton.orig_shape s1)
             (GemLiteLinearTriton.W_nbits s1)
             (GemLiteLinearTriton.group_size s1)
             (GemLiteLinearTriton.unpack_mask s1)
             (GemLiteLinearTriton.elements_per_sample s1)
             (in_features, out_features, W_nbits, Some in_features)
             (GemLiteLinearTriton.input_dtype s1)
             (GemLiteLinearTriton.output_dtype s1)
             (GemLiteLinearTriton.compute_dtype s1)
             (GemLiteLinearTriton.kernels s1)
             (GemLiteLinearTriton.acc_dtype s1)
             (GemLiteLinearTriton.W_q s1)
             (GemLiteLinearTriton.scales s1)
             (GemLiteLinearTriton.zeros s1)
             (GemLiteLinearTriton.bias s1)
             (GemLiteLinearTriton.device s1)
    ∧ ∀ x_shape,
        GemLiteLinearTriton._signature s1 x_shape
        ≠ GemLiteLinearTriton._signature s2 x_shape.
Proof.
  intros H1.
  assert (∃ s2,
    GemLiteLinearTriton.new W_nbits (Some in_features) in_features
      out_features idt odt acc = Ok s2
    ∧ GemLiteLinearTriton.group_size s1 = in_features
    ∧ GemLiteLinearTriton.signature s1
      = (in_features, out_features, W_nbits, None)
    ∧ s2 = GemLiteLinearTriton.Self
             (GemLiteLinearTriton._SUPPORTED_BITS_TRITON s1)
             (GemLiteLinearTriton.in_features s1)
             (GemLiteLinearTriton.out_features s1)
             (GemLiteLinearTriton.orig_shape s1)
             (GemLiteLinearTriton.W_nbits s1)
             (GemLiteLinearTriton.group_size s1)
             (GemLiteLinearTriton.unpack_mask s1)
             (GemLiteLinearTriton.elements_per_sample s1)
             (in_features, out_features, W_nbits, Some in_features)
             (GemLiteLinearTriton.input_dtype s1)
             (GemLiteLinearTriton.output_dtype s1)
             (GemLiteLinearTriton.compute_dtype s1)
             (GemLiteLinearTriton.kernels s1)
             (GemLiteLinearTriton.acc_dtype s1)
             (GemLiteLinearTriton.W_q s1)
             (GemLiteLinearTriton.scales s1)
             (GemLiteLinearTriton.zeros s1)
             (GemLiteLinearTriton.bias s1)
             (GemLiteLinearTriton.device s1)) as (s2 & H2 & Hg & Hs & Heq).
  { revert H1. ctor_unfold. cbn [default].
    destruct (bool_decide (W_nbits ∈ _)); cbn [negb]; [|discriminate].
    destruct (bool_decide (in_features mod 128 = 0)%Z); cbn [negb orb];
      [|discriminate].
    destruct (bool_decide (out_features mod 128 = 0)%Z); cbn [negb orb];
      [|discriminate].
    ctor_cases; try discriminate;
      try (exfalso; unfold id in *;
           first [lia | tauto | (destruct_and?; congruence)]);
      intros [= <-]; eexists; split_and!; reflexivity. }
  exists s2. split_and!; try done.
  intros x_shape. unfold GemLiteLinearTriton._signature.
  rewrite Hs, Heq. cbn [GemLiteLinearTriton.signature]. congruence.
Qed.

Lemma triton_default_group_size_witness :
  ∃ s1 s2,
    GemLiteLinearTriton.new 4 None 128 128 FP16 FP16 None = Ok s1
    ∧ GemLiteLinearTriton.new 4 (Some 128%Z) 128 128 FP16 FP16 None = Ok s2
    ∧ GemLiteLinearTriton.group_size s1 = GemLiteLinearTriton.group_size s2
    ∧ GemLiteLinearTriton._signature s1 [1; 128]
      ≠ GemLiteLinearTriton._signature s2 [1; 128].
Proof.
  destruct (GemLiteLinearTriton.new 4 None 128 128 FP16 FP16 None)
    as [s1|e] eqn:H1; [|vm_compute in H1; discriminate H1].
  destruct (triton_default_group_size 4 128 128 FP16 FP16 None s1 H1)
    as (s2 & H2 & Hg & _ & Heq & Hne).
  exists s1, s2. split_and!; [reflexivity | exact H2 | | apply Hne].
  rewrite Heq. reflexivity.
Defined.

(** ** [GemLiteLinearTriton.pack], statement by statement *)

Lemma triton_pack_W_q_fails self W :
  triton_inv self →
  length (data W)
  ≠ Z.to_nat (GemLiteLinearTriton.out_features self)
    * Z.to_nat (GemLiteLinearTriton.in_features self) →
  GemLiteLinearTriton.pack_W_q self W
  = Raise (RuntimeError "shape is invalid for input size").
Proof.
  intros (Hn & Hin & Hout & Hi0 & Ho0 & Hg & Hshape & _) HW.
  unfold GemLiteLinearTriton.pack_W_q. rewrite Hshape.
  rewrite decide_True by done.
  unfold reshape, numel. by rewrite decide_False.
Qed.

(** The packed tensor has the shape of the buffer the constructor
    registered. *)
Lemma triton_rows self :
  triton_inv self →
  Z.to_nat (GemLiteLinearTriton.in_features self)
    / Z.to_nat (32 / GemLiteLinearTriton.W_nbits self)
  = Z.to_nat (GemLiteLinearTriton.in_features self / 32
              * GemLiteLinearTriton.W_nbits self).
Proof.
  intros (Hn & Hin & Hout & Hi0 & Ho0 & _).
  apply supported_bits_cases in Hn.
  assert (Hm : ∃ m, (GemLiteLinearTriton.in_features self = 128 * m ∧ 0 ≤ m)%Z).
  { exists (GemLiteLinearTriton.in_features self / 128)%Z.
    split; [|apply Z.div_pos; lia].
    by apply Z.div_exact. }
  destruct Hm as (m & -> & Hm0).
  replace (128 * m / 32)%Z with (4 * m)%Z by (Z.div_mod_to_equations; lia).
  destruct Hn as [->|[->|[->| ->]]];
    [change (32 / 1)%Z with 32%Z|change (32 / 2)%Z with 16%Z
    |change (32 / 4)%Z with 8%Z|change (32 / 8)%Z with 4%Z].
  - change (Z.to_nat 32) with 32.
    replace (Z.to_nat (128 * m)) with (Z.to_nat (4 * m * 1) * 32) by lia.
    by rewrite Nat.div_mul.
  - change (Z.to_nat 16) with 16.
    replace (Z.to_nat (128 * m)) with (Z.to_nat (4 * m * 2) * 16) by lia.
    by rewrite Nat.div_mul.
  - change (Z.to_nat 8) with 8.
    replace (Z.to_nat (128 * m)) with (Z.to_nat (4 * m * 4) * 8) by lia.
    by rewrite Nat.div_mul.
  - change (Z.to_nat 4) with 4.
    replace (Z.to_nat (128 * m)) with (Z.to_nat (4 * m * 8) * 4) by lia.
    by rewrite Nat.div_mul.
Qed.

(** [pack_meta] for a non-negative number of groups. *)
Lemma pack_meta_spec self G m :
  (0 ≤ GemLiteLinearTriton.out_features self)%Z → (0 ≤ G)%Z →
  let O := Z.to_nat (GemLiteLinearTriton.out_features self) in
  GemLiteLinearTriton.pack_meta self G m
  = match m with
    | PTensor s =>
        if decide (length (fdata s) = O * Z.to_nat G)
        then Ok (FTensor [Z.to_nat G; O]
                   ((λ p, default 0%Q
                            (fdata s !! ((p mod O) * Z.to_nat G + p / O)))
                      <$> seq 0 (Z.to_nat G * O)))
        else Raise (RuntimeError "shape is invalid for input size")
    | _ => Raise (AttributeError "reshape")
    end.
Proof.
  intros Ho HG O. unfold GemLiteLinearTriton.pack_meta.
  destruct m as [|q|s]; try done.
  rewrite decide_True by done. unfold freshape_t, infer_dim. fold O.
  rewrite decide_False by lia.
  case_decide as H1.
  - rewrite decide_True by tauto. done.
  - rewrite decide_False by tauto. done.
Qed.

Lemma freshape_lookup (s : list Q) G O j o :
  j < G → o < O →
  ((λ p, default 0%Q (s !! ((p mod O) * G + p / O))) <$> seq 0 (G * O))
    !! (j * O + o)
  = Some (default 0%Q (s !! (o * G + j))).
Proof.
  intros Hj Ho. rewrite list_lookup_fmap.
  rewrite lookup_seq_lt by nia. cbn [fmap option_fmap option_map Nat.add].
  destruct (divmod_index O j o Ho) as [-> ->]. done.
Qed.

Lemma triton_pack_run self W scales zeros bias :
  GemLiteLinearTriton.group_size self ≠ 0%Z →
  let G := (GemLiteLinearTriton.in_features self
            / GemLiteLinearTriton.group_size self)%Z in
  GemLiteLinearTriton.pack self W scales zeros bias
  = match GemLiteLinearTriton.pack_W_q self W with
    | Raise e => (self, Raise e)
    | Ok P =>
        let s1 := GemLiteLinearTriton.set_W_q self (Real P) in
        match GemLiteLinearTriton.pack_meta self G scales with
        | Raise e => (s1, Raise e)
        | Ok Sc =>
            let s2 := GemLiteLinearTriton.set_scales s1 (Real Sc) in
            match GemLiteLinearTriton.pack_meta self G zeros with
            | Raise e => (s2, Raise e)
            | Ok Z' =>
                let s3 := GemLiteLinearTriton.set_zeros s2 (Real Z') in
                match GemLiteLinearTriton.bias_parameter self bias with
                | Raise e => (s3, Raise e)
                | Ok b =>
                    (GemLiteLinearTriton.set_device
                       (GemLiteLinearTriton.set_bias s3 b), Ok tt)
                end
            end
        end
    end.
Proof.
  intros Hg G. unfold GemLiteLinearTriton.pack.
  destruct (GemLiteLinearTriton.pack_W_q self W) as [P|e]; [|done].
  cbn [GemLiteLinearTriton.set_W_q GemLiteLinearTriton.in_features
       GemLiteLinearTriton.group_size].
  unfold py_floordiv. rewrite decide_False by done. fold G.
  unfold GemLiteLinearTriton.pack_meta.
  cbn [GemLiteLinearTriton.out_features GemLiteLinearTriton.set_W_q
       GemLiteLinearTriton.set_scales].
  unfold GemLiteLinearTriton.bias_parameter.
  cbn [GemLiteLinearTriton.compute_dtype GemLiteLinearTriton.set_W_q
       GemLiteLinearTriton.set_scales GemLiteLinearTriton.set_zeros].
  done.
Qed.

(** X11. [GemLiteLinearTriton.pack] on any instance with a positive group
    size [g]. It returns exactly when the codes have
    [out_features * in_features] elements, scales and zero-points are
    tensors of [out_features * (in_features // g)] elements, and the bias
    is not a number. Then [W_q] has the shape of the buffer the
    constructor registered, [(in_features // 32 * W_nbits, out_features)];
    scales and zero-points are stored transposed, with shape
    [(in_features // g, out_features)] and element [(j, o)] the element
    [(o, j)] of the argument; [bias] is [None] or the given bias converted
    to the compute dtype, and [device] is set. *)
Theorem triton_pack_returns self W scales zeros bias :
  triton_instance self →
  (0 < GemLiteLinearTriton.group_size self)%Z →
  let I := Z.to_nat (GemLiteLinearTriton.in_features self) in
  let O := Z.to_nat (GemLiteLinearTriton.out_features self) in
  let G := Z.to_nat (GemLiteLinearTriton.in_features self
                     / GemLiteLinearTriton.group_size self) in
  let r := GemLiteLinearTriton.pack self W scales zeros bias in
  (r.2 = Ok tt ↔
     length (data W) = O * I
     ∧ (∃ s, scales = PTensor s ∧ length (fdata s) = O * G)
     ∧ (∃ z, zeros = PTensor z ∧ length (fdata z) = O * G)
     ∧ (∀ q, bias ≠ PNum q))
  ∧ (∀ s z,
       r.2 = Ok tt → scales = PTensor s → zeros = PTensor z →
       ∃ P Sc Z',
         GemLiteLinearTriton.W_q r.1 = Real P
         ∧ GemLiteLinearTriton.scales r.1 = Real Sc
         ∧ GemLiteLinearTriton.zeros r.1 = Real Z'
         ∧ nrows P = Z.to_nat (GemLiteLinearTriton.in_features self / 32
                               * GemLiteLinearTriton.W_nbits self)
         ∧ ncols P = O
         ∧ fshape Sc = [G; O] ∧ fshape Z' = [G; O]
         ∧ (∀ j o, j < G → o < O →
              fdata Sc !! (j * O + o) = Some (default 0%Q (fdata s !! (o * G + j)))
              ∧ fdata Z' !! (j * O + o)
                = Some (default 0%Q (fdata z !! (o * G + j))))
         ∧ GemLiteLinearTriton.bias r.1
           = Some (match bias with
                   | PTensor b =>
                       Some (GemLiteLinearTriton.compute_dtype self, b)
                   | _ => None
                   end)
         ∧ GemLiteLinearTriton.device r.1 = Some tt).
Proof.
  intros Hinst Hg I O G r.
  apply triton_instance_inv in Hinst. pose proof Hinst as Hinv.
  destruct Hinst as (Hn & Hin & Hout & Hi0 & Ho0 & Hg0 & Hshape & _).
  assert (HG : (0 ≤ GemLiteLinearTriton.in_features self
                    / GemLiteLinearTriton.group_size self)%Z)
    by (apply Z.div_pos; lia).
  unfold r. clear r.
  rewrite triton_pack_run by done.
  rewrite !pack_meta_spec by done. fold O G.
  destruct (decide (length (data W) = O * I)) as [HW|HW].
  2:{ rewrite triton_pack_W_q_fails by done. split.
      - split; [discriminate|]. intros (? & _). done.
      - discriminate. }
  destruct (triton_pack_W_q_spec self W Hinv HW) as (P & -> & Hr & Hc & _).
  rewrite triton_rows in Hr by done.
  destruct scales as [|qs|s]; cbn [fst snd];
    [split; [split; [discriminate|intros (_ & (? & ? & _) & _); done]
            |discriminate]..|].
  case_decide as Hs; cbn [fst snd];
    [|split; [split; [discriminate|intros (_ & (? & [= <-] & ?) & _); done]
             |discriminate]].
  destruct zeros as [|qz|z]; cbn [fst snd];
    [split; [split; [discriminate|intros (_ & _ & (? & ? & _) & _); done]
            |discriminate]..|].
  case_decide as Hz; cbn [fst snd];
    [|split; [split; [discriminate|intros (_ & _ & (? & [= <-] & ?) & _); done]
             |discriminate]].
  destruct bias as [|qb|b]; cbn [GemLiteLinearTriton.bias_parameter fst snd].
  2:{ split; [split; [discriminate|]|discriminate].
      intros (_ & _ & _ & Hb). by destruct (Hb qb). }
  all: split; [split; [intros _; split_and!; eauto; congruence | done]|].
  all: intros s' z' _ [= <-] [= <-]; do 3 eexists;
    cbn [GemLiteLinearTriton.W_q GemLiteLinearTriton.scales
         GemLiteLinearTriton.zeros GemLiteLinearTriton.bias
         GemLiteLinearTriton.device GemLiteLinearTriton.set_W_q
         GemLiteLinearTriton.set_scales GemLiteLinearTriton.set_zeros
         GemLiteLinearTriton.set_bias GemLiteLinearTriton.set_device fshape fdata];
    split_and!; try reflexivity; try done.
  all: intros j o Hj Ho; split; by apply freshape_lookup.
Qed.

Lemma triton_pack_returns_witness :
  (GemLiteLinearTriton.pack example_triton example_codes4
     (PTensor (FTensor [128; 1] (replicate 128 1%Q)))
     (PTensor (FTensor [128; 1] (replicate 128 0%Q))) PNone).2 = Ok tt.
Proof.
  destruct (triton_pack_returns example_triton example_codes4
              (PTensor (FTensor [128; 1] (replicate 128 1%Q)))
              (PTensor (FTensor [128; 1] (replicate 128 0%Q))) PNone)
    as [[_ H] _].
  - exact example_triton_instance.
  - reflexivity.
  - apply H. split_and!.
    + reflexivity.
    + eexists. split; reflexivity.
    + eexists. split; reflexivity.
    + intros q. discriminate.
Defined.

(** X12. Failures of [GemLiteLinearTriton.pack] on any instance with a
    positive group size. Codes of the wrong size raise a [RuntimeError]
    and leave the operator unchanged. With codes of the right size, scales
    that are not a tensor raise [AttributeError] for [reshape] after
    [W_q] has been replaced. A numeric bias raises [AttributeError] for
    [to] after weights, scales and zero-points have been replaced, with
    [bias] and [device] as they were. *)
Theorem triton_pack_failures self W scales zeros bias :
  triton_instance self →
  (0 < GemLiteLinearTriton.group_size self)%Z →
  let I := Z.to_nat (GemLiteLinearTriton.in_features self) in
  let O := Z.to_nat (GemLiteLinearTriton.out_features self) in
  let G := Z.to_nat (GemLiteLinearTriton.in_features self
                     / GemLiteLinearTriton.group_size self) in
  let r := GemLiteLinearTriton.pack self W scales zeros bias in
  (length (data W) ≠ O * I →
     r = (self, Raise (RuntimeError "shape is invalid for input size")))
  ∧ (length (data W) = O * I → (∀ s, scales ≠ PTensor s) →
     ∃ P, GemLiteLinearTriton.pack_W_q self W = Ok P
          ∧ r = (GemLiteLinearTriton.set_W_q self (Real P),
                 Raise (AttributeError "reshape")))
  ∧ (∀ s z q,
       length (data W) = O * I →
       scales = PTensor s → length (fdata s) = O * G →
       zeros = PTensor z → length (fdata z) = O * G →
       bias = PNum q →
       r.2 = Raise (AttributeError "to")
       ∧ GemLiteLinearTriton.bias r.1 = GemLiteLinearTriton.bias self
       ∧ GemLiteLinearTriton.device r.1 = GemLiteLinearTriton.device self
       ∧ ∃ P Sc Z',
           GemLiteLinearTriton.W_q r.1 = Real P
           ∧ GemLiteLinearTriton.scales r.1 = Real Sc
           ∧ GemLiteLinearTriton.zeros r.1 = Real Z').
Proof.
  intros Hinst Hg I O G r.
  apply triton_instance_inv in Hinst. pose proof Hinst as Hinv.
  destruct Hinst as (Hn & Hin & Hout & Hi0 & Ho0 & Hg0 & Hshape & _).
  assert (HG : (0 ≤ GemLiteLinearTriton.in_features self
                    / GemLiteLinearTriton.group_size self)%Z)
    by (apply Z.div_pos; lia).
  unfold r. clear r.
  rewrite triton_pack_run by done.
  rewrite !pack_meta_spec by done. fold O G.
  split_and!.
  - intros HW. by rewrite triton_pack_W_q_fails.
  - intros HW Hs.
    destruct (triton_pack_W_q_spec self W Hinv HW) as (P & -> & _).
    exists P. split; [done|].
    destruct scales as [| |s]; [done..|]. by destruct (Hs s).
  - intros s z q HW -> Hs -> Hz ->.
    destruct (triton_pack_W_q_spec self W Hinv HW) as (P & -> & _).
    rewrite !decide_True by done.
    cbn [GemLiteLinearTriton.bias_parameter fst snd].
    split_and!; try done. by do 3 eexists.
Qed.

Lemma triton_pack_failures_witness :
  GemLiteLinearTriton.pack example_triton (Tensor 1 3 [1; 2; 3]%Z)
    PNone PNone PNone
  = (example_triton, Raise (RuntimeError "shape is invalid for input size")).
Proof.
  destruct (triton_pack_failures example_triton (Tensor 1 3 [1; 2; 3]%Z)
              PNone PNone PNone) as [H _].
  - exact example_triton_instance.
  - reflexivity.
  - apply H. vm_compute. discriminate.
Defined.

(** ** Layout B loses nothing *)

(** X13. Layout B loses nothing: on any instance, two code tensors of the
    right size with all codes in [0, 2^W_nbits) that pack to the same
    words have the same elements. *)
Theorem triton_pack_injective self W1 W2 :
  triton_instance self →
  let I := Z.to_nat (GemLiteLinearTriton.in_features self) in
  let O := Z.to_nat (GemLiteLinearTriton.out_features self) in
  length (data W1) = O * I → length (data W2) = O * I →
  (∀ x, x ∈ data W1 → (0 ≤ x < 2 ^ GemLiteLinearTriton.W_nbits self)%Z) →
  (∀ x, x ∈ data W2 → (0 ≤ x < 2 ^ GemLiteLinearTriton.W_nbits self)%Z) →
  GemLiteLinearTriton.pack_W_q self W1 = GemLiteLinearTriton.pack_W_q self W2 →
  data W1 = data W2.
Proof.
  intros Hinst I O Hl1 Hl2 Hc1 Hc2 HP.
  apply triton_instance_inv in Hinst.
  set (k := Z.to_nat (32 / GemLiteLinearTriton.W_nbits self)).
  destruct (triton_pack_W_q_fields self W1 Hinst Hl1 Hc1)
    as (P & HP1 & _ & _ & Hk & Hf1).
  destruct (triton_pack_W_q_fields self W2 Hinst Hl2 Hc2)
    as (P2 & HP2 & _ & _ & _ & Hf2).
  assert (P2 = P) as -> by congruence.
  fold I O k in Hk, Hf1, Hf2.
  apply (data_eq_flat W1 W2); [congruence|].
  intros p Hp. rewrite Hl1 in Hp.
  assert (HI : 0 < I) by (destruct I; lia).
  assert (Hk0 : 0 < k) by (destruct k; [lia|lia]).
  pose proof (Nat.div_mod p I ltac:(lia)) as Hpd.
  pose proof (Nat.mod_upper_bound p I ltac:(lia)) as Hpm.
  set (c := p / I) in *. set (i := p mod I) in *.
  pose proof (Nat.div_mod i k ltac:(lia)) as Hid.
  pose proof (Nat.mod_upper_bound i k ltac:(lia)) as Him.
  assert (Hc : c < O) by (unfold c; apply Nat.Div0.div_lt_upper_bound; lia).
  assert (Hr : i / k < I / k) by (apply Nat.Div0.div_lt_upper_bound; lia).
  destruct (Hf1 (i / k) c Hr Hc) as [_ H1].
  destruct (Hf2 (i / k) c Hr Hc) as [_ H2].
  specialize (H1 (i mod k) Him). specialize (H2 (i mod k) Him).
  rewrite H1 in H2. unfold item in H2. cbn [ncols data] in H2.
  replace (c * I + (i / k * k + i mod k)) with p in H2 by lia.
  exact H2.
Qed.

Lemma triton_pack_injective_witness :
  data example_codes4 = data example_codes4.
Proof.
  apply (triton_pack_injective example_triton example_codes4 example_codes4).
  - exact example_triton_instance.
  - reflexivity.
  - reflexivity.
  - intros x Hx. apply elem_of_replicate in Hx as [-> _]. vm_compute. by split.
  - intros x Hx. apply elem_of_replicate in Hx as [-> _]. vm_compute. by split.
  - reflexivity.
Defined.

(** * The forward passes of the Triton operator *)

Lemma triton_pack_dtype self W scales zeros bias :
  GemLiteLinearTriton.input_dtype
    (GemLiteLinearTriton.pack self W scales zeros bias).1
  = GemLiteLinearTriton.input_dtype self.
Proof. unfold GemLiteLinearTriton.pack. repeat case_match; cbn; done. Qed.

(** The kernel list goes with the input dtype. *)
Lemma triton_instance_dtype self :
  triton_instance self →
  (GemLiteLinearTriton.input_dtype self = FP16
   ∧ GemLiteLinearTriton.kernels self
     = [gemm_A16fWnO16f_int32packing; gemv_A16fWnO16f_int32packing])
  ∨ (GemLiteLinearTriton.input_dtype self = BF16
     ∧ GemLiteLinearTriton.kernels self = [gemm_A16fWnO16f_int32packing]).
Proof.
  induction 1 as [n g i o idt odt acc self Hnew|self W s z b _ IH].
  - revert Hnew. ctor_unfold.
    destruct (bool_decide (n ∈ _)); cbn [negb]; [|discriminate].
    destruct (bool_decide (i mod 128 = 0)%Z); cbn [negb orb]; [|discriminate].
    destruct (bool_decide (o mod 128 = 0)%Z); cbn [negb orb]; [|discriminate].
    ctor_cases; try discriminate; intros [= <-]; cbn;
      destruct_and?; subst; try discriminate; auto.
  - rewrite triton_pack_dtype.
    destruct (triton_pack_fields self W s z b) as (_&_&_&_&_&_&->). exact IH.
Qed.

Lemma triton_pack_ok_bias self W scales zeros bias :
  (GemLiteLinearTriton.pack self W scales zeros bias).2 = Ok tt →
  GemLiteLinearTriton.bias
    (GemLiteLinearTriton.pack self W scales zeros bias).1
  = Some (match bias with
          | PTensor b => Some (GemLiteLinearTriton.compute_dtype self, b)
          | _ => None
          end).
Proof.
  unfold GemLiteLinearTriton.pack, GemLiteLinearTriton.bias_parameter.
  repeat case_match; cbn; try discriminate; simplify_eq; done.
Qed.

(** ** [forward_auto] *)

(** X14. The outcomes of [forward_auto] on any instance. An input without a
    valid 2-D view (no dimensions, or a last dimension of 0) raises
    before the cache is read and before any kernel runs. Otherwise the
    call leaves an entry under its key, benchmarks the candidate kernels
    exactly when the key was absent, and invokes the kernel of that entry
    once on the [(rows, cols)] view: the warm-up itself never fails. The
    kernel having returned, the call raises [AttributeError] for [bias]
    if [bias] was never set, returns the shape
    [x.shape[:-1] + (out_features,)] if the bias is [None] or broadcasts
    to that shape, and raises [RuntimeError] if it does not broadcast.
    After a [pack] that returned, the call returns exactly when no bias
    was given or the given bias broadcasts to the output shape. *)
Theorem forward_auto_outcomes self measure x_shape cache :
  triton_instance self →
  let key := GemLiteLinearTriton._signature self x_shape in
  let r := GemLiteLinearTriton.forward_auto self measure x_shape cache in
  let out := removelast x_shape
               ++ [Z.to_nat (GemLiteLinearTriton.out_features self)] in
  let add b :=
    if broadcasts_to (Z.of_nat <$> fshape b) (Z.of_nat <$> out)
    then Ok out
    else Raise (RuntimeError "the bias does not broadcast to the output") in
  (∀ e, GemLiteLinearTriton.view_2d x_shape = Raise e → r = (cache, [], Raise e))
  ∧ (∀ rows cols,
       GemLiteLinearTriton.view_2d x_shape = Ok (rows, cols) →
       ∃ entry,
         r.1.1 !! key = Some entry
         ∧ r.1.2
           = match cache !! key with
             | Some _ => []
             | None =>
                 EvBench <$> candidates key.1 (GemLiteLinearTriton.kernels self)
             end ++ [EvInvoke (forward entry) rows cols]
         ∧ r.2
           = match GemLiteLinearTriton.bias self with
             | None => Raise (AttributeError "bias")
             | Some None => Ok out
             | Some (Some (_, b)) => add b
             end)
  ∧ (∀ W scales zeros bias rows cols,
       (GemLiteLinearTriton.pack self W scales zeros bias).2 = Ok tt →
       GemLiteLinearTriton.view_2d x_shape = Ok (rows, cols) →
       (GemLiteLinearTriton.forward_auto
          (GemLiteLinearTriton.pack self W scales zeros bias).1
          measure x_shape cache).2
       = match bias with
         | PTensor b => add b
         | _ => Ok out
         end).
Proof.
  intros Hinst key r out add.
  assert (Hcall : ∀ self' rows cols,
    triton_instance self' →
    GemLiteLinearTriton.view_2d x_shape = Ok (rows, cols) →
    let key' := GemLiteLinearTriton._signature self' x_shape in
    let r' := GemLiteLinearTriton.forward_auto self' measure x_shape cache in
    ∃ entry,
      r'.1.1 !! key' = Some entry
      ∧ r'.1.2
        = match cache !! key' with
          | Some _ => []
          | None =>
              EvBench <$> candidates key'.1 (GemLiteLinearTriton.kernels self')
          end ++ [EvInvoke (forward entry) rows cols]
      ∧ r'.2 = GemLiteLinearTriton.add_bias self'
                 (GemLiteLinearTriton.out_shape self' x_shape)).
  { intros self' rows cols Hinst' Hv key' r'. unfold r'.
    destruct (cache !! key') as [entry|] eqn:Hkey.
    - rewrite (forward_auto_hit self' measure x_shape cache entry rows cols Hv Hkey).
      exists entry. cbn. by split_and!.
    - destruct (forward_auto_miss self' measure x_shape cache rows cols
                  Hinst' Hv Hkey) as (w & _ & ->).
      exists (CacheEntry w (measure w)). cbn. split_and!; try done.
      apply lookup_insert_eq. }
  split_and!.
  - intros e He. unfold r, GemLiteLinearTriton.forward_auto. by rewrite He.
  - intros rows cols Hv.
    destruct (Hcall self rows cols Hinst Hv) as (entry & H1 & H2 & H3).
    exists entry. by split_and!.
  - intros W scales zeros bias rows cols Hok Hv.
    destruct (Hcall _ rows cols
                (triton_packed self W scales zeros bias Hinst) Hv)
      as (entry & _ & _ & ->).
    unfold GemLiteLinearTriton.add_bias, GemLiteLinearTriton.out_shape.
    rewrite (triton_pack_ok_bias self W scales zeros bias Hok).
    destruct (triton_pack_fields self W scales zeros bias) as (_&_&->&_).
    by destruct bias.
Qed.

Lemma forward_auto_outcomes_witness :
  GemLiteLinearTriton.forward_auto example_triton example_measure [] ∅
  = (∅, [], Raise (IndexError "tuple index out of range"))
  ∧ ∃ entry,
      (GemLiteLinearTriton.forward_auto example_triton example_measure
         [2; 128] ∅).1.1 !! (2%Z, (128, 128, 4, Some 128)%Z) = Some entry
      ∧ (GemLiteLinearTriton.forward_auto example_triton example_measure
           [2; 128] ∅).2 = Raise (AttributeError "bias").
Proof.
  destruct (forward_auto_outcomes example_triton example_measure [] ∅)
    as (H & _); [exact example_triton_instance|].
  split; [apply H; reflexivity|].
  destruct (forward_auto_outcomes example_triton example_measure [2; 128] ∅)
    as (_ & H2 & _); [exact example_triton_instance|].
  destruct (H2 2 128 eq_refl) as (entry & Hentry & _ & Hres).
  exists entry. split; [exact Hentry | exact Hres].
Defined.

(** ** The cache over a sequence of calls *)

Lemma forward_auto_cache_size self measure x_shape cache :
  size (GemLiteLinearTriton.forward_auto self measure x_shape cache).1.1
  ≤ S (size cache).
Proof.
  unfold GemLiteLinearTriton.forward_auto.
  destruct (GemLiteLinearTriton.view_2d x_shape) as [[rows cols]|]; [|cbn; lia].
  destruct (cache !! GemLiteLinearTriton._signature self x_shape) as [e'|] eqn:He.
  - cbn. rewrite He. cbn. lia.
  - assert (Hw : size (GemLiteLinearTriton.warmup self
                         (GemLiteLinearTriton._signature self x_shape)
                         measure cache).1.1 ≤ S (size cache)).
    { unfold GemLiteLinearTriton.warmup.
      destruct (GemLiteLinearTriton.warmup_loop _ _ _ _ _) as [t log].
      destruct (argmin t) as [indx|]; [|cbn; lia].
      destruct (_ !! indx), (t !! indx); cbn; try lia.
      by rewrite map_size_insert_None. }
    destruct (GemLiteLinearTriton.warmup _ _ _ _) as [[cache' log] r].
    cbn in Hw. destruct r; [|exact Hw].
    destruct (cache' !! GemLiteLinearTriton._signature self x_shape); exact Hw.
Qed.

Lemma forward_auto_cache_step self measure x_shape cache :
  triton_instance self →
  let key := GemLiteLinearTriton._signature self x_shape in
  let cache' :=
    (GemLiteLinearTriton.forward_auto self measure x_shape cache).1.1 in
  cache' = cache
  ∨ ∃ w, w ∈ GemLiteLinearTriton.kernels self
         ∧ cache !! key = None
         ∧ cache' = <[key := CacheEntry w (measure w)]> cache.
Proof.
  intros Hinst key cache'. unfold cache'.
  destruct (GemLiteLinearTriton.view_2d x_shape) as [[rows cols]|e] eqn:Hv.
  2:{ left. unfold GemLiteLinearTriton.forward_auto. by rewrite Hv. }
  destruct (cache !! key) as [entry|] eqn:Hkey.
  - left. by rewrite (forward_auto_hit self measure x_shape cache entry rows cols).
  - right.
    destruct (warmup_argmin self key measure cache Hinst)
      as (w & indx & Hw & Hin & _).
    exists w. split_and!; [|done|].
    + apply list_elem_of_lookup_2 in Hin. unfold candidates in Hin.
      by apply list_elem_of_filter in Hin as [_ Hin].
    + unfold GemLiteLinearTriton.forward_auto.
      rewrite Hv. fold key. rewrite Hkey, Hw. cbn.
      by rewrite lookup_insert_eq.
Qed.

(** X15. The cache over any sequence of [forward] calls: no entry is removed
    or changed, at most one entry is added per call, and when the calls
    are made by instances every entry that was not there before was
    recorded by one of the calls, under that call's key, with a kernel of
    that call's operator and the latency measured for it in that call. *)
Theorem run_cache_grows cs cache :
  cache ⊆ run cs cache
  ∧ size (run cs cache) ≤ size cache + length cs
  ∧ (Forall (λ c, triton_instance (call_self c)) cs →
     ∀ key e,
       run cs cache !! key = Some e →
       cache !! key = Some e
       ∨ ∃ c, c ∈ cs
              ∧ key = GemLiteLinearTriton._signature (call_self c) (call_x c)
              ∧ forward e ∈ GemLiteLinearTriton.kernels (call_self c)
              ∧ time e = call_measure c (forward e)).
Proof.
  split_and!.
  - apply map_subseteq_spec. intros k e. apply run_preserves.
  - revert cache. induction cs as [|c cs IH]; intros cache; [cbn; lia|].
    cbn [run foldl length]. fold (run cs (do_call c cache).1.1).
    specialize (IH (do_call c cache).1.1).
    pose proof (forward_auto_cache_size (call_self c) (call_measure c)
                  (call_x c) cache) as Hs.
    unfold do_call in *. lia.
  - revert cache. induction cs as [|c cs IH]; intros cache Hall key e Hrun.
    { left. exact Hrun. }
    apply Forall_cons in Hall as [Hc Hall].
    cbn [run foldl] in Hrun. fold (run cs (do_call c cache).1.1) in Hrun.
    destruct (IH _ Hall key e Hrun) as [H1|(c' & Hc' & Hrest)].
    2:{ right. exists c'. split; [by apply elem_of_cons; right|exact Hrest]. }
    unfold do_call in H1.
    destruct (forward_auto_cache_step (call_self c) (call_measure c)
                (call_x c) cache Hc) as [Heq|(w & Hw & Hmiss & Heq)].
    + left. by rewrite Heq in H1.
    + rewrite Heq in H1. apply lookup_insert_Some in H1 as [[<- <-]|[Hne H1]].
      * right. exists c. split_and!; [apply elem_of_cons; by left|done..].
      * by left.
Qed.

Lemma run_cache_grows_witness :
  ∃ e,
    run [Call example_triton example_measure [1; 128]] ∅
      !! (1%Z, (128, 128, 4, Some 128)%Z) = Some e
    ∧ forward e ∈ GemLiteLinearTriton.kernels example_triton
    ∧ time e = example_measure (forward e).
Proof.
  destruct (run [Call example_triton example_measure [1; 128]] ∅
              !! (1%Z, (128, 128, 4, Some 128)%Z)) as [e|] eqn:He;
    [|vm_compute in He; discriminate He].
  exists e. split; [reflexivity|].
  destruct (run_cache_grows [Call example_triton example_measure [1; 128]] ∅)
    as (_ & _ & H).
  assert (Hall : Forall (λ c, triton_instance (call_self c))
                   [Call example_triton example_measure [1; 128]]).
  { constructor; [exact example_triton_instance | constructor]. }
  destruct (H Hall _ e He) as [Hemp|(c & Hc & _ & Hk & Ht)].
  - rewrite lookup_empty in Hemp. discriminate Hemp.
  - apply list_elem_of_singleton in Hc. subst c. split; [exact Hk | exact Ht].
Defined.

(** ** Which kernel the warm-up records *)

(** X16. Which kernel [warmup] records on an instance. For a batch component
    above 8, and for every BF16 operator, only the GEMM kernel is timed
    and it is recorded. For an FP16 operator and a batch component of at
    most 8 both kernels are timed, GEMM first, and GEMV is recorded
    exactly when it measured strictly faster. *)
Theorem warmup_kernel_choice self key measure cache :
  triton_instance self →
  let gemm := gemm_A16fWnO16f_int32packing in
  let gemv := gemv_A16fWnO16f_int32packing in
  ((8 < key.1)%Z ∨ GemLiteLinearTriton.input_dtype self = BF16 →
     GemLiteLinearTriton.warmup self key measure cache
     = (<[key := CacheEntry gemm (measure gemm)]> cache, [EvBench gemm], Ok tt))
  ∧ ((key.1 ≤ 8)%Z → GemLiteLinearTriton.input_dtype self = FP16 →
     let w := if Qle_bool (measure gemm) (measure gemv) then gemm else gemv in
     GemLiteLinearTriton.warmup self key measure cache
     = (<[key := CacheEntry w (measure w)]> cache,
        [EvBench gemm; EvBench gemv], Ok tt)).
Proof.
  intros Hinst gemm gemv.
  destruct (triton_instance_dtype self Hinst) as [[Hd Hk]|[Hd Hk]].
  - split.
    + intros [Hb|Hbf]; [|congruence].
      unfold GemLiteLinearTriton.warmup. rewrite Hk.
      cbn [GemLiteLinearTriton.warmup_loop matmul_type].
      rewrite (bool_decide_eq_true_2 (8 < key.1)%Z) by done.
      rewrite (bool_decide_eq_false_2 (GEMM = GEMV)) by done.
      rewrite (bool_decide_eq_true_2 (GEMV = GEMV)) by done.
      cbn [andb app argmin argmin_from lookup list_lookup]. done.
    + intros Hb _ w.
      unfold GemLiteLinearTriton.warmup. rewrite Hk.
      cbn [GemLiteLinearTriton.warmup_loop matmul_type].
      rewrite (bool_decide_eq_false_2 (8 < key.1)%Z) by lia.
      cbn [andb app argmin argmin_from]. unfold w. fold gemm gemv.
      by destruct (Qle_bool (measure gemm) (measure gemv)).
  - split.
    + intros _.
      unfold GemLiteLinearTriton.warmup. rewrite Hk.
      cbn [GemLiteLinearTriton.warmup_loop matmul_type].
      rewrite (bool_decide_eq_false_2 (GEMM = GEMV)) by done.
      rewrite andb_false_r.
      cbn [app argmin argmin_from lookup list_lookup]. done.
    + intros _ Hfp. congruence.
Qed.

Lemma warmup_kernel_choice_witness :
  GemLiteLinearTriton.warmup example_triton (16%Z, (128, 128, 4, Some 128)%Z)
    example_measure ∅
  = (<[(16%Z, (128, 128, 4, Some 128)%Z)
       := CacheEntry gemm_A16fWnO16f_int32packing
            (example_measure gemm_A16fWnO16f_int32packing)]> ∅,
     [EvBench gemm_A16fWnO16f_int32packing], Ok tt).
Proof.
  destruct (warmup_kernel_choice example_triton
              (16%Z, (128, 128, 4, Some 128)%Z) example_measure ∅) as [H _].
  - exact example_triton_instance.
  - apply H. left. cbn. lia.
Defined.

(** X17. The cache key carries no dtype. Let an FP16 and a BF16 instance
    have the same signature, and let the FP16 one be called first, on a
    key not yet in the cache, with a batch component of at most 8 and the
    GEMV kernel measuring faster. A later call of the BF16 instance with
    the same first dimension runs no benchmark and invokes the GEMV
    kernel, which is not among the kernels of a BF16 operator. *)
Theorem cache_shared_across_dtypes s1 s2 m1 m2 x1 x2 cache rows cols :
  triton_instance s1 → triton_instance s2 →
  GemLiteLinearTriton.input_dtype s1 = FP16 →
  GemLiteLinearTriton.input_dtype s2 = BF16 →
  GemLiteLinearTriton.signature s1 = GemLiteLinearTriton.signature s2 →
  head x1 = head x2 →
  is_ok (GemLiteLinearTriton.view_2d x1) = true →
  GemLiteLinearTriton.view_2d x2 = Ok (rows, cols) →
  (Z.of_nat (default 0%nat (head x1)) ≤ 8)%Z →
  cache !! GemLiteLinearTriton._signature s1 x1 = None →
  (m1 gemv_A16fWnO16f_int32packing < m1 gemm_A16fWnO16f_int32packing)%Q →
  let cache1 := (GemLiteLinearTriton.forward_auto s1 m1 x1 cache).1.1 in
  (GemLiteLinearTriton.forward_auto s2 m2 x2 cache1).1
  = (cache1, [EvInvoke gemv_A16fWnO16f_int32packing rows cols])
  ∧ gemv_A16fWnO16f_int32packing ∉ GemLiteLinearTriton.kernels s2.
Proof.
  intros H1 H2 Hd1 Hd2 Hsig Hhead Hv1 Hv2 Hb Hmiss Hlt cache1.
  destruct (GemLiteLinearTriton.view_2d x1) as [[r1 c1]|] eqn:Hv1'; [|done].
  set (key := GemLiteLinearTriton._signature s1 x1) in *.
  assert (Hkey : GemLiteLinearTriton._signature s2 x2 = key).
  { unfold key, GemLiteLinearTriton._signature. by rewrite Hsig, Hhead. }
  assert (Hw : GemLiteLinearTriton.warmup s1 key m1 cache
               = (<[key := CacheEntry gemv_A16fWnO16f_int32packing
                             (m1 gemv_A16fWnO16f_int32packing)]> cache,
                  [EvBench gemm_A16fWnO16f_int32packing;
                   EvBench gemv_A16fWnO16f_int32packing], Ok tt)).
  { destruct (triton_instance_dtype s1 H1) as [[_ Hk]|[Hd _]]; [|congruence].
    unfold GemLiteLinearTriton.warmup. rewrite Hk.
    cbn [GemLiteLinearTriton.warmup_loop matmul_type].
    rewrite (bool_decide_eq_false_2 (8 < key.1)%Z) by (cbn; lia).
    cbn [andb app argmin argmin_from].
    destruct (Qle_bool _ _) eqn:Hle; [|done].
    apply Qle_bool_iff in Hle. exfalso. by apply (Qlt_not_le _ _ Hlt). }
  assert (Hc1 : cache1 = <[key := CacheEntry gemv_A16fWnO16f_int32packing
                                    (m1 gemv_A16fWnO16f_int32packing)]> cache).
  { unfold cache1, GemLiteLinearTriton.forward_auto.
    rewrite Hv1'. fold key. rewrite Hmiss, Hw. cbn.
    by rewrite lookup_insert_eq. }
  split.
  - rewrite (forward_auto_hit s2 m2 x2 cache1
               (CacheEntry gemv_A16fWnO16f_int32packing
                  (m1 gemv_A16fWnO16f_int32packing)) rows cols Hv2).
    + done.
    + rewrite Hkey, Hc1. apply lookup_insert_eq.
  - destruct (triton_instance_dtype s2 H2) as [[Hd _]|[_ ->]]; [congruence|].
    rewrite list_elem_of_singleton. discriminate.
Qed.

Lemma example_triton_bf16_instance : triton_instance example_triton_bf16.
Proof.
  apply (triton_new 4 (Some 128%Z) 128 128 BF16 BF16 None).
  vm_compute. reflexivity.
Qed.

Lemma cache_shared_across_dtypes_witness :
  (GemLiteLinearTriton.forward_auto example_triton_bf16 example_measure [1; 128]
     (GemLiteLinearTriton.forward_auto example_triton example_measure
        [1; 128] ∅).1.1).1.2
  = [EvInvoke gemv_A16fWnO16f_int32packing 1 128]
  ∧ gemv_A16fWnO16f_int32packing
    ∉ GemLiteLinearTriton.kernels example_triton_bf16.
Proof.
  destruct (cache_shared_across_dtypes example_triton example_triton_bf16
              example_measure example_measure [1; 128] [1; 128] ∅ 1 128)
    as [H1 H2].
  - exact example_triton_instance.
  - exact example_triton_bf16_instance.
  - reflexivity.
  - reflexivity.
  - reflexivity.
  - reflexivity.
  - reflexivity.
  - reflexivity.
  - cbn. lia.
  - reflexivity.
  - reflexivity.
  - split; [|exact H2]. rewrite H1. reflexivity.
Defined.

(** ** [forward_manual] *)

Lemma mapping_lookup dt mt k :
  GEMLITE_TRITON_MAPPING !! (dt, mt) = Some k ↔
  (dt = "FP16" ∧ mt = "GEMV" ∧ k = gemv_A16fWnO16f_int32packing)
  ∨ (dt = "FP16" ∧ mt = "GEMM" ∧ k = gemm_A16fWnO16f_int32packing)
  ∨ (dt = "BF16" ∧ mt = "GEMM" ∧ k = gemm_A16fWnO16f_int32packing).
Proof.
  unfold GEMLITE_TRITON_MAPPING.
  rewrite !lookup_insert_Some, lookup_singleton_Some.
  split.
  - intros [[[= <- <-] <-]|[_ [[[= <- <-] <-]|[_ [[= <- <-] <-]]]]]; auto 10.
  - intros [(-> & -> & ->)|[(-> & -> & ->)|(-> & -> & ->)]].
    + by left.
    + right. split; [done|]. by left.
    + right. split; [done|]. right. split; [done|]. done.
Qed.

(** X18. [forward_manual] on any instance. A [matmul_type] other than
    ["GEMM"] and ["GEMV"], and ["GEMV"] on a BF16 operator, is a
    [KeyError] of [GEMLITE_TRITON_MAPPING], raised before the input is
    viewed. Otherwise, for an input with a valid 2-D view, the mapped
    kernel is invoked once on the view, with no benchmark. The kernel
    having returned, the call raises [AttributeError] for [bias] if
    [bias] was never set, returns the shape
    [x.shape[:-1] + (out_features,)] if the bias is [None] or broadcasts
    to that shape, and raises [RuntimeError] if it does not broadcast.
    The kernels the mapping offers for the operator's input dtype are
    exactly the kernels of [self.kernels]. *)
Theorem forward_manual_outcomes self x_shape mt :
  triton_instance self →
  let r := forward_manual self x_shape mt in
  let dt := DType_value (GemLiteLinearTriton.input_dtype self) in
  let gemm := gemm_A16fWnO16f_int32packing in
  let gemv := gemv_A16fWnO16f_int32packing in
  ((mt ≠ "GEMM" ∧ mt ≠ "GEMV")
   ∨ (mt = "GEMV" ∧ GemLiteLinearTriton.input_dtype self = BF16) →
     r = ([], ManualKeyError (dt, mt)))
  ∧ (∀ rows cols,
       GemLiteLinearTriton.view_2d x_shape = Ok (rows, cols) →
       ∀ k, (mt = "GEMM" ∧ k = gemm)
            ∨ (mt = "GEMV" ∧ GemLiteLinearTriton.input_dtype self = FP16
               ∧ k = gemv) →
       let out := removelast x_shape
                    ++ [Z.to_nat (GemLiteLinearTriton.out_features self)] in
       r = ([EvInvoke k rows cols],
            match GemLiteLinearTriton.bias self with
            | None => ManualRaise (AttributeError "bias")
            | Some None => ManualReturn out
            | Some (Some (_, b)) =>
                if broadcasts_to (Z.of_nat <$> fshape b) (Z.of_nat <$> out)
                then ManualReturn out
                else ManualRaise
                       (RuntimeError "the bias does not broadcast to the output")
            end))
  ∧ (∀ k, k ∈ GemLiteLinearTriton.kernels self ↔
          ∃ mt', GEMLITE_TRITON_MAPPING !! (dt, mt') = Some k).
Proof.
  intros Hinst r dt gemm gemv. unfold r. clear r.
  assert (Hdt : (GemLiteLinearTriton.input_dtype self = FP16 ∧ dt = "FP16"
                 ∧ GemLiteLinearTriton.kernels self = [gemm; gemv])
                ∨ (GemLiteLinearTriton.input_dtype self = BF16 ∧ dt = "BF16"
                   ∧ GemLiteLinearTriton.kernels self = [gemm])).
  { unfold dt.
    destruct (triton_instance_dtype self Hinst) as [[-> ->]|[-> ->]]; auto. }
  split_and!.
  - intros Hmt. unfold forward_manual. fold dt.
    destruct (GEMLITE_TRITON_MAPPING !! (dt, mt)) as [k|] eqn:Hk; [|done].
    exfalso. apply mapping_lookup in Hk.
    destruct Hdt as [(Hd & Hs & _)|(Hd & Hs & _)]; rewrite Hs in Hk;
      destruct Hmt as [[? ?]|[? ?]];
      destruct Hk as [(? & ? & ?)|[(? & ? & ?)|(? & ? & ?)]]; congruence.
  - intros rows cols Hv k Hk. unfold forward_manual. fold dt.
    assert (Hl : GEMLITE_TRITON_MAPPING !! (dt, mt) = Some k).
    { apply mapping_lookup.
      destruct Hdt as [(Hd & -> & _)|(Hd & -> & _)];
        destruct Hk as [[-> ->]|(-> & ? & ->)]; auto 10; congruence. }
    rewrite Hl, Hv.
    unfold GemLiteLinearTriton.add_bias, GemLiteLinearTriton.out_shape.
    destruct (GemLiteLinearTriton.bias self) as [[[d b]|]|]; try done.
    by destruct (broadcasts_to _ _).
  - intros k. split.
    + intros Hk.
      destruct Hdt as [(_ & -> & Hks)|(_ & -> & Hks)]; rewrite Hks in Hk.
      * apply elem_of_cons in Hk as [->|Hk%list_elem_of_singleton].
        -- exists "GEMM". apply mapping_lookup. auto 10.
        -- subst k. exists "GEMV". apply mapping_lookup. auto 10.
      * apply list_elem_of_singleton in Hk as ->.
        exists "GEMM". apply mapping_lookup. auto 10.
    + intros [mt' Hk]. apply mapping_lookup in Hk.
      destruct Hdt as [(_ & Hs & ->)|(_ & Hs & ->)]; rewrite Hs in Hk.
      * destruct k; [apply elem_of_cons; by left|].
        apply elem_of_cons; right. by apply list_elem_of_singleton.
      * destruct Hk as [(? & ? & ?)|[(? & ? & ?)|(? & ? & ->)]];
          try discriminate.
        by apply list_elem_of_singleton.
Qed.

Lemma forward_manual_outcomes_witness :
  forward_manual example_triton_bf16 [1; 128] "GEMV"
  = ([], ManualKeyError ("BF16", "GEMV"))
  ∧ forward_manual example_triton [2; 128] "GEMM"
    = ([EvInvoke gemm_A16fWnO16f_int32packing 2 128],
       ManualRaise (AttributeError "bias")).
Proof.
  split.
  - destruct (forward_manual_outcomes example_triton_bf16 [1; 128] "GEMV")
      as (H & _).
    + exact example_triton_bf16_instance.
    + apply H. right. split; reflexivity.
  - destruct (forward_manual_outcomes example_triton [2; 128] "GEMM")
      as (_ & H & _).
    + exact example_triton_instance.
    + apply (H 2 128); [reflexivity|]. left. split; reflexivity.
Defined.

(** ** [cdiv] *)

(** X19. [cdiv(a, b)] raises [ZeroDivisionError] for [b = 0]; for a positive
    [b] it is the ceiling of [a / b], the least [q] with [a <= q * b], and
    it equals [a // b] exactly when [b] divides [a]. *)
Theorem cdiv_ceiling a b :
  cdiv a 0 = Raise ZeroDivisionError
  ∧ ((0 < b)%Z →
     ∃ q, cdiv a b = Ok q
          ∧ ((q - 1) * b < a ≤ q * b)%Z
          ∧ (q = (a / b)%Z ↔ (b | a)%Z)).
Proof.
  split; [done|].
  intros Hb. unfold cdiv, py_floordiv. rewrite decide_False by lia.
  eexists. split; [reflexivity|]. split.
  - Z.div_mod_to_equations. nia.
  - split.
    + intros Heq. apply Z.mod_divide; [lia|].
      revert Heq. Z.div_mod_to_equations. nia.
    + intros [m ->]. rewrite Z.div_mul by lia.
      replace (m * b + b - 1)%Z with ((b - 1) + m * b)%Z by lia.
      rewrite Z.div_add by lia. rewrite Z.div_small by lia. lia.
Qed.

Lemma cdiv_ceiling_witness :
  ∃ q, cdiv 128 48 = Ok q ∧ ((q - 1) * 48 < 128 ≤ q * 48)%Z.
Proof.
  destruct (cdiv_ceiling 128 48) as [_ H].
  destruct H as (q & Hq & Hb & _); [lia|].
  exists q. split; [exact Hq | exact Hb].
Defined.
